(** * TestBounty / TestSprite agents: a shallow embedding and its properties

    The development follows the Python sources of the repository:

    - [PyStr]: the handful of [str] operations the agents rely on;
    - [Planner]: [testbounty_agent/src/agents/planner.py];
    - [Explorer]: [testbounty_agent/src/agents/explorer.py];
    - [Executor]: [execute_scenario] and [run_scenarios_task] of
      [testbounty_agent/src/api_server.py];
    - [Sprite]: the batch executor of
      [test_sprite_agent/src/mcp_server/server.py] and the stage graph of
      [test_sprite_agent/src/agents/orchestrator.py] with the nodes of
      [nodes.py].

    Python dictionaries whose iteration order is observable (the [modules]
    of an app map and of a plan) are association lists in insertion order;
    dictionaries that are only looked up and counted are [gmap]s; the
    crawler's [visited_urls] set is a [gset]. Python strings are modelled by
    [string], one [ascii] per character: the characters are the code points
    below U+0100. *)

From Stdlib Require Import Ascii String DecimalString DecimalNat.
From stdpp Require Import base list strings gmap.

Local Open Scope string_scope.
Local Open Scope list_scope.
Local Open Scope nat_scope.

(** * Python string operations

    Case conversion acts on the ASCII letters. White space is what
    [str.isspace] accepts among the characters below U+0100. *)

Module PyStr.

(** [bool(s)]: a string is truthy when it is not empty. *)
Definition truthy (s : string) : bool :=
  match s with "" => false | _ => true end.

(** [a or b] on strings. *)
Definition or_else (a b : string) : string := if truthy a then a else b.

Definition is_upper (c : ascii) : bool :=
  let n := nat_of_ascii c in (65 <=? n)%nat && (n <=? 90)%nat.

Definition is_lower (c : ascii) : bool :=
  let n := nat_of_ascii c in (97 <=? n)%nat && (n <=? 122)%nat.

Definition lower_char (c : ascii) : ascii :=
  if is_upper c then ascii_of_nat (nat_of_ascii c + 32) else c.

Definition upper_char (c : ascii) : ascii :=
  if is_lower c then ascii_of_nat (nat_of_ascii c - 32) else c.

(** [s.lower()] *)
Fixpoint lower (s : string) : string :=
  match s with
  | "" => ""
  | String c r => String (lower_char c) (lower r)
  end.

(** [s.upper()] *)
Fixpoint upper (s : string) : string :=
  match s with
  | "" => ""
  | String c r => String (upper_char c) (upper r)
  end.

(** [s.title()]: a cased character is upper-cased when it follows an uncased
    one (or starts the string) and lower-cased otherwise. *)
Fixpoint title_go (prev_cased : bool) (s : string) : string :=
  match s with
  | "" => ""
  | String c r =>
      if is_upper c || is_lower c
      then String (if prev_cased then lower_char c else upper_char c)
                  (title_go true r)
      else String c (title_go false r)
  end.

Definition title (s : string) : string := title_go false s.

(** [needle in hay] *)
Fixpoint contains (needle hay : string) : bool :=
  String.prefix needle hay ||
  match hay with
  | "" => false
  | String _ r => contains needle r
  end.

(** [s.startswith(p)] *)
Definition startswith (p s : string) : bool := String.prefix p s.

(** [any(x in s for x in xs)] *)
Definition any_in (xs : list string) (s : string) : bool :=
  existsb (λ x, contains x s) xs.

(** [x in xs] for a list of strings. *)
Definition mem (x : string) (xs : list string) : bool :=
  bool_decide (x ∈ xs).

(** [s.split(", ")] *)
Fixpoint split_comma_go (cur s : string) : list string :=
  match s with
  | "" => [String.rev cur]
  | String c r =>
      match r with
      | String c' r' =>
          if Ascii.eqb c "," && Ascii.eqb c' " "
          then String.rev cur :: split_comma_go "" r'
          else split_comma_go (String c cur) r
      | "" => split_comma_go (String c cur) r
      end
  end.

Definition split_comma (s : string) : list string := split_comma_go "" s.

(** [c.isspace()]: tab, line feed, vertical tab, form feed, carriage
    return (9 to 13), the four separators 28 to 31, the space (32), the next
    line control U+0085 and the no-break space U+00A0. *)
Definition is_space (c : ascii) : bool :=
  let n := nat_of_ascii c in
  ((9 <=? n)%nat && (n <=? 13)%nat) || ((28 <=? n)%nat && (n <=? 32)%nat)
  || (n =? 133)%nat || (n =? 160)%nat.

(** [s.split()]: the maximal runs of characters that are not white space;
    [cur] is the run being read, last character first. *)
Fixpoint split_go (cur s : string) : list string :=
  match s with
  | "" => if truthy cur then [String.rev cur] else []
  | String c r =>
      if is_space c then
        if truthy cur then String.rev cur :: split_go "" r
        else split_go "" r
      else split_go (String c cur) r
  end.

Definition split (s : string) : list string := split_go "" s.

Fixpoint lstrip (s : string) : string :=
  match s with
  | "" => ""
  | String c r => if is_space c then lstrip r else s
  end.

(** [s.strip()] *)
Definition strip (s : string) : string :=
  String.rev (lstrip (String.rev (lstrip s))).

(** Two white-space characters outside ASCII's six, as strings: the
    no-break space U+00A0 and the unit separator U+001F. *)
Definition nbsp : string := String (ascii_of_nat 160) "".
Definition unit_separator : string := String (ascii_of_nat 31) "".

Fixpoint lstrip_char (x : ascii) (s : string) : string :=
  match s with
  | "" => ""
  | String c r => if Ascii.eqb c x then lstrip_char x r else s
  end.

(** [s.rstrip(x)] for a single character [x]. *)
Definition rstrip_char (x : ascii) (s : string) : string :=
  String.rev (lstrip_char x (String.rev s)).

(** [sep.join(l)] *)
Definition join (sep : string) (l : list string) : string :=
  String.concat sep l.

(** [str(n)] for a natural number. *)
Definition str_nat (n : nat) : string :=
  NilEmpty.string_of_uint (Nat.to_uint n).

(** [f"{n:03d}"]: the decimal digits of [n], padded on the left with zeros
    to a width of at least three. *)
Definition fmt03 (n : nat) : string :=
  let d := Nat.to_uint n in
  NilEmpty.string_of_uint (Nat.iter (3 - Decimal.nb_digits d) Decimal.D0 d).

End PyStr.

(** * Insertion-ordered dictionaries *)

Module Dict.

Section dict.
Context {V : Type}.

(** [d.get(k)] *)
Fixpoint get (k : string) (d : list (string * V)) : option V :=
  match d with
  | [] => None
  | (k', v) :: r => if decide (k' = k) then Some v else get k r
  end.

(** [d[k] = v]: an existing key keeps its place, a new key goes last. *)
Fixpoint set (k : string) (v : V) (d : list (string * V)) : list (string * V) :=
  match d with
  | [] => [(k, v)]
  | (k', v') :: r =>
      if decide (k' = k) then (k, v) :: r else (k', v') :: set k v r
  end.

Definition keys (d : list (string * V)) : list string := d.*1.
Definition values (d : list (string * V)) : list V := d.*2.

End dict.

End Dict.

(** * The app map (the dictionaries exchanged by explorer and planner)

    Keys that the code subscripts ([page['type']], [form['id']], ...) are
    plain fields. Keys that the planner reads with [.get(key, default)] and
    whose absence it would observe are options; the explorer always sets
    them. *)

Module AppMapData.

Record Field := {
  field_type : string;
  field_name : string;
  field_id : string;
  field_placeholder : string;
  field_required : bool;
  field_selector : string
}.

Record Form := {
  form_id : string;
  form_selector : string;
  form_action : string;
  form_method : string;
  form_fields : list Field;
  form_submit_text : option string;
  form_submit_selector : string
}.

Record Button := {
  btn_text : string;
  btn_id : string;
  btn_type : string;
  btn_action : string
}.

Record Input := {
  input_type : string;
  input_name : string;
  input_placeholder : string
}.

Record NavLink := { link_text : string; link_href : string }.

Record Modal := { modal_id : string; modal_title : string }.

Record Page := {
  page_url : string;
  page_path : string;
  page_title : string;
  page_type : string;
  page_forms : list Form;
  page_buttons : list Button;
  page_inputs : list Input;
  page_nav_links : list NavLink;
  page_modals : list Modal;
  page_requires_auth : option bool
}.

Record ModuleData := {
  md_name : string;
  md_pages : list Page;
  md_requires_auth : option bool;
  md_page_count : nat
}.

Record AppMap := {
  am_base_url : string;
  am_total_pages : nat;
  am_pages : list Page;
  am_modules : list (string * ModuleData);
  am_auth_pages : list string
}.

End AppMapData.

(** * The planner ([planner.py]) *)

Module Planner.
Import PyStr AppMapData.

Inductive ScenarioType := HAPPY_PATH | ERROR_PATH | EDGE_CASE | SECURITY.

Definition ScenarioType_value (t : ScenarioType) : string :=
  match t with
  | HAPPY_PATH => "happy_path"
  | ERROR_PATH => "error_path"
  | EDGE_CASE => "edge_case"
  | SECURITY => "security"
  end.

Inductive Priority := HIGH | MEDIUM | LOW.

Definition Priority_value (p : Priority) : string :=
  match p with HIGH => "high" | MEDIUM => "medium" | LOW => "low" end.

Record TestStep := {
  action : string;
  target : string;
  value : option string;
  description : string
}.

(** [TestStep(a, t, description=d)] and [TestStep(a, t, v, d)]. *)
Definition step (a t d : string) : TestStep :=
  {| action := a; target := t; value := None; description := d |}.
Definition stepv (a t v d : string) : TestStep :=
  {| action := a; target := t; value := Some v; description := d |}.

Record TestScenario := {
  ts_id : string;
  ts_name : string;
  ts_description : string;
  ts_module : string;
  ts_type : ScenarioType;
  ts_priority : Priority;
  ts_depends_on : option string;
  ts_steps : list TestStep;
  ts_status : string
}.

(** The dictionary built by [TestScenario.to_dict]. *)
Record ScenarioDict := {
  sd_id : string;
  sd_name : string;
  sd_description : string;
  sd_module : string;
  sd_type : string;
  sd_priority : string;
  sd_depends_on : option string;
  sd_steps : list TestStep;
  sd_status : string
}.

Definition to_dict (s : TestScenario) : ScenarioDict :=
  {| sd_id := ts_id s;
     sd_name := ts_name s;
     sd_description := ts_description s;
     sd_module := ts_module s;
     sd_type := ScenarioType_value (ts_type s);
     sd_priority := Priority_value (ts_priority s);
     sd_depends_on := ts_depends_on s;
     sd_steps := ts_steps s;
     sd_status := ts_status s |}.

(** The planner object: [__init__] sets [scenarios = []] and
    [scenario_counter = 0]. *)
Record PlannerAgent := {
  base_url : string;
  modules : list (string * ModuleData);
  scenarios : list TestScenario;
  scenario_counter : nat
}.

Definition init (app_map : AppMap) : PlannerAgent :=
  {| base_url := am_base_url app_map;
     modules := am_modules app_map;
     scenarios := [];
     scenario_counter := 0 |}.

(** [self.scenario_counter += 1; return f"{prefix}_{self.scenario_counter:03d}"] *)
Definition _next_id (prefix : string) (self : PlannerAgent)
  : string * PlannerAgent :=
  let c := S (scenario_counter self) in
  (prefix +:+ "_" +:+ fmt03 c,
   {| base_url := base_url self; modules := modules self;
      scenarios := scenarios self; scenario_counter := c |}).

(** [self.scenarios.append(TestScenario(id=self._next_id(prefix), ...))]:
    [mk] is the rest of the constructor call, waiting for the id. *)
Definition append_scenario (prefix : string) (mk : string → TestScenario)
    (self : PlannerAgent) : PlannerAgent :=
  let '(i, self1) := _next_id prefix self in
  {| base_url := base_url self1; modules := modules self1;
     scenarios := scenarios self1 ++ [mk i];
     scenario_counter := scenario_counter self1 |}.

(** [for x in xs: body(x)] over the planner object. *)
Definition for_each {A} (xs : list A) (body : A → PlannerAgent → PlannerAgent)
    (self : PlannerAgent) : PlannerAgent :=
  foldl (λ s x, body x s) self xs.

(** [TestScenario(...)] with the default [status="pending"]. *)
Definition scenario (nm descr md : string) (ty : ScenarioType) (pr : Priority)
    (dep : option string) (sts : list TestStep) (i : string) : TestScenario :=
  {| ts_id := i; ts_name := nm; ts_description := descr; ts_module := md;
     ts_type := ty; ts_priority := pr; ts_depends_on := dep; ts_steps := sts;
     ts_status := "pending" |}.

Record Selectors := {
  sel_email : option string;
  sel_username : option string;
  sel_password : option string;
  sel_name : option string;
  sel_confirm_password : option string;
  sel_submit : option string
}.

Definition no_selectors : Selectors :=
  {| sel_email := None; sel_username := None; sel_password := None;
     sel_name := None; sel_confirm_password := None; sel_submit := None |}.

(** Truthiness of an optional string ([None] and [''] are falsy). *)
Definition opt_truthy (o : option string) : bool :=
  match o with Some s => truthy s | None => false end.

(** [o or dflt] for an optional string. *)
Definition opt_or (o : option string) (dflt : string) : string :=
  match o with Some s => or_else s dflt | None => dflt end.

(** One iteration of the inner loop of [_get_form_selectors]. *)
Definition select_field (selectors : Selectors) (field : Field) : Selectors :=
  let fname := lower (field_name field) in
  let ftype := lower (field_type field) in
  let selector := field_selector field in
  if negb (truthy selector) then selectors
  else if contains "email" fname || bool_decide (ftype = "email") then
    {| sel_email := Some selector; sel_username := sel_username selectors;
       sel_password := sel_password selectors; sel_name := sel_name selectors;
       sel_confirm_password := sel_confirm_password selectors;
       sel_submit := sel_submit selectors |}
  else if contains "user" fname || contains "login" fname then
    {| sel_email := sel_email selectors; sel_username := Some selector;
       sel_password := sel_password selectors; sel_name := sel_name selectors;
       sel_confirm_password := sel_confirm_password selectors;
       sel_submit := sel_submit selectors |}
  else if contains "pass" fname || bool_decide (ftype = "password") then
    if contains "confirm" fname || contains "repeat" fname then
      {| sel_email := sel_email selectors; sel_username := sel_username selectors;
         sel_password := sel_password selectors; sel_name := sel_name selectors;
         sel_confirm_password := Some selector;
         sel_submit := sel_submit selectors |}
    else if negb (opt_truthy (sel_password selectors)) then
      {| sel_email := sel_email selectors; sel_username := sel_username selectors;
         sel_password := Some selector; sel_name := sel_name selectors;
         sel_confirm_password := sel_confirm_password selectors;
         sel_submit := sel_submit selectors |}
    else selectors
  else if contains "name" fname && negb (contains "user" fname) then
    {| sel_email := sel_email selectors; sel_username := sel_username selectors;
       sel_password := sel_password selectors; sel_name := Some selector;
       sel_confirm_password := sel_confirm_password selectors;
       sel_submit := sel_submit selectors |}
  else selectors.

(** One iteration of the outer loop of [_get_form_selectors]. *)
Definition select_form (selectors : Selectors) (form : Form) : Selectors :=
  let s := foldl select_field selectors (form_fields form) in
  if truthy (form_submit_selector form) then
    {| sel_email := sel_email s; sel_username := sel_username s;
       sel_password := sel_password s; sel_name := sel_name s;
       sel_confirm_password := sel_confirm_password s;
       sel_submit := Some (form_submit_selector form) |}
  else s.

Definition _get_form_selectors (page : Page) : Selectors :=
  foldl select_form no_selectors (page_forms page).

(** ** [_generate_auth_scenarios] *)

Definition auth_page (page : Page) (self : PlannerAgent) : PlannerAgent :=
  let sel := _get_form_selectors page in
  let email_selector :=
    opt_or (sel_email sel) (opt_or (sel_username sel)
      "input[type='email'], input[name='email'], input[name='username'], #Email") in
  let password_selector :=
    opt_or (sel_password sel)
      "input[type='password'], input[name='password'], #Password" in
  let submit_selector :=
    opt_or (sel_submit sel)
      "button[type='submit'], input[type='submit'], .login-button, .btn-login" in
  if bool_decide (page_type page = "login") then
    let self := append_scenario "auth"
      (scenario "Valid Login" "Test login with valid credentials" "auth"
         HAPPY_PATH HIGH None
         [ step "navigate" (page_url page) "Go to login page";
           stepv "fill" email_selector "testuser@example.com" "Enter email/username";
           stepv "fill" password_selector "TestPassword123!" "Enter password";
           step "click" submit_selector "Click login button";
           step "wait" "navigation" "Wait for redirect";
           step "assert" "url_changed" "Verify redirected to dashboard" ]) self in
    let self := append_scenario "auth"
      (scenario "Invalid Password" "Test login with wrong password shows error"
         "auth" ERROR_PATH HIGH None
         [ step "navigate" (page_url page) "Go to login page";
           stepv "fill" email_selector "testuser@example.com" "Enter email";
           stepv "fill" password_selector "wrongpassword" "Enter wrong password";
           step "click" submit_selector "Click login";
           step "assert" "error_message_visible" "Verify error message shown" ]) self in
    let self := append_scenario "auth"
      (scenario "Empty Form Submission" "Test submitting empty login form"
         "auth" EDGE_CASE MEDIUM None
         [ step "navigate" (page_url page) "Go to login page";
           step "click" submit_selector "Click login without filling form";
           step "assert" "validation_error" "Verify validation error shown" ]) self in
    append_scenario "auth"
      (scenario "SQL Injection Test" "Test login form against SQL injection"
         "auth" SECURITY HIGH None
         [ step "navigate" (page_url page) "Go to login page";
           stepv "fill" email_selector "' OR '1'='1" "Enter SQL injection payload";
           stepv "fill" password_selector "' OR '1'='1" "Enter SQL injection in password";
           step "click" submit_selector "Submit";
           step "assert" "no_unauthorized_access" "Verify no unauthorized access" ]) self
  else if bool_decide (page_type page = "register") then
    let name_selector :=
      opt_or (sel_name sel)
        "input[name='name'], input[name='fullname'], input[name='FirstName'], #FirstName" in
    let confirm_pass_selector :=
      opt_or (sel_confirm_password sel)
        "input[name='ConfirmPassword'], input[name='confirm_password'], #ConfirmPassword" in
    append_scenario "auth"
      (scenario "Valid Registration" "Test registration with valid data"
         "auth" HAPPY_PATH HIGH None
         [ step "navigate" (page_url page) "Go to register page";
           stepv "fill" name_selector "Test User" "Enter name";
           stepv "fill" email_selector "newuser@example.com" "Enter email";
           stepv "fill" password_selector "SecurePass123!" "Enter password";
           stepv "fill" confirm_pass_selector "SecurePass123!" "Confirm password";
           step "click" submit_selector "Submit registration";
           step "assert" "success_or_redirect" "Verify registration success" ]) self
  else self.

Definition _generate_auth_scenarios (module_data : ModuleData)
    (self : PlannerAgent) : PlannerAgent :=
  for_each (md_pages module_data) auth_page self.

(** ** [_generate_dashboard_scenarios] *)

(** ["auth_001" if flag else None], where an absent flag reads as [True]. *)
Definition auth_dependency (flag : option bool) : option string :=
  if default true flag then Some "auth_001" else None.

Definition dashboard_button (page : Page) (depends_on : option string)
    (btn : Button) (self : PlannerAgent) : PlannerAgent :=
  if negb (mem (btn_action btn) ["cancel"; "close"]) then
    append_scenario "dash"
      (scenario ("Click " +:+ btn_text btn)
         ("Test clicking '" +:+ btn_text btn +:+ "' button on dashboard")
         "dashboard" HAPPY_PATH MEDIUM depends_on
         [ step "navigate" (page_url page) "Go to dashboard";
           step "click" ("button:has-text('" +:+ btn_text btn +:+ "')")
                ("Click " +:+ btn_text btn);
           step "assert" "action_result" "Verify action completed" ]) self
  else self.

Definition landing_link (page : Page) (link : NavLink)
    (self : PlannerAgent) : PlannerAgent :=
  if truthy (link_text link) then
    append_scenario "dash"
      (scenario ("Navigate to " +:+ link_text link)
         ("Test navigation link '" +:+ link_text link +:+ "'")
         "dashboard" HAPPY_PATH LOW None
         [ step "navigate" (page_url page) "Go to landing page";
           step "click" ("a:has-text('" +:+ link_text link +:+ "')")
                ("Click " +:+ link_text link +:+ " link");
           step "assert" "navigation_success" "Verify navigation works" ]) self
  else self.

Definition dashboard_page (depends_on : option string) (page : Page)
    (self : PlannerAgent) : PlannerAgent :=
  if bool_decide (page_type page = "dashboard") then
    let self := append_scenario "dash"
      (scenario "View Dashboard" "Verify dashboard loads with correct elements"
         "dashboard" HAPPY_PATH HIGH depends_on
         [ step "navigate" (page_url page) "Go to dashboard";
           step "assert" "page_loaded" "Verify page loads";
           step "assert" "key_elements_visible" "Verify dashboard elements visible" ])
      self in
    for_each (page_buttons page) (dashboard_button page depends_on) self
  else if bool_decide (page_type page = "landing") then
    let self := append_scenario "dash"
      (scenario "View Landing Page" "Verify landing page loads correctly"
         "dashboard" HAPPY_PATH HIGH None
         [ step "navigate" (page_url page) "Go to landing page";
           step "assert" "page_loaded" "Verify page loads";
           step "assert" "cta_buttons_visible" "Verify CTA buttons visible" ])
      self in
    for_each (page_nav_links page) (landing_link page) self
  else self.

Definition _generate_dashboard_scenarios (module_data : ModuleData)
    (self : PlannerAgent) : PlannerAgent :=
  let depends_on := auth_dependency (md_requires_auth module_data) in
  for_each (md_pages module_data) (dashboard_page depends_on) self.

(** ** [_generate_profile_scenarios] *)

(** [[TestStep("fill", f"[name='{f['name']}']", v(f), f"Fill {f['name']}")
      for f in fields if f['name']]] *)
Definition fill_steps (v : Field → string) (fields : list Field)
  : list TestStep :=
  (λ f, stepv "fill" ("[name='" +:+ field_name f +:+ "']") (v f)
              ("Fill " +:+ field_name f))
  <$> filter (λ f, truthy (field_name f) = true) fields.

Definition settings_form (page : Page) (depends_on : option string)
    (form : Form) (self : PlannerAgent) : PlannerAgent :=
  append_scenario "profile"
    (scenario ("Update " +:+ form_id form)
       ("Test updating settings via " +:+ form_id form)
       "profile" HAPPY_PATH MEDIUM depends_on
       ([ step "navigate" (page_url page) "Go to settings" ] ++
        fill_steps (λ _, "test_value") (form_fields form) ++
        [ step "click"
            ("#" +:+ form_id form +:+ " button[type='submit'], button:has-text('"
             +:+ default "Save" (form_submit_text form) +:+ "')")
            "Submit form";
          step "assert" "save_success" "Verify save successful" ])) self.

Definition profile_page (page : Page) (self : PlannerAgent) : PlannerAgent :=
  let depends_on := auth_dependency (page_requires_auth page) in
  if bool_decide (page_type page = "settings") then
    let self := append_scenario "profile"
      (scenario "View Settings" "Verify settings page loads"
         "profile" HAPPY_PATH MEDIUM depends_on
         [ step "navigate" (page_url page) "Go to settings";
           step "assert" "page_loaded" "Verify page loads" ]) self in
    for_each (page_forms page) (settings_form page depends_on) self
  else if bool_decide (page_type page = "profile") then
    append_scenario "profile"
      (scenario "View Profile" "Verify profile page loads"
         "profile" HAPPY_PATH MEDIUM depends_on
         [ step "navigate" (page_url page) "Go to profile";
           step "assert" "page_loaded" "Verify page loads";
           step "assert" "user_info_visible" "Verify user info displayed" ]) self
  else self.

Definition _generate_profile_scenarios (module_data : ModuleData)
    (self : PlannerAgent) : PlannerAgent :=
  for_each (md_pages module_data) profile_page self.

(** ** [_generate_crud_scenarios] *)

Definition crud_page (page : Page) (self : PlannerAgent) : PlannerAgent :=
  let depends_on := auth_dependency (page_requires_auth page) in
  if bool_decide (page_type page = "create") then
    let self := append_scenario "crud"
      (scenario "Create New Item" "Test creating a new item"
         "crud" HAPPY_PATH HIGH depends_on
         ([ step "navigate" (page_url page) "Go to create page" ] ++
          fill_steps (λ f, "Test " +:+ field_name f)
            (page_forms page ≫= form_fields) ++
          [ step "click" "button[type='submit']" "Submit form";
            step "assert" "create_success" "Verify item created" ])) self in
    append_scenario "crud"
      (scenario "Create with Empty Form" "Test submitting empty create form"
         "crud" EDGE_CASE MEDIUM depends_on
         [ step "navigate" (page_url page) "Go to create page";
           step "click" "button[type='submit']" "Submit empty form";
           step "assert" "validation_error" "Verify validation errors shown" ]) self
  else if bool_decide (page_type page = "list") then
    append_scenario "crud"
      (scenario "View List" "Test viewing list of items"
         "crud" HAPPY_PATH HIGH depends_on
         [ step "navigate" (page_url page) "Go to list page";
           step "assert" "list_visible" "Verify list is displayed" ]) self
  else if bool_decide (page_type page = "edit") then
    append_scenario "crud"
      (scenario "Edit Item" "Test editing an existing item"
         "crud" HAPPY_PATH HIGH depends_on
         [ step "navigate" (page_url page) "Go to edit page";
           step "assert" "form_prefilled" "Verify form has existing data";
           stepv "fill" "input:first-of-type" "Updated Value" "Modify a field";
           step "click" "button[type='submit']" "Submit changes";
           step "assert" "update_success" "Verify update successful" ]) self
  else self.

Definition _generate_crud_scenarios (module_data : ModuleData)
    (self : PlannerAgent) : PlannerAgent :=
  for_each (md_pages module_data) crud_page self.

(** ** [_generate_general_scenarios] *)

Definition general_form (module_name : string) (page : Page)
    (depends_on : option string) (form : Form) (self : PlannerAgent)
  : PlannerAgent :=
  append_scenario "gen"
    (scenario ("Submit " +:+ form_id form)
       ("Test form submission on " +:+ page_path page)
       module_name HAPPY_PATH MEDIUM depends_on
       ([ step "navigate" (page_url page) "Go to page" ] ++
        fill_steps (λ _, "test") (form_fields form) ++
        [ step "click" "button[type='submit']" "Submit form";
          step "assert" "form_submitted" "Verify form processes" ])) self.

Definition general_page (module_name : string) (page : Page)
    (self : PlannerAgent) : PlannerAgent :=
  let depends_on := auth_dependency (page_requires_auth page) in
  let self := append_scenario "gen"
    (scenario ("View " +:+ or_else (page_title page) (page_path page))
       ("Test loading " +:+ page_url page)
       module_name HAPPY_PATH LOW depends_on
       [ step "navigate" (page_url page) "Navigate to page";
         step "assert" "page_loaded" "Verify page loads without errors" ]) self in
  for_each (page_forms page) (general_form module_name page depends_on) self.

Definition _generate_general_scenarios (module_name : string)
    (module_data : ModuleData) (self : PlannerAgent) : PlannerAgent :=
  for_each (md_pages module_data) (general_page module_name) self.

(** ** [generate_scenarios] *)

(** The body of the loop over [self.modules.items()]. *)
Definition generate_module (entry : string * ModuleData)
    (self : PlannerAgent) : PlannerAgent :=
  let '(module_name, module_data) := entry in
  if bool_decide (module_name = "auth") then
    _generate_auth_scenarios module_data self
  else if bool_decide (module_name = "dashboard") then
    _generate_dashboard_scenarios module_data self
  else if bool_decide (module_name = "profile") then
    _generate_profile_scenarios module_data self
  else if bool_decide (module_name = "crud") then
    _generate_crud_scenarios module_data self
  else _generate_general_scenarios module_name module_data self.

Record PlanModule := {
  pm_name : string;
  pm_requires_auth : bool;
  pm_scenarios : list ScenarioDict
}.

Record Plan := {
  plan_base_url : string;
  total_scenarios : nat;
  plan_modules : list (string * PlanModule)
}.

(** The body of the grouping loop: create the module entry on first sight,
    then append the scenario's dictionary to it. *)
Definition group_scenario (mods : list (string * ModuleData))
    (modules_with_scenarios : list (string * PlanModule))
    (sc : TestScenario) : list (string * PlanModule) :=
  let m := ts_module sc in
  let entry :=
    match Dict.get m modules_with_scenarios with
    | Some e => e
    | None =>
        {| pm_name := title m;
           pm_requires_auth :=
             match Dict.get m mods with
             | Some md => default false (md_requires_auth md)
             | None => false
             end;
           pm_scenarios := [] |}
    end in
  Dict.set m
    {| pm_name := pm_name entry;
       pm_requires_auth := pm_requires_auth entry;
       pm_scenarios := pm_scenarios entry ++ [to_dict sc] |}
    modules_with_scenarios.

(** The planner object after the generation loop. *)
Definition generated (self : PlannerAgent) : PlannerAgent :=
  for_each (modules self) generate_module self.

Definition generate_scenarios (self : PlannerAgent) : Plan :=
  let self := generated self in
  {| plan_base_url := base_url self;
     total_scenarios := length (scenarios self);
     plan_modules := foldl (group_scenario (modules self)) [] (scenarios self) |}.

(** [generate_test_plan(app_map)] *)
Definition generate_test_plan (app_map : AppMap) : Plan :=
  generate_scenarios (init app_map).

(** The scenarios of the plan in emission order. *)
Definition emitted (app_map : AppMap) : list TestScenario :=
  scenarios (generated (init app_map)).

(** ** Vocabulary for the properties of a plan *)

Definition prefixes : list string := ["auth"; "dash"; "profile"; "crud"; "gen"].

(** The prefix under which the scenarios of a module are numbered. *)
Definition prefix_of (module_name : string) : string :=
  if bool_decide (module_name = "auth") then "auth"
  else if bool_decide (module_name = "dashboard") then "dash"
  else if bool_decide (module_name = "profile") then "profile"
  else if bool_decide (module_name = "crud") then "crud"
  else "gen".

(** What [depends_on] can be in a scenario of module [md]: nothing, or the
    literal [auth_001] outside the auth module. *)
Definition dep_ok (md : string) (dep : option string) : Prop :=
  dep = None ∨ dep = Some "auth_001" ∧ md ≠ "auth".

(** What the planner ensures of the scenario it emits at position [k]
    (counted from 0): it is pending; its id is the prefix of its module
    followed by the number [k + 1]; it depends on nothing or on the literal
    [auth_001], and on nothing when it is an auth scenario itself. *)
Definition emitted_ok (k : nat) (s : TestScenario) : Prop :=
  ts_status s = "pending" ∧
  ts_id s = prefix_of (ts_module s) +:+ "_" +:+ fmt03 (S k) ∧
  dep_ok (ts_module s) (ts_depends_on s).

(** The invariant of the planner object. *)
Definition planner_ok (self : PlannerAgent) : Prop :=
  scenario_counter self = length (scenarios self) ∧
  ∀ k s, scenarios self !! k = Some s → emitted_ok k s.

(** The numbering the specification describes: within each prefix family the
    ids are [prefix_001], [prefix_002], ... in emission order. *)
Definition sequential_per_prefix (ids : list string) : Prop :=
  ∀ prefix, prefix ∈ prefixes →
    let family := filter (λ i, startswith (prefix +:+ "_") i = true) ids in
    family = (λ n, prefix +:+ "_" +:+ fmt03 n) <$> seq 1 (length family).

(** The invariant the specification states for [depends_on]: it names a
    scenario of the same plan that was emitted strictly earlier. *)
Definition dependencies_resolved (plan : list TestScenario) : Prop :=
  ∀ k s d, plan !! k = Some s → ts_depends_on s = Some d →
    ∃ j s', j < k ∧ plan !! j = Some s' ∧ ts_id s' = d.

(** The scenarios a plan lists, module after module. *)
Definition listed (mods : list (string * PlanModule)) : list ScenarioDict :=
  Dict.values mods ≫= pm_scenarios.

(** ** Sample app maps *)

Definition sample_page (ty url path : string) (forms : list Form) : Page :=
  {| page_url := url; page_path := path; page_title := "";
     page_type := ty; page_forms := forms; page_buttons := [];
     page_inputs := []; page_nav_links := []; page_modals := [];
     page_requires_auth := None |}.

Definition sample_module (name : string) (pages : list Page) : ModuleData :=
  {| md_name := name; md_pages := pages; md_requires_auth := None;
     md_page_count := length pages |}.

(** A login form with a username field, a password field and a submit
    button. *)
Definition login_form : Form :=
  {| form_id := "login"; form_selector := "#login";
     form_action := ""; form_method := "POST";
     form_fields :=
       [ {| field_type := "text"; field_name := "username";
            field_id := "username"; field_placeholder := "";
            field_required := true;
            field_selector :=
              "#username, input[name='username'], [name='username']" |};
         {| field_type := "password"; field_name := "password";
            field_id := "password"; field_placeholder := "";
            field_required := true;
            field_selector :=
              "#password, input[name='password'], [name='password']" |} ];
     form_submit_text := Some "Sign in";
     form_submit_selector := "#login button[type='submit']" |}.

Definition login_page : Page :=
  sample_page "login" "http://shop.test/login" "/login" [login_form].

Definition dashboard_page_sample : Page :=
  sample_page "dashboard" "http://shop.test/dashboard" "/dashboard" [].

(** One login page and nothing else. *)
Definition login_only : AppMap :=
  {| am_base_url := "http://shop.test"; am_total_pages := 1;
     am_pages := [login_page];
     am_modules := [("auth", sample_module "Auth" [login_page])];
     am_auth_pages := ["http://shop.test/login"] |}.

(** A login page and a dashboard. *)
Definition login_and_dashboard : AppMap :=
  {| am_base_url := "http://shop.test"; am_total_pages := 2;
     am_pages := [login_page; dashboard_page_sample];
     am_modules :=
       [ ("auth", sample_module "Auth" [login_page]);
         ("dashboard", sample_module "Dashboard" [dashboard_page_sample]) ];
     am_auth_pages := ["http://shop.test/login"] |}.

(** A dashboard that was reached without any login page. *)
Definition dashboard_only : AppMap :=
  {| am_base_url := "http://shop.test"; am_total_pages := 1;
     am_pages := [dashboard_page_sample];
     am_modules :=
       [("dashboard", sample_module "Dashboard" [dashboard_page_sample])];
     am_auth_pages := [] |}.

End Planner.

(** * The explorer ([explorer.py]) *)

Module Explorer.
Import PyStr AppMapData.

(** ** What the browser shows

    An element handle offers its attributes, its inner text (the call may
    raise) and its lower-cased tag name. A page is seen through the results of
    the CSS queries the extraction code makes; the link query, made after
    the page has been recorded, may raise on its own ([None]). *)

Record Element := {
  el_attrs : gmap string string;
  el_text : option string;
  el_tag : string
}.

Record FormElement := {
  fe_form : Element;
  fe_inputs : list Element;
  fe_submit : option Element
}.

Record ModalElement := {
  me_modal : Element;
  me_title : option Element
}.

Record Dom := {
  dom_title : string;
  dom_forms : list FormElement;
  dom_buttons : list Element;
  dom_inputs : list Element;
  dom_nav : list Element;
  dom_modals : list ModalElement;
  dom_links : option (list Element)
}.

(** [el.get_attribute(k)] *)
Definition get_attribute (e : Element) (k : string) : option string :=
  el_attrs e !! k.

(** [el.get_attribute(k) or dflt] *)
Definition attr_or (e : Element) (k dflt : string) : string :=
  match get_attribute e k with
  | Some v => or_else v dflt
  | None => dflt
  end.

(** ** [_build_input_selector]

    [None] stands for the [IndexError] of [inp_class.split()[0]] on a class
    attribute made of white space only. *)
Definition _build_input_selector (inp_id inp_name inp_type inp_class : string)
  : option string :=
  let selectors := [] in
  let selectors :=
    if truthy inp_id then selectors ++ ["#" +:+ inp_id] else selectors in
  let selectors :=
    if truthy inp_name
    then (selectors ++ ["input[name='" +:+ inp_name +:+ "']"])
           ++ ["[name='" +:+ inp_name +:+ "']"]
    else selectors in
  selectors ←
    (if truthy inp_type && truthy inp_class then
       first_class ← head (split inp_class);
       Some (selectors ++
             ["input[type='" +:+ inp_type +:+ "']." +:+ first_class])
     else Some selectors);
  let selectors :=
    if truthy inp_type
    then selectors ++ ["input[type='" +:+ inp_type +:+ "']"]
    else selectors in
  Some (match selectors with
        | [] => "input"
        | _ => join ", " (take 3 selectors)
        end).

(** The selector the specification describes for an input with an id, a
    name and a type: [#id], the name selector with and without the tag, then
    [input[type='...']], as a comma-separated preference list. *)
Definition selector_per_spec (inp_id inp_name inp_type : string) : string :=
  join ", "
    [ "#" +:+ inp_id;
      "input[name='" +:+ inp_name +:+ "']";
      "[name='" +:+ inp_name +:+ "']";
      "input[type='" +:+ inp_type +:+ "']" ].

(** ** [_extract_forms] *)

(** The body of the loop over the inputs of a form; [None] when the selector
    construction raises. *)
Definition extract_field (inp : Element) : option (list Field) :=
  let inp_type := attr_or inp "type" "text" in
  let inp_name := attr_or inp "name" "" in
  let inp_id := attr_or inp "id" "" in
  let inp_placeholder := attr_or inp "placeholder" "" in
  let inp_required := bool_decide (is_Some (get_attribute inp "required")) in
  let inp_class := attr_or inp "class" "" in
  if negb (mem inp_type ["hidden"; "submit"]) then
    selector ← _build_input_selector inp_id inp_name inp_type inp_class;
    Some [ {| field_type := inp_type; field_name := inp_name;
              field_id := inp_id; field_placeholder := inp_placeholder;
              field_required := inp_required; field_selector := selector |} ]
  else Some [].

(** The first class holding one of the keywords, as the [for ... break] loop
    finds it. *)
Definition specific_class (classes : list string) : option string :=
  head (filter
          (λ cls, any_in ["submit"; "login"; "register"; "signup"] (lower cls)
                  = true)
          classes).

Definition submit_selector_of (form_selector : string) (submit_btn : Element)
  : option string :=
  let btn_id := attr_or submit_btn "id" "" in
  let btn_class := attr_or submit_btn "class" "" in
  let btn_type := attr_or submit_btn "type" "" in
  let tag := el_tag submit_btn in
  if truthy btn_id then Some ("#" +:+ btn_id)
  else if truthy btn_class then
    let classes := split btn_class in
    match specific_class classes with
    | Some cls => Some (tag +:+ "." +:+ cls)
    | None => c ← head classes; Some (tag +:+ "." +:+ c)
    end
  else if bool_decide (btn_type = "submit") then
    Some (form_selector +:+ " " +:+ tag +:+ "[type='submit']")
  else
    Some (form_selector +:+ " button, " +:+ form_selector
          +:+ " input[type='submit']").

Definition extract_form (i : nat) (fe : FormElement) : option Form :=
  let form := fe_form fe in
  let dflt_id := "form_" +:+ str_nat i in
  let form_id := attr_or form "id" dflt_id in
  let form_action := attr_or form "action" "" in
  let form_method := attr_or form "method" "get" in
  let form_class := attr_or form "class" "" in
  form_selector ←
    (if truthy form_action && truthy (strip form_action) then
       Some ("form[action='" +:+ form_action +:+ "']")
     else if truthy form_id && negb (bool_decide (form_id = dflt_id)) then
       Some ("#" +:+ form_id)
     else if truthy form_class then
       c ← head (split form_class); Some ("form." +:+ c)
     else Some ("form:nth-of-type(" +:+ str_nat (i + 1) +:+ ")"));
  fields ← mapM extract_field (fe_inputs fe);
  '(submit_text, submit_selector) ←
    match fe_submit fe with
    | Some submit_btn =>
        let submit_text :=
          match el_text submit_btn with
          | Some t => t
          | None => attr_or submit_btn "value" "Submit"
          end in
        sel ← submit_selector_of form_selector submit_btn;
        Some (submit_text, sel)
    | None => Some ("", "")
    end;
  Some {| AppMapData.form_id := form_id;
          AppMapData.form_selector := form_selector;
          AppMapData.form_action := form_action;
          AppMapData.form_method := upper form_method;
          form_fields := concat fields;
          form_submit_text :=
            Some (if truthy submit_text then strip submit_text else "Submit");
          form_submit_selector := submit_selector |}.

Definition _extract_forms (dom : Dom) : option (list Form) :=
  mapM (λ '(i, fe), extract_form i fe) (imap pair (dom_forms dom)).

(** ** Buttons, inputs, navigation links, modals and links *)

Definition _determine_button_action (text css_class onclick : string)
  : string :=
  let text_lower := lower text in
  if any_in ["submit"; "save"; "create"; "add"; "post"] text_lower then "submit"
  else if any_in ["delete"; "remove"; "trash"] text_lower then "delete"
  else if any_in ["edit"; "update"; "modify"] text_lower then "edit"
  else if any_in ["cancel"; "close"; "back"] text_lower then "cancel"
  else if any_in ["login"; "sign in"; "signin"] text_lower then "login"
  else if any_in ["logout"; "sign out"; "signout"] text_lower then "logout"
  else if any_in ["search"; "find"] text_lower then "search"
  else if any_in ["download"; "export"] text_lower then "download"
  else if any_in ["upload"; "import"] text_lower then "upload"
  else "click".

Fixpoint extract_buttons_go (seen_texts : list string) (els : list Element)
  : option (list Button) :=
  match els with
  | [] => Some []
  | btn :: els =>
      t ← el_text btn;
      let text := strip t in
      if negb (truthy text) || mem text seen_texts
      then extract_buttons_go seen_texts els
      else
        let btn_id := attr_or btn "id" "" in
        let btn_class := attr_or btn "class" "" in
        let btn_type := attr_or btn "type" "button" in
        let onclick := attr_or btn "onclick" "" in
        let action := _determine_button_action text btn_class onclick in
        rest ← extract_buttons_go (text :: seen_texts) els;
        Some ({| btn_text := text; AppMapData.btn_id := btn_id;
                 AppMapData.btn_type := btn_type; btn_action := action |}
              :: rest)
  end.

Definition _extract_buttons (dom : Dom) : option (list Button) :=
  extract_buttons_go [] (dom_buttons dom).

Definition extract_input (inp : Element) : list Input :=
  let inp_type := attr_or inp "type" "text" in
  if mem inp_type ["hidden"] then []
  else
    [ {| input_type := inp_type;
         input_name := attr_or inp "name" (attr_or inp "id" "");
         input_placeholder := attr_or inp "placeholder" "" |} ].

Definition _extract_inputs (dom : Dom) : list Input :=
  dom_inputs dom ≫= extract_input.

Fixpoint extract_nav_links_go (seen_hrefs : list string) (els : list Element)
  : option (list NavLink) :=
  match els with
  | [] => Some []
  | link :: els =>
      let href := attr_or link "href" "" in
      t ← el_text link;
      let text := strip t in
      if negb (truthy href) || mem href seen_hrefs
         || startswith "#" href || startswith "javascript:" href
      then extract_nav_links_go seen_hrefs els
      else
        rest ← extract_nav_links_go (href :: seen_hrefs) els;
        Some ({| link_text := text; link_href := href |} :: rest)
  end.

Definition _extract_nav_links (dom : Dom) : option (list NavLink) :=
  extract_nav_links_go [] (dom_nav dom).

Definition extract_modal (i : nat) (me : ModalElement) : option Modal :=
  let modal_id := attr_or (me_modal me) "id" ("modal_" +:+ str_nat i) in
  modal_title ←
    match me_title me with
    | Some title_el => t ← el_text title_el; Some (strip t)
    | None => Some ""
    end;
  Some {| AppMapData.modal_id := modal_id;
          AppMapData.modal_title := modal_title |}.

Definition _extract_modals (dom : Dom) : option (list Modal) :=
  mapM (λ '(i, me), extract_modal i me) (imap pair (dom_modals dom)).

Definition extract_link (link : Element) : list string :=
  match get_attribute link "href" with
  | Some href =>
      if truthy href && negb (startswith "#" href)
         && negb (startswith "javascript:" href)
      then [href] else []
  | None => []
  end.

Definition _extract_links (dom : Dom) : option (list string) :=
  link_elements ← dom_links dom; Some (link_elements ≫= extract_link).

(** ** Page classification *)

(** [urlparse(url)], as far as the explorer reads it. *)
Record ParseResult := { netloc : string; path : string }.

Definition _detect_page_type_of_path (path title : string) (forms : list Form)
  : string :=
  let path := lower path in
  let title_lower := lower title in
  if any_in ["/login"; "/signin"; "/sign-in"; "/auth"] path then "login"
  else if any_in ["/register"; "/signup"; "/sign-up"] path then "register"
  else if any_in ["/forgot"; "/reset"; "/password"] path then "password_reset"
  else if any_in ["/dashboard"; "/home"; "/overview"] path then "dashboard"
  else if bool_decide (path = "/") || bool_decide (path = "") then "landing"
  else if any_in ["/settings"; "/preferences"; "/config"] path then "settings"
  else if any_in ["/profile"; "/account"; "/user"] path then "profile"
  else if any_in ["/create"; "/new"; "/add"] path then "create"
  else if any_in ["/edit"; "/update"; "/modify"] path then "edit"
  else if any_in ["/list"; "/all"; "/index"] path then "list"
  else if any_in ["/view"; "/detail"; "/show"] path then "detail"
  else
    let form_fields :=
      forms ≫= (λ form, (λ f, lower (field_name f)) <$> form_fields form) in
    if existsb (λ x, mem x form_fields) ["email"; "password"; "username"] then
      if contains "register" title_lower || contains "sign up" title_lower
      then "register" else "login"
    else "general".

Definition _is_auth_page (page_info : Page) : bool :=
  mem (page_type page_info) ["login"; "register"; "password_reset"].

Definition _requires_auth_of_path (path : string) : bool :=
  let path := lower path in
  let public_paths :=
    ["/login"; "/signin"; "/register"; "/signup"; "/forgot"; "/reset";
     "/about"; "/contact"; "/pricing"] in
  if any_in public_paths path || bool_decide (path = "/") then false
  else
    let auth_paths :=
      ["/dashboard"; "/settings"; "/profile"; "/account"; "/admin";
       "/create"; "/edit"] in
    if any_in auth_paths path then true else false.

(** ** The crawl

    [urlparse] and [urljoin] come from [urllib.parse] and raise [ValueError]
    on some malformed inputs ([None]). [goto] is the web as the browser
    answers it; every URL is requested at most once. *)

Inductive Response :=
  | GotoRaised
  | GotoNone
  | GotoOk (dom : option Dom).

Inductive Result (A : Type) :=
  | OutOfFuel
  | Raises
  | Returns (a : A).
Global Arguments OutOfFuel {A}.
Global Arguments Raises {A}.
Global Arguments Returns {A} a.

Record ExplorerAgent := {
  base_url : string;
  domain : string;
  visited_urls : gset string;
  pages : list Page;
  modules : list (string * ModuleData);
  auth_pages : list string;
  (** the URLs handed to [page.goto], oldest first *)
  goto_log : list string
}.

Section crawl.
Variable urlparse : string → option ParseResult.
Variable urljoin : string → string → option string.
Variable goto : string → Response.

(** [ExplorerAgent(base_url)] *)
Definition new_agent (url : string) : option ExplorerAgent :=
  pr ← urlparse url;
  Some {| base_url := rstrip_char "/" url;
          domain := netloc pr;
          visited_urls := ∅;
          pages := [];
          modules := [];
          auth_pages := [];
          goto_log := [] |}.

Definition _detect_page_type (url title : string) (forms : list Form)
    (buttons : list Button) : option string :=
  pr ← urlparse url; Some (_detect_page_type_of_path (path pr) title forms).

Definition _requires_auth (url title : string) : option bool :=
  pr ← urlparse url; Some (_requires_auth_of_path (path pr)).

Definition _extract_page_info (url : string) (dom : Dom) : option Page :=
  let title := dom_title dom in
  forms ← _extract_forms dom;
  buttons ← _extract_buttons dom;
  let inputs := _extract_inputs dom in
  nav_links ← _extract_nav_links dom;
  modals ← _extract_modals dom;
  ty ← _detect_page_type url title forms buttons;
  pr ← urlparse url;
  requires_auth ← _requires_auth url title;
  Some {| page_url := url;
          page_path := or_else (path pr) "/";
          page_title := title;
          page_type := ty;
          page_forms := forms;
          page_buttons := buttons;
          page_inputs := inputs;
          page_nav_links := nav_links;
          page_modals := modals;
          page_requires_auth := Some requires_auth |}.

Definition mark_visited (url : string) (self : ExplorerAgent)
  : ExplorerAgent :=
  {| base_url := base_url self; domain := domain self;
     visited_urls := {[url]} ∪ visited_urls self;
     pages := pages self; modules := modules self;
     auth_pages := auth_pages self;
     goto_log := goto_log self ++ [url] |}.

Definition record_page (url : string) (page_info : Page)
    (self : ExplorerAgent) : ExplorerAgent :=
  {| base_url := base_url self; domain := domain self;
     visited_urls := visited_urls self;
     pages := pages self ++ [page_info]; modules := modules self;
     auth_pages :=
       if _is_auth_page page_info then auth_pages self ++ [url]
       else auth_pages self;
     goto_log := goto_log self |}.

(** The loop over the links found on the page at [url]; [explore] is the
    recursive call of [_explore_page]. A [ValueError] of [urljoin], or one
    that comes out of the recursive call, ends the loop in the [except] of the
    page being explored. *)
Fixpoint explore_links
    (explore : string → ExplorerAgent → Result ExplorerAgent)
    (url : string) (links : list string) (self : ExplorerAgent)
  : Result ExplorerAgent :=
  match links with
  | [] => Returns self
  | link :: links =>
      match urljoin url link with
      | None => Returns self
      | Some full_url =>
          if bool_decide (full_url ∈ visited_urls self)
          then explore_links explore url links self
          else
            match explore full_url self with
            | OutOfFuel => OutOfFuel
            | Raises => Returns self
            | Returns self => explore_links explore url links self
            end
      end
  end.

(** [_explore_page] and [_explore_page_sync] (the two differ only in
    [await]). The recursion is bounded by [fuel]; [Raises] is the
    [ValueError] of [urlparse(url)], the only statement outside the [try]
    that can raise, and it leaves the object untouched. *)
Fixpoint _explore_page (fuel : nat) (max_pages : Z) (url : string)
    (self : ExplorerAgent) : Result ExplorerAgent :=
  match fuel with
  | 0 => OutOfFuel
  | S fuel =>
      if bool_decide (url ∈ visited_urls self)
         || bool_decide (max_pages ≤ Z.of_nat (size (visited_urls self)))%Z
      then Returns self
      else
        match urlparse url with
        | None => Raises
        | Some pr =>
            if negb (bool_decide (netloc pr = domain self)) then Returns self
            else
              let self := mark_visited url self in
              match goto url with
              | GotoRaised | GotoNone | GotoOk None => Returns self
              | GotoOk (Some dom) =>
                  match _extract_page_info url dom with
                  | None => Returns self
                  | Some page_info =>
                      let self := record_page url page_info self in
                      match _extract_links dom with
                      | None => Returns self
                      | Some links =>
                          explore_links (_explore_page fuel max_pages)
                            url links self
                      end
                  end
              end
        end
  end.

(** The host of a URL, [urlparse(u).netloc]. *)
Definition host (u : string) : option string := netloc <$> urlparse u.

(** What holds of the explorer object throughout a crawl: the visited URLs
    are on the host of the base URL, they are the URLs handed to [page.goto],
    and the recorded pages are on that host too. *)
Record same_host (self : ExplorerAgent) : Prop := {
  visited_host : ∀ u, u ∈ visited_urls self → host u = Some (domain self);
  goto_visited : ∀ u, u ∈ goto_log self ↔ u ∈ visited_urls self;
  pages_host : ∀ p, p ∈ pages self → host (page_url p) = Some (domain self)
}.

(** The number of pages the crawl may still visit. *)
Definition budget (max_pages : Z) (self : ExplorerAgent) : nat :=
  Z.to_nat (max_pages - Z.of_nat (size (visited_urls self))).

(** How a call relates the object it returns to the one it got: it does not
    run out of fuel, keeps the invariant, the domain and the modules, and only
    adds to the visited set. *)
Definition grows (self : ExplorerAgent) (res : Result ExplorerAgent) : Prop :=
  match res with
  | OutOfFuel => False
  | Raises => True
  | Returns self' =>
      same_host self' ∧
      (domain self' = domain self ∧ modules self' = modules self) ∧
      visited_urls self ⊆ visited_urls self'
  end.

Definition module_mapping : list (string * list string) :=
  [ ("auth", ["login"; "register"; "password_reset"]);
    ("dashboard", ["dashboard"; "landing"]);
    ("profile", ["profile"; "settings"]);
    ("crud", ["create"; "edit"; "list"; "detail"]);
    ("general", ["general"]) ].

Definition group_module (all_pages : list Page)
    (mods : list (string * ModuleData)) (entry : string * list string)
  : list (string * ModuleData) :=
  let '(module_name, page_types) := entry in
  let module_pages :=
    filter (λ p, mem (page_type p) page_types = true) all_pages in
  match module_pages with
  | [] => mods
  | _ =>
      Dict.set module_name
        {| md_name := title module_name;
           md_pages := module_pages;
           md_requires_auth :=
             Some (existsb (λ p, default false (page_requires_auth p))
                     module_pages);
           md_page_count := length module_pages |}
        mods
  end.

Definition _group_into_modules (self : ExplorerAgent) : ExplorerAgent :=
  {| base_url := base_url self; domain := domain self;
     visited_urls := visited_urls self;
     pages := pages self;
     modules := foldl (group_module (pages self)) (modules self) module_mapping;
     auth_pages := auth_pages self;
     goto_log := goto_log self |}.

(** The object after the crawl started by [explore]; the depth of the
    recursion never exceeds [max_pages + 1]. *)
Definition crawl (url : string) (max_pages : Z) : Result ExplorerAgent :=
  match new_agent url with
  | None => Raises
  | Some self =>
      _explore_page (S (Z.to_nat max_pages)) max_pages (base_url self) self
  end.

(** [explore] (and [_explore_sync]) *)
Definition explore (url : string) (max_pages : Z) : Result AppMap :=
  match crawl url max_pages with
  | OutOfFuel => OutOfFuel
  | Raises => Raises
  | Returns self =>
      let self := _group_into_modules self in
      Returns {| am_base_url := base_url self;
                 am_total_pages := length (pages self);
                 am_pages := pages self;
                 am_modules := modules self;
                 am_auth_pages := auth_pages self |}
  end.

End crawl.

(** ** A sample web: a site on [host] linking to another host *)

Definition link_to (href : string) : Element :=
  {| el_attrs := {[ "href" := href ]}; el_text := Some href; el_tag := "a" |}.

Definition page_with_links (title : string) (hrefs : list string) : Dom :=
  {| dom_title := title; dom_forms := []; dom_buttons := []; dom_inputs := [];
     dom_nav := []; dom_modals := [];
     dom_links := Some (link_to <$> hrefs) |}.

(** The three URLs of the sample, as absolute links resolve and parse. *)
Definition sample_urlparse (u : string) : option ParseResult :=
  if bool_decide (u = "https://host/") then
    Some {| netloc := "host"; path := "/" |}
  else if bool_decide (u = "https://host") then
    Some {| netloc := "host"; path := "" |}
  else if bool_decide (u = "https://host/a") then
    Some {| netloc := "host"; path := "/a" |}
  else if bool_decide (u = "https://other/b") then
    Some {| netloc := "other"; path := "/b" |}
  else None.

Definition sample_urljoin (base link : string) : option string := Some link.

Definition sample_goto (u : string) : Response :=
  if bool_decide (u = "https://host") then
    GotoOk (Some (page_with_links "Home"
                    ["https://host/a"; "https://other/b"]))
  else if bool_decide (u = "https://host/a") then
    GotoOk (Some (page_with_links "A" ["https://host"]))
  else if bool_decide (u = "https://other/b") then
    GotoOk (Some (page_with_links "B" []))
  else GotoRaised.

End Explorer.

(** * The scenario executor ([execute_scenario], [run_scenarios_task]) *)

Module Executor.
Import PyStr Planner.

(** ** The browser

    [B] is the state of the browser context. A call either returns, raises
    Playwright's [TimeoutError], or raises another exception; in each case the
    browser is left in some state. *)

Inductive Outcome (B A : Type) :=
  | Ok (a : A) (b : B)
  | PwTimeout (msg : string) (b : B)
  | Failure (msg : string) (b : B).
Global Arguments Ok {B A} a b.
Global Arguments PwTimeout {B A} msg b.
Global Arguments Failure {B A} msg b.

Record Driver (B : Type) := {
  (** [context.new_page()] and [page.close()] *)
  new_page : B → B;
  close_page : B → B;
  (** [page.goto(url, wait_until="networkidle", timeout=15000)] *)
  goto : string → B → Outcome B unit;
  (** [page.wait_for_selector(sel, timeout=3000)]: whether an element came
      back *)
  wait_for_selector : string → B → Outcome B bool;
  (** [elem.fill(value)] and [elem.click()] on the element found by [sel] *)
  fill : string → string → B → Outcome B unit;
  click : string → B → Outcome B unit;
  (** [page.wait_for_load_state("networkidle", timeout=10000)] *)
  wait_for_load_state : B → Outcome B unit;
  (** [page.wait_for_timeout(2000)] *)
  wait_for_timeout : B → B;
  (** [page.title()] *)
  page_title : B → Outcome B string;
  (** [page.query_selector(sel)] followed by [elem.is_visible()]: [Some true]
      for a visible element, [Some false] for none or a hidden one, [None]
      when a call raises *)
  visible : string → B → option bool
}.
Global Arguments new_page {B}.
Global Arguments close_page {B}.
Global Arguments goto {B}.
Global Arguments wait_for_selector {B}.
Global Arguments fill {B}.
Global Arguments click {B}.
Global Arguments wait_for_load_state {B}.
Global Arguments wait_for_timeout {B}.
Global Arguments page_title {B}.
Global Arguments visible {B}.

Record ScenarioResult := {
  sr_id : string;
  sr_name : string;
  sr_status : string;
  sr_steps_completed : list string;
  sr_error : option string
}.

(** How the body of the [for step] loop ends: normally, or by an exception
    that one of the two handlers of [execute_scenario] catches. *)
Inductive StepEnd (B : Type) :=
  | Continue (b : B)
  | RaisedTimeout (msg : string) (b : B)
  | RaisedException (msg : string) (b : B).
Global Arguments Continue {B} b.
Global Arguments RaisedTimeout {B} msg b.
Global Arguments RaisedException {B} msg b.

Section executor.
Context {B : Type} (drv : Driver B).

Definition lift (o : Outcome B unit) : StepEnd B :=
  match o with
  | Ok _ b => Continue b
  | PwTimeout msg b => RaisedTimeout msg b
  | Failure msg b => RaisedException msg b
  end.

(** The selector loops of [fill] and [click]: [act] is [elem.fill(value)] or
    [elem.click()]. Every exception is swallowed by the bare [except] and the
    next selector is tried. The result tells whether an element was acted
    upon. *)
Fixpoint try_selectors (act : string → B → Outcome B unit)
    (selectors : list string) (b : B) : bool * B :=
  match selectors with
  | [] => (false, b)
  | selector :: selectors =>
      let sel := strip selector in
      match wait_for_selector drv sel b with
      | Ok true b =>
          match act sel b with
          | Ok _ b => (true, b)
          | PwTimeout _ b | Failure _ b => try_selectors act selectors b
          end
      | Ok false b | PwTimeout _ b | Failure _ b =>
          try_selectors act selectors b
      end
  end.

(** The [found] flag computed for [error_message_visible]. *)
Definition error_selectors : list string :=
  [".error"; ".alert-danger"; "[role='alert']"; ".text-red"; ".text-danger"].

Definition error_message_found (b : B) : bool :=
  existsb (λ sel, bool_decide (visible drv sel b = Some true)) error_selectors.

Definition run_assert (target : string) (b : B) : StepEnd B :=
  if bool_decide (target = "page_loaded") then
    match page_title drv b with
    | Ok t b =>
        if truthy t then Continue b
        else RaisedException "Page did not load" b
    | PwTimeout msg b => RaisedTimeout msg b
    | Failure msg b => RaisedException msg b
    end
  else if bool_decide (target = "url_changed") then Continue b
  else if bool_decide (target = "error_message_visible") then
    let found := error_message_found b in
    Continue b
  else Continue b.

(** One step, up to the [append] of its description. *)
Definition run_step (base_url : string) (st : TestStep) (b : B) : StepEnd B :=
  let action := action st in
  let target := target st in
  let value := value st in
  if bool_decide (action = "navigate") then
    let url := if startswith "http" target then target
               else base_url +:+ target in
    lift (goto drv url b)
  else if bool_decide (action = "fill") then
    let '(filled, b) :=
      try_selectors (λ sel, fill drv sel (opt_or value ""))
        (split_comma target) b in
    if filled then Continue b
    else RaisedException ("Could not find element: " +:+ target) b
  else if bool_decide (action = "click") then
    let '(clicked, b) := try_selectors (click drv) (split_comma target) b in
    if clicked then Continue b
    else RaisedException ("Could not click element: " +:+ target) b
  else if bool_decide (action = "wait") then
    if bool_decide (target = "navigation")
    then lift (wait_for_load_state drv b)
    else Continue (wait_for_timeout drv b)
  else if bool_decide (action = "assert") then run_assert target b
  else Continue b.

(** [scenario_result["steps_completed"].append(d)],
    [scenario_result["status"] = "passed"], and what the two handlers do. *)
Definition completed (d : string) (r : ScenarioResult) : ScenarioResult :=
  {| sr_id := sr_id r; sr_name := sr_name r; sr_status := sr_status r;
     sr_steps_completed := sr_steps_completed r ++ [d];
     sr_error := sr_error r |}.

Definition passed (r : ScenarioResult) : ScenarioResult :=
  {| sr_id := sr_id r; sr_name := sr_name r; sr_status := "passed";
     sr_steps_completed := sr_steps_completed r; sr_error := sr_error r |}.

Definition failed (error : string) (r : ScenarioResult) : ScenarioResult :=
  {| sr_id := sr_id r; sr_name := sr_name r; sr_status := "failed";
     sr_steps_completed := sr_steps_completed r; sr_error := Some error |}.

(** The [try] block of [execute_scenario] with its two handlers: the steps
    run in order; the first exception sets the status to failed and ends the
    scenario. *)
Fixpoint run_steps (base_url : string) (steps : list TestStep)
    (r : ScenarioResult) (b : B) : ScenarioResult * B :=
  match steps with
  | [] => (passed r, b)
  | st :: steps =>
      match run_step base_url st b with
      | Continue b => run_steps base_url steps (completed (description st) r) b
      | RaisedTimeout msg b => (failed ("Timeout: " +:+ msg) r, b)
      | RaisedException msg b => (failed msg r, b)
      end
  end.

Definition execute_scenario (scenario : ScenarioDict) (base_url : string)
    (b : B) : ScenarioResult * B :=
  let scenario_result :=
    {| sr_id := sd_id scenario; sr_name := sd_name scenario;
       sr_status := "running"; sr_steps_completed := []; sr_error := None |} in
  run_steps base_url (sd_steps scenario) scenario_result b.

(** ** [run_scenarios_task] *)

Record Run := {
  run_status : string;
  run_results : gmap string ScenarioResult;
  run_error : option string
}.

(** The scenario run first: the one named by the first truthy [depends_on],
    when the list holds it. *)
Definition find_auth_scenario (scenarios : list ScenarioDict)
  : option ScenarioDict :=
  s ← head (filter (λ s, opt_truthy (sd_depends_on s) = true) scenarios);
  d ← sd_depends_on s;
  head (filter (λ sc, sd_id sc = d) scenarios).

(** The loop over the scenarios; the one already run is passed over. *)
Fixpoint run_each (base_url : string) (auth_id : option string)
    (scenarios : list ScenarioDict) (results : gmap string ScenarioResult)
    (b : B) : gmap string ScenarioResult * B :=
  match scenarios with
  | [] => (results, b)
  | scenario :: scenarios =>
      if bool_decide (Some (sd_id scenario) = auth_id)
      then run_each base_url auth_id scenarios results b
      else
        let b := new_page drv b in
        let '(result, b) := execute_scenario scenario base_url b in
        let results := <[sd_id scenario := result]> results in
        let b := close_page drv b in
        run_each base_url auth_id scenarios results b
  end.

(** [launch] is the browser context after [chromium.launch] and
    [new_context], or the text of the exception they raised. *)
Definition run_scenarios_task (launch : B + string) (base_url : string)
    (scenarios : list ScenarioDict) : Run :=
  match launch with
  | inr e =>
      {| run_status := "failed"; run_results := ∅; run_error := Some e |}
  | inl b =>
      let auth_scenario := find_auth_scenario scenarios in
      let '(results, b) :=
        match auth_scenario with
        | Some auth =>
            let b := new_page drv b in
            let '(result, b) := execute_scenario auth base_url b in
            (<[sd_id auth := result]> ∅, b)
        | None => (∅, b)
        end in
      let '(results, b) :=
        run_each base_url (sd_id <$> auth_scenario) scenarios results b in
      {| run_status := "completed"; run_results := results;
         run_error := None |}
  end.

(** The results of a run come from executing scenarios of the run. *)
Definition executed (base_url : string) (scenarios : list ScenarioDict)
    (results : gmap string ScenarioResult) : Prop :=
  ∀ id r, results !! id = Some r →
    ∃ scenario b, scenario ∈ scenarios ∧ sd_id scenario = id ∧
                  r = (execute_scenario scenario base_url b).1.

End executor.

(** ** Sample inputs *)

(** A browser stuck on a blank page: navigation succeeds, no selector ever
    resolves, the page has no title and shows no element. *)
Definition blank_driver : Driver unit :=
  {| new_page := λ b, b;
     close_page := λ b, b;
     goto := λ _ b, Ok () b;
     wait_for_selector := λ _ b, PwTimeout "Timeout 3000ms exceeded." b;
     fill := λ _ _ b, Ok () b;
     click := λ _ b, Ok () b;
     wait_for_load_state := λ b, Ok () b;
     wait_for_timeout := λ b, b;
     page_title := λ b, Ok "" b;
     visible := λ _ _, Some false |}.

(** A scenario that only asserts: no error message is on the page, and the
    second predicate is one the executor does not know. *)
Definition asserting_scenario : ScenarioDict :=
  {| sd_id := "auth_002"; sd_name := "Invalid Password";
     sd_description := "Test login with wrong password shows error";
     sd_module := "auth"; sd_type := "error_path"; sd_priority := "high";
     sd_depends_on := None;
     sd_steps :=
       [ step "assert" "error_message_visible" "Verify error message shown";
         step "assert" "validation_error" "Verify validation error shown" ];
     sd_status := "pending" |}.

(** A login scenario that fails on the blank page, and a scenario that
    depends on it. *)
Definition failing_login : ScenarioDict :=
  {| sd_id := "auth_001"; sd_name := "Valid Login";
     sd_description := "Test login with valid credentials";
     sd_module := "auth"; sd_type := "happy_path"; sd_priority := "high";
     sd_depends_on := None;
     sd_steps :=
       [ step "navigate" "/login" "Go to login page";
         step "assert" "page_loaded" "Verify page loads" ];
     sd_status := "pending" |}.


End Executor.

(** * The batch executor and the stage graph (TestSprite) *)

Module Sprite.
Import PyStr.

(** ** [testsprite_generate_code_and_execute] *)

(** A scenario of a plan file, as far as the executor reads it. *)
Record Scenario := {
  sc_id : option string;
  sc_name : option string;
  sc_endpoint : option string;
  sc_method : option string
}.

(** How [subprocess.run] on a generated test ends. *)
Inductive Subprocess :=
  | Exited (stdout : string)
  | TimeoutExpired
  | OtherError (e : string).

Record Output := {
  exit_code : Z;
  out_stdout : string;
  out_stderr : string;
  tests_executed : nat;
  out_passed : nat;
  out_failed : nat;
  out_results : gmap string string
}.

Definition nl : string := String (ascii_of_nat 10) "".

(** [scenario.get("id", f"test_{i}")] and [scenario.get("name", ...)] *)
Definition test_id (i : nat) (scenario : Scenario) : string :=
  default ("test_" +:+ str_nat i) (sc_id scenario).
Definition test_name (scenario : Scenario) : string :=
  default "Unknown Test" (sc_name scenario).

(** Whether the test is generated in API mode (no browser). *)
Definition api_mode (scenario : Scenario) : bool :=
  let has_endpoint :=
    Planner.opt_truthy (sc_endpoint scenario)
    && negb (any_in ["login"; "form"; "ui"; "click"; "fill"]
               (lower (test_name scenario))) in
  has_endpoint
  && match sc_method scenario with
     | Some m => mem m ["GET"; "POST"; "PUT"; "DELETE"; "PATCH"]
     | None => false
     end.

(** The result read off the output of a test. *)
Definition result_of_stdout (stdout : string) : string :=
  if contains "[PASSED]" stdout then "passed"
  else if contains "[FAILED]" stdout then "failed"
  else if contains "[SKIPPED]" stdout then "skipped"
  else "passed".

Section execute.
(** [run_test api i scenario]: the end of the subprocess started for the
    [i]-th scenario, generated in API or UI mode. *)
Variable run_test : bool → nat → Scenario → Subprocess.

(** The body of the loop over [enumerate(all_scenarios)]. *)
Definition execute_one (acc : list string * gmap string string)
    (entry : nat * Scenario) : list string * gmap string string :=
  let '(all_stdout, all_results) := acc in
  let '(i, scenario) := entry in
  let tid := test_id i scenario in
  let header := nl +:+ "--- " +:+ tid +:+ ": " +:+ test_name scenario
                +:+ " ---" +:+ nl in
  match run_test (api_mode scenario) i scenario with
  | Exited stdout =>
      (all_stdout ++ [header +:+ stdout],
       <[tid := result_of_stdout stdout]> all_results)
  | TimeoutExpired =>
      (all_stdout ++ [header +:+ "[TIMEOUT] Test exceeded time limit"],
       <[tid := "failed"]> all_results)
  | OtherError e =>
      (all_stdout ++ [header +:+ "[ERROR] " +:+ e],
       <[tid := "failed"]> all_results)
  end.

(** The status that one round of the loop stores under the test id. *)
Definition outcome_status (entry : nat * Scenario) : string :=
  match run_test (api_mode entry.2) entry.1 entry.2 with
  | Exited stdout => result_of_stdout stdout
  | TimeoutExpired | OtherError _ => "failed"
  end.

(** *** Vocabulary for the outcome of a batch *)

(** The test of the [i]-th scenario failed: it ran out of time, it could not
    be run, or its output holds [[FAILED]] and no [[PASSED]]. *)
Definition scenario_failed (i : nat) (scenario : Scenario) : Prop :=
  match run_test (api_mode scenario) i scenario with
  | Exited stdout =>
      contains "[PASSED]" stdout = false ∧ contains "[FAILED]" stdout = true
  | TimeoutExpired | OtherError _ => True
  end.

(** The scenario at position [i] is the last one of the batch that runs
    under its test id. *)
Definition last_with_id (all_scenarios : list Scenario) (i : nat)
    (scenario : Scenario) : Prop :=
  all_scenarios !! i = Some scenario ∧
  ∀ j later, i < j → all_scenarios !! j = Some later →
    test_id j later ≠ test_id i scenario.

(** [sum(1 for r in all_results.values() if r == status)] *)
Definition count_status (status : string) (all_results : gmap string string)
  : nat :=
  size (filter (λ kv, kv.2 = status) all_results).

(** [s[-n:]] for [n > 0] *)
Definition last_chars (n : nat) (s : string) : string :=
  String.substring (String.length s - n) n s.

Definition testsprite_generate_code_and_execute
    (all_scenarios : list Scenario) : Output :=
  let '(all_stdout, all_results) :=
    foldl execute_one ([], ∅) (imap pair all_scenarios) in
  let passed := count_status "passed" all_results in
  let failed := count_status "failed" all_results in
  {| exit_code := if bool_decide (failed = 0) then 0 else 1;
     out_stdout := last_chars 3000 (join nl all_stdout);
     out_stderr := "";
     tests_executed := length all_scenarios;
     out_passed := passed;
     out_failed := failed;
     out_results := all_results |}.

End execute.

(** A batch from two plan files that number their scenarios alike: the
    scenario of the backend plan fails, the one of the frontend plan passes
    under the same test id. *)
Definition shared_id_batch : list Scenario :=
  [ {| sc_id := Some "TC001"; sc_name := Some "Orders are listed";
       sc_endpoint := Some "/api/orders"; sc_method := Some "GET" |};
    {| sc_id := Some "TC001"; sc_name := Some "Home page opens";
       sc_endpoint := None; sc_method := None |} ].

Definition shared_id_tests (api : bool) (i : nat) (scenario : Scenario)
  : Subprocess :=
  match i with
  | 0 => Exited "[FAILED] TC001: status 500"
  | _ => Exited "[PASSED] TC001"
  end.

(** ** The stage graph ([state.py], [nodes.py], [orchestrator.py]) *)

(** A call of a tool either returns or raises. *)
Inductive ToolResult (A : Type) :=
  | Returned (a : A)
  | Raised (e : string).
Global Arguments Returned {A} a.
Global Arguments Raised {A} e.

(** [TestingState]. JSON documents that the graph only passes on are kept as
    text. The same record describes what a node returns: a scalar is written
    when it is set, a list is what the node adds. *)
Record TestingState := {
  project_path : option string;
  target_url : option string;
  project_type : option string;
  bootstrap_result : option string;
  code_summary : option string;
  prd : option string;
  frontend_plan : option string;
  backend_plan : option string;
  test_results : option Output;
  report_path : option string;
  error_log : list string;
  steps_completed : list string;
  retries : option nat;
  max_retries : option nat
}.

Definition no_update : TestingState :=
  {| project_path := None; target_url := None; project_type := None;
     bootstrap_result := None; code_summary := None; prd := None;
     frontend_plan := None; backend_plan := None; test_results := None;
     report_path := None; error_log := []; steps_completed := [];
     retries := None; max_retries := None |}.

(** [{"error_log": [msg]}] and [{"steps_completed": [name]}] *)
Definition log_error (msg : string) (d : TestingState) : TestingState :=
  {| project_path := project_path d; target_url := target_url d;
     project_type := project_type d; bootstrap_result := bootstrap_result d;
     code_summary := code_summary d; prd := prd d;
     frontend_plan := frontend_plan d; backend_plan := backend_plan d;
     test_results := test_results d; report_path := report_path d;
     error_log := error_log d ++ [msg]; steps_completed := steps_completed d;
     retries := retries d; max_retries := max_retries d |}.

Definition completed_step (name : string) (d : TestingState) : TestingState :=
  {| project_path := project_path d; target_url := target_url d;
     project_type := project_type d; bootstrap_result := bootstrap_result d;
     code_summary := code_summary d; prd := prd d;
     frontend_plan := frontend_plan d; backend_plan := backend_plan d;
     test_results := test_results d; report_path := report_path d;
     error_log := error_log d; steps_completed := steps_completed d ++ [name];
     retries := retries d; max_retries := max_retries d |}.

(** The reducer of the graph: a scalar channel takes the last value written,
    [error_log] and [steps_completed] are joined with [operator.add]. *)
Definition last_writer {A} (old new : option A) : option A :=
  match new with Some _ => new | None => old end.

Definition merge (st d : TestingState) : TestingState :=
  {| project_path := last_writer (project_path st) (project_path d);
     target_url := last_writer (target_url st) (target_url d);
     project_type := last_writer (project_type st) (project_type d);
     bootstrap_result := last_writer (bootstrap_result st) (bootstrap_result d);
     code_summary := last_writer (code_summary st) (code_summary d);
     prd := last_writer (prd st) (prd d);
     frontend_plan := last_writer (frontend_plan st) (frontend_plan d);
     backend_plan := last_writer (backend_plan st) (backend_plan d);
     test_results := last_writer (test_results st) (test_results d);
     report_path := last_writer (report_path st) (report_path d);
     error_log := error_log st ++ error_log d;
     steps_completed := steps_completed st ++ steps_completed d;
     retries := last_writer (retries st) (retries d);
     max_retries := last_writer (max_retries st) (max_retries d) |}.

(** *** The nodes; each takes the end of the tool call it makes *)

Definition bootstrap_node (call : ToolResult string) (state : TestingState)
  : TestingState :=
  match call with
  | Returned result =>
      completed_step "bootstrap"
        {| project_path := None; target_url := None; project_type := None;
           bootstrap_result := Some result; code_summary := None; prd := None;
           frontend_plan := None; backend_plan := None; test_results := None;
           report_path := None; error_log := []; steps_completed := [];
           retries := None; max_retries := None |}
  | Raised e => log_error ("Bootstrap failed: " +:+ e) no_update
  end.

(** The tool result comes with its [tech_stack.framework] entry. *)
Definition analyze_code_node (call : ToolResult (string * option string))
    (state : TestingState) : TestingState :=
  match call with
  | Returned (result, framework) =>
      completed_step "analyze"
        {| project_path := None; target_url := None;
           project_type := Some (default "Unknown" framework);
           bootstrap_result := None; code_summary := Some result; prd := None;
           frontend_plan := None; backend_plan := None; test_results := None;
           report_path := None; error_log := []; steps_completed := [];
           retries := None; max_retries := None |}
  | Raised e => log_error ("Analysis failed: " +:+ e) no_update
  end.

Definition generate_prd_node (call : ToolResult string) (state : TestingState)
  : TestingState :=
  match call with
  | Returned result =>
      completed_step "prd"
        {| project_path := None; target_url := None; project_type := None;
           bootstrap_result := None; code_summary := None; prd := Some result;
           frontend_plan := None; backend_plan := None; test_results := None;
           report_path := None; error_log := []; steps_completed := [];
           retries := None; max_retries := None |}
  | Raised e => log_error ("PRD generation failed: " +:+ e) no_update
  end.

Definition frontend_plan_node (call : ToolResult string)
    (state : TestingState) : TestingState :=
  match call with
  | Returned result =>
      completed_step "frontend_plan"
        {| project_path := None; target_url := None; project_type := None;
           bootstrap_result := None; code_summary := None; prd := None;
           frontend_plan := Some result; backend_plan := None;
           test_results := None; report_path := None; error_log := [];
           steps_completed := []; retries := None; max_retries := None |}
  | Raised e => log_error ("Frontend planning failed: " +:+ e) no_update
  end.

Definition backend_plan_node (call : ToolResult string)
    (state : TestingState) : TestingState :=
  match call with
  | Returned result =>
      completed_step "backend_plan"
        {| project_path := None; target_url := None; project_type := None;
           bootstrap_result := None; code_summary := None; prd := None;
           frontend_plan := None; backend_plan := Some result;
           test_results := None; report_path := None; error_log := [];
           steps_completed := []; retries := None; max_retries := None |}
  | Raised e => log_error ("Backend planning failed: " +:+ e) no_update
  end.

(** [security_plan] is not a key of [TestingState]: only the step name is
    kept of what the node returns. *)
Definition security_plan_node (call : ToolResult string)
    (state : TestingState) : TestingState :=
  match call with
  | Returned result => completed_step "security_plan" no_update
  | Raised e => log_error ("Security planning failed: " +:+ e) no_update
  end.

Definition execute_tests_node (call : ToolResult Output)
    (state : TestingState) : TestingState :=
  match call with
  | Returned result =>
      completed_step "execute"
        {| project_path := None; target_url := None; project_type := None;
           bootstrap_result := None; code_summary := None; prd := None;
           frontend_plan := None; backend_plan := None;
           test_results := Some result; report_path := None; error_log := [];
           steps_completed := []; retries := None; max_retries := None |}
  | Raised e => log_error ("Execution failed: " +:+ e) no_update
  end.

Definition report_node (call : ToolResult string) (state : TestingState)
  : TestingState :=
  match call with
  | Returned html_path =>
      completed_step "report"
        {| project_path := None; target_url := None; project_type := None;
           bootstrap_result := None; code_summary := None; prd := None;
           frontend_plan := None; backend_plan := None; test_results := None;
           report_path := Some html_path; error_log := [];
           steps_completed := []; retries := None; max_retries := None |}
  | Raised e => log_error ("Report generation failed: " +:+ e) no_update
  end.

(** What [testsprite_fix_test_code] returns (as JSON). *)
Record FixResult := { fix_success : bool; fix_error : option string }.

(** [testsprite_fix_test_code]: [file_exists] is [test_file.exists()], [llm]
    the end of reading the file, asking the model and writing the answer
    back. The function catches what that raises. *)
Definition testsprite_fix_test_code (file_exists : bool)
    (llm : ToolResult string) : FixResult :=
  if negb file_exists then
    {| fix_success := false; fix_error := Some "Test file not found" |}
  else
    match llm with
    | Returned fixed_code => {| fix_success := true; fix_error := None |}
    | Raised e => {| fix_success := false; fix_error := Some e |}
    end.

(** [state.get("retries", 0)], [state.get("max_retries", 3)] and
    [state.get("test_results", {}).get("exit_code", 0)] *)
Definition get_retries (state : TestingState) : nat :=
  default 0 (retries state).
Definition get_max_retries (state : TestingState) : nat :=
  default 3 (max_retries state).
Definition get_exit_code (state : TestingState) : Z :=
  match test_results state with
  | Some results => exit_code results
  | None => 0
  end.

Definition with_retries (n : nat) (d : TestingState) : TestingState :=
  {| project_path := project_path d; target_url := target_url d;
     project_type := project_type d; bootstrap_result := bootstrap_result d;
     code_summary := code_summary d; prd := prd d;
     frontend_plan := frontend_plan d; backend_plan := backend_plan d;
     test_results := test_results d; report_path := report_path d;
     error_log := error_log d; steps_completed := steps_completed d;
     retries := Some n; max_retries := max_retries d |}.

Definition fix_tests_node (call : ToolResult FixResult)
    (state : TestingState) : TestingState :=
  match call with
  | Returned result =>
      if fix_success result then
        with_retries (get_retries state + 1)
          (completed_step "fix_tests" no_update)
      else
        with_retries (get_retries state + 1)
          (log_error ("Fix failed: " +:+ default "None" (fix_error result))
             no_update)
  | Raised e => log_error ("Fix node failed: " +:+ e) no_update
  end.

(** [should_fix], the decision taken after [execute]. *)
Definition should_fix (state : TestingState) : string :=
  let exit_code := get_exit_code state in
  let retries := get_retries state in
  let max_retries := get_max_retries state in
  if negb (bool_decide (exit_code = 0%Z)) && bool_decide (retries < max_retries)
  then "fix_tests"
  else "report".

(** *** The compiled graph and its run

    The world around a run: how each tool call ends. The tools of [execute]
    and [fix_tests] are called once per round of the loop; the argument is the
    number of earlier calls. *)
Record Env := {
  bootstrap_tool : ToolResult string;
  analyze_tool : ToolResult (string * option string);
  prd_tool : ToolResult string;
  frontend_plan_tool : ToolResult string;
  backend_plan_tool : ToolResult string;
  security_plan_tool : ToolResult string;
  (** the scenarios of the plan files and the behaviour of the generated
      tests, or the exception of the executor itself *)
  execute_tool :
    nat → ToolResult (list Scenario * (bool → nat → Scenario → Subprocess));
  fix_file_exists : nat → bool;
  fix_llm : nat → ToolResult string;
  report_tool : ToolResult string
}.

Inductive Node :=
  | Bootstrap | Analyze | Prd | Plans | JoinPlans | Execute | FixTests | Report.

(** The names under which a step of the graph is streamed; the three plan
    nodes run in one step, which the runtime goes through in the order of
    their names. *)
Definition node_names (n : Node) : list string :=
  match n with
  | Bootstrap => ["bootstrap"]
  | Analyze => ["analyze"]
  | Prd => ["prd"]
  | Plans => ["backend_plan"; "frontend_plan"; "security_plan"]
  | JoinPlans => ["join_plans"]
  | Execute => ["execute"]
  | FixTests => ["fix_tests"]
  | Report => ["report"]
  end.

(** How often a node has been streamed so far. *)
Definition invocations (name : string) (steps : list string) : nat :=
  length (filter (λ s, s = name) steps).

(** The update a step of the graph makes; [steps] are the names streamed
    before it. *)
Definition node_update (env : Env) (n : Node) (steps : list string)
    (state : TestingState) : TestingState :=
  match n with
  | Bootstrap => bootstrap_node (bootstrap_tool env) state
  | Analyze => analyze_code_node (analyze_tool env) state
  | Prd => generate_prd_node (prd_tool env) state
  | Plans =>
      merge (merge (backend_plan_node (backend_plan_tool env) state)
                   (frontend_plan_node (frontend_plan_tool env) state))
            (security_plan_node (security_plan_tool env) state)
  | JoinPlans => state  (* [lambda x: x] *)
  | Execute =>
      execute_tests_node
        match execute_tool env (invocations "execute" steps) with
        | Returned (all_scenarios, run_test) =>
            Returned (testsprite_generate_code_and_execute run_test
                        all_scenarios)
        | Raised e => Raised e
        end
        state
  | FixTests =>
      let k := invocations "fix_tests" steps in
      fix_tests_node
        (Returned (testsprite_fix_test_code (fix_file_exists env k)
                     (fix_llm env k)))
        state
  | Report => report_node (report_tool env) state
  end.

(** The edges; [None] is [END]. *)
Definition next_node (n : Node) (state : TestingState) : option Node :=
  match n with
  | Bootstrap => Some Analyze
  | Analyze => Some Prd
  | Prd => Some Plans
  | Plans => Some JoinPlans
  | JoinPlans => Some Execute
  | Execute =>
      if bool_decide (should_fix state = "fix_tests") then Some FixTests
      else Some Report
  | FixTests => Some Execute
  | Report => None
  end.

(** What [run_agent_task] keeps of a run in [RUNS]. *)
Record RunRecord := {
  run_status : string;
  run_steps : list string;
  run_results : option Output;
  run_report_path : option string;
  run_error : option string
}.

(** The loop over the streamed events: the names are appended to
    [RUNS[run_id]["steps"]], and the results and the report path are copied
    from the update. *)
Definition on_event (n : Node) (update : TestingState) (r : RunRecord)
  : RunRecord :=
  {| run_status := run_status r;
     run_steps := run_steps r ++ node_names n;
     run_results := last_writer (run_results r) (test_results update);
     run_report_path := last_writer (run_report_path r) (report_path update);
     run_error := run_error r |}.

(** The stream of the compiled graph, consumed by [run_agent_task]. The graph
    runtime streams the events of at most [limit] steps and raises its
    recursion error unless the run has ended in fewer: a run of [n] steps
    comes to its end under a limit above [n], and with the limit used up by
    the last node the events of all nodes have been streamed and the error is
    raised all the same. *)
Fixpoint stream (env : Env) (limit : nat) (n : Node) (state : TestingState)
    (r : RunRecord) : bool * TestingState * RunRecord :=
  match limit with
  | 0 => (false, state, r)
  | S limit =>
      let update := node_update env n (run_steps r) state in
      let state := merge state update in
      let r := on_event n update r in
      match next_node n state with
      | None => (negb (Nat.eqb limit 0), state, r)
      | Some n => stream env limit n state r
      end
  end.

Definition initial_state (fs_project_path : string) (url : string)
  : TestingState :=
  {| project_path := Some fs_project_path;
     target_url := if truthy url then Some url else None;
     project_type := None; bootstrap_result := None; code_summary := None;
     prd := None; frontend_plan := None; backend_plan := None;
     test_results := None; report_path := None; error_log := [];
     steps_completed := []; retries := None; max_retries := None |}.

(** [run_agent_task]: the final state of the graph and the record of the
    run. *)
Definition run_agent_task (env : Env) (recursion_limit : nat)
    (fs_project_path url : string) : TestingState * RunRecord :=
  let r := {| run_status := "running"; run_steps := []; run_results := None;
              run_report_path := None; run_error := None |} in
  let '(finished, state, r) :=
    stream env recursion_limit Bootstrap (initial_state fs_project_path url) r in
  (state,
   {| run_status := if finished then "completed" else "failed";
      run_steps := run_steps r;
      run_results := run_results r;
      run_report_path := run_report_path r;
      run_error :=
        if finished then None else Some "Recursion limit reached" |}).

(** *** Vocabulary and a sample run for the retry loop *)

(** Every call of the execute tool returns a batch whose composite exit code
    is not zero. *)
Definition always_failing (env : Env) : Prop :=
  ∀ k, ∃ all_scenarios run_test,
    execute_tool env k = Returned (all_scenarios, run_test) ∧
    exit_code (testsprite_generate_code_and_execute run_test all_scenarios)
      ≠ 0%Z.

(** A run against one scenario whose test always prints a failure (no
    selector resolves), without a generated test file to fix. *)
Definition stuck_scenario : Scenario :=
  {| sc_id := Some "TC001"; sc_name := Some "Login form";
     sc_endpoint := None; sc_method := None |}.

Definition stuck_env : Env :=
  {| bootstrap_tool := Returned "{}";
     analyze_tool := Returned ("{}", None);
     prd_tool := Returned "{}";
     frontend_plan_tool := Returned "{}";
     backend_plan_tool := Returned "{}";
     security_plan_tool := Returned "{}";
     execute_tool := λ _,
       Returned ([stuck_scenario],
                 λ _ _ _, Exited "[FAILED] TC001: Could not find element");
     fix_file_exists := λ _, false;
     fix_llm := λ _, Raised "unavailable";
     report_tool := Returned "report.html" |}.

End Sprite.
(** * Bookkeeping of the explorer

    Vocabulary for what [explorer.py] keeps of its own state during a crawl
    and for the shape of the page records it builds. *)

Module ExplorerInv.
Import PyStr AppMapData Explorer.

(** The page types [_detect_page_type] can return. *)
Definition page_types : list string :=
  [ "login"; "register"; "password_reset"; "dashboard"; "landing";
    "settings"; "profile"; "create"; "edit"; "list"; "detail"; "general" ].

(** The actions [_determine_button_action] can return. *)
Definition button_actions : list string :=
  [ "submit"; "delete"; "edit"; "cancel"; "login"; "logout"; "search";
    "download"; "upload"; "click" ].

(** The bookkeeping of a crawl with page bound [max_pages]: the visited set
    holds the requested URLs, no URL is requested twice, the bound is kept,
    pages are recorded in the order of their requests, and the list of
    authentication pages holds the URLs of the recorded pages of an
    authentication type. *)
Record crawl_inv (max_pages : Z) (self : ExplorerAgent) : Prop := {
  inv_visited : visited_urls self = list_to_set (goto_log self);
  inv_log : NoDup (goto_log self);
  inv_bound : (Z.of_nat (length (goto_log self)) ≤ Z.max 0 max_pages)%Z;
  inv_pages : page_url <$> pages self `sublist_of` goto_log self;
  inv_auth :
    auth_pages self
    = page_url <$> filter (λ p, _is_auth_page p = true) (pages self)
}.

(** A field record as [_extract_forms] builds it: never a hidden or a submit
    input, with a type and a selector, the selector starting with the id
    when there is one. *)
Definition field_ok (f : Field) : Prop :=
  (field_type f ∉ ["hidden"; "submit"]) ∧ field_type f ≠ "" ∧
  field_selector f ≠ "" ∧
  (field_id f ≠ "" → startswith ("#" +:+ field_id f) (field_selector f) = true).

Definition form_ok (f : Form) : Prop :=
  form_id f ≠ "" ∧ form_selector f ≠ "" ∧ is_Some (form_submit_text f) ∧
  Forall field_ok (form_fields f).

(** An href that [_extract_nav_links] and [_extract_links] keep. *)
Definition nav_href_ok (href : string) : Prop :=
  href ≠ "" ∧ startswith "#" href = false ∧
  startswith "javascript:" href = false.

(** A page record as [_extract_page_info] builds it. *)
Record page_ok (p : Page) : Prop := {
  ok_type : page_type p ∈ page_types;
  ok_path : page_path p ≠ "";
  ok_requires_auth : is_Some (page_requires_auth p);
  ok_forms : Forall form_ok (page_forms p);
  ok_buttons :
    NoDup (btn_text <$> page_buttons p) ∧
    Forall (λ b, btn_text b ≠ "" ∧ btn_action b ∈ button_actions)
      (page_buttons p);
  ok_inputs : Forall (λ i, input_type i ≠ "hidden" ∧ input_type i ≠ "")
                (page_inputs p);
  ok_nav_links :
    NoDup (link_href <$> page_nav_links p) ∧
    Forall (λ l, nav_href_ok (link_href l)) (page_nav_links p)
}.

(** The entry of [app_map['modules']] that [_group_into_modules] builds from
    one line of its mapping: none when no page has one of the types. *)
Definition module_entry (all_pages : list Page) (entry : string * list string)
  : option (string * ModuleData) :=
  let module_pages :=
    filter (λ p, mem (page_type p) entry.2 = true) all_pages in
  match module_pages with
  | [] => None
  | _ =>
      Some (entry.1,
            {| md_name := title entry.1;
               md_pages := module_pages;
               md_requires_auth :=
                 Some (existsb (λ p, default false (page_requires_auth p))
                         module_pages);
               md_page_count := length module_pages |})
  end.

(** ** A sample page: a login form with a hidden token *)

Definition input_element (attrs : list (string * string)) : Element :=
  {| el_attrs := list_to_map attrs; el_text := Some ""; el_tag := "input" |}.

Definition sample_login_form : FormElement :=
  {| fe_form :=
       {| el_attrs := {[ "id" := "login"; "method" := "post" ]};
          el_text := Some ""; el_tag := "form" |};
     fe_inputs :=
       [ input_element [("type", "hidden"); ("name", "csrf")];
         input_element [("type", "text"); ("name", "username");
                        ("id", "user")];
         input_element [("type", "password"); ("name", "password");
                        ("class", "field wide")] ];
     fe_submit :=
       Some {| el_attrs := {[ "type" := "submit"; "class" := "btn btn-login" ]};
               el_text := Some " Sign in "; el_tag := "button" |} |}.

Definition sample_login_dom : Dom :=
  {| dom_title := "Sign in"; dom_forms := [sample_login_form];
     dom_buttons := []; dom_inputs := []; dom_nav := []; dom_modals := [];
     dom_links := Some [] |}.

(** Three button elements that show one text: padded with no-break spaces,
    blank, and plain. *)
Definition button_element (text : string) : Element :=
  {| el_attrs := ∅; el_text := Some text; el_tag := "button" |}.

Definition padded_buttons_dom : Dom :=
  {| dom_title := "Edit"; dom_forms := [];
     dom_buttons :=
       [ button_element (nbsp +:+ "Save" +:+ nbsp); button_element nbsp;
         button_element "Save" ];
     dom_inputs := []; dom_nav := []; dom_modals := [];
     dom_links := Some [] |}.

End ExplorerInv.

(** * The shape of a plan

    Vocabulary for what [planner.py] emits: the steps of a scenario and the
    number of scenarios a page gives rise to. *)

Module PlanShape.
Import PyStr AppMapData Planner.

(** A step after the first one: one of four actions on a target that is not
    empty, with a value exactly when it fills a field. *)
Definition step_ok (st : TestStep) : Prop :=
  action st ∈ ["fill"; "click"; "wait"; "assert"] ∧ target st ≠ "" ∧
  (action st = "fill" ↔ is_Some (value st)).

(** A scenario generated for [page] in the module [module_name]: it opens the
    page, goes through its steps and ends with an assertion. *)
Definition scenario_ok (module_name : string) (page : Page)
    (s : TestScenario) : Prop :=
  ts_module s = module_name ∧
  ∃ d rest final,
    ts_steps s = step "navigate" (page_url page) d :: rest ++ [final] ∧
    Forall step_ok rest ∧ step_ok final ∧ action final = "assert".

(** A scenario generated for a page of a module of [mods]. *)
Definition scenario_of (mods : list (string * ModuleData))
    (s : TestScenario) : Prop :=
  ∃ md page, (ts_module s, md) ∈ mods ∧ page ∈ md_pages md ∧
             scenario_ok (ts_module s) page s.

(** The number of scenarios the planner writes for a page of the module
    [module_name]. *)
Definition scenarios_of_page (module_name : string) (page : Page) : nat :=
  let ty := page_type page in
  if bool_decide (module_name = "auth") then
    if bool_decide (ty = "login") then 4
    else if bool_decide (ty = "register") then 1 else 0
  else if bool_decide (module_name = "dashboard") then
    if bool_decide (ty = "dashboard") then
      1 + length (filter (λ btn, negb (mem (btn_action btn)
                                         ["cancel"; "close"]) = true)
                    (page_buttons page))
    else if bool_decide (ty = "landing") then
      1 + length (filter (λ link, truthy (link_text link) = true)
                    (page_nav_links page))
    else 0
  else if bool_decide (module_name = "profile") then
    if bool_decide (ty = "settings") then 1 + length (page_forms page)
    else if bool_decide (ty = "profile") then 1 else 0
  else if bool_decide (module_name = "crud") then
    if bool_decide (ty = "create") then 2
    else if bool_decide (ty = "list") then 1
    else if bool_decide (ty = "edit") then 1 else 0
  else 1 + length (page_forms page).

Definition scenarios_of_module (entry : string * ModuleData) : nat :=
  sum_list (scenarios_of_page entry.1 <$> md_pages entry.2).

(** A selector the planner picked is the recorded selector of one of the
    fields it has seen, and not empty. *)
Definition from_fields (fields : list Field) (o : option string) : Prop :=
  ∀ s, o = Some s →
       s ≠ "" ∧ ∃ field, field ∈ fields ∧ field_selector field = s.

(** The five field selectors of [_get_form_selectors]. *)
Definition field_selectors (sel : Selectors) : list (option string) :=
  [ sel_email sel; sel_username sel; sel_password sel; sel_name sel;
    sel_confirm_password sel ].

(** The module that the explorer's grouping puts a page type in. *)
Definition module_of_type (ty : string) : string :=
  if mem ty ["login"; "register"; "password_reset"] then "auth"
  else if mem ty ["dashboard"; "landing"] then "dashboard"
  else if mem ty ["profile"; "settings"] then "profile"
  else if mem ty ["create"; "edit"; "list"; "detail"] then "crud"
  else "general".

(** The number of scenarios written for a crawled page. *)
Definition scenarios_of_crawled (page : Page) : nat :=
  scenarios_of_page (module_of_type (page_type page)) page.

(** The planner object keeps the modules and the base URL it was made
    with. *)
Definition same_app (mods : list (string * ModuleData)) (url : string)
    (self : PlannerAgent) : Prop :=
  modules self = mods ∧ Planner.base_url self = url.


End PlanShape.

(** * The results of a batch

    Vocabulary for the dictionary [all_results] that the batch executor
    fills, one assignment per scenario. *)

Module SpriteBatch.
Import PyStr Sprite.

Section inserts.
Context {E V : Type} (k : E → string) (v : E → V).

(** [for e in l: m[k(e)] = v(e)] *)
Definition inserted (m : gmap string V) (l : list E) : gmap string V :=
  foldl (λ m e, <[k e := v e]> m) m l.

End inserts.

End SpriteBatch.

(** * From a URL to a run ([api_server.py] of the TestBounty agent)

    [explore_url] creates an entry of [PLANS], [run_exploration_task] fills
    it with the app map and the test plan, and [run_plan_scenarios] selects
    the scenarios of a run from it. An entry has the keys [explore_url]
    gives it; writing the store to disk is left out. *)

Module PlanApi.
Import PyStr AppMapData Planner Explorer.

Record StoredPlan := {
  sp_url : string;
  sp_status : string;
  sp_app_map : option AppMap;
  sp_test_plan : option Plan;
  sp_error : option string
}.

(** The entry that [explore_url] stores before the task starts. *)
Definition new_plan (url : string) : StoredPlan :=
  {| sp_url := url; sp_status := "exploring"; sp_app_map := None;
     sp_test_plan := None; sp_error := None |}.

Section task.
Variable urlparse : string → option ParseResult.
Variable urljoin : string → string → option string.
Variable goto : string → Response.
(** [str(e)] for the exception that leaves the explorer *)
Variable message : string.

(** [run_exploration_task]: the entry of the plan when the task is done. *)
Definition run_exploration_task (url : string) (max_pages : Z)
    (entry : StoredPlan) : Result StoredPlan :=
  match explore urlparse urljoin goto url max_pages with
  | OutOfFuel => OutOfFuel
  | Raises =>
      Returns {| sp_url := sp_url entry; sp_status := "failed";
                 sp_app_map := sp_app_map entry;
                 sp_test_plan := sp_test_plan entry;
                 sp_error := Some message |}
  | Returns app_map =>
      Returns {| sp_url := sp_url entry; sp_status := "ready";
                 sp_app_map := Some app_map;
                 sp_test_plan := Some (generate_test_plan app_map);
                 sp_error := sp_error entry |}
  end.

End task.

(** [RunScenariosRequest] *)
Record RunScenariosRequest := {
  scenario_ids : list string;
  module : option string
}.

(** How a request ends: with the answer, with an [HTTPException], or with an
    exception that the handler does not catch. *)
Inductive Answer (A : Type) :=
  | Answered (a : A)
  | HTTPException (status_code : nat) (detail : string)
  | Unhandled.
Global Arguments Answered {A} a.
Global Arguments HTTPException {A} status_code detail.
Global Arguments Unhandled {A}.

(** What [run_plan_scenarios] hands to [run_scenarios_task] and reports
    back. *)
Record StartedRun := {
  run_target_url : string;
  run_scenarios : list ScenarioDict;
  scenarios_count : nat
}.

(** The scenarios a request selects from the modules of a plan. *)
Definition scenarios_to_run (modules : list (string * PlanModule))
    (request : RunScenariosRequest) : Answer (list ScenarioDict) :=
  match scenario_ids request with
  | _ :: _ =>
      Answered
        (Dict.values modules ≫= λ module_data,
           filter (λ scenario, sd_id scenario ∈ scenario_ids request)
             (pm_scenarios module_data))
  | [] =>
      if opt_truthy (module request) then
        let name := default "" (module request) in
        match Dict.get name modules with
        | Some module_data => Answered (pm_scenarios module_data)
        | None => HTTPException 404 ("Module '" +:+ name +:+ "' not found")
        end
      else Answered (Dict.values modules ≫= pm_scenarios)
  end.

Definition run_plan_scenarios (PLANS : gmap string StoredPlan)
    (plan_id : string) (request : RunScenariosRequest) : Answer StartedRun :=
  match PLANS !! plan_id with
  | None => HTTPException 404 "Plan not found"
  | Some plan =>
      if negb (bool_decide (sp_status plan = "ready")) then
        HTTPException 400 ("Plan not ready. Status: " +:+ sp_status plan)
      else
        match sp_test_plan plan with
        | None => Unhandled
        | Some test_plan =>
            match scenarios_to_run (plan_modules test_plan) request with
            | Answered [] => HTTPException 400 "No scenarios to run"
            | Answered scenarios =>
                Answered {| run_target_url := sp_url plan;
                            run_scenarios := scenarios;
                            scenarios_count := length scenarios |}
            | HTTPException status_code detail =>
                HTTPException status_code detail
            | Unhandled => Unhandled
            end
        end
  end.

(** A request without a filter. *)
Definition run_all : RunScenariosRequest :=
  {| scenario_ids := []; module := None |}.

(** The plan of the sample web, explored from [https://host/] with room for
    ten pages. *)
Definition sample_plan : StoredPlan :=
  Eval vm_compute in
    match run_exploration_task sample_urlparse sample_urljoin sample_goto
            "" "https://host/" 10 (new_plan "https://host/") with
    | Returns plan => plan
    | _ => new_plan "https://host/"
    end.

End PlanApi.


(** * White space in strings *)

Module PyStrSpace.
Import PyStr.

(** The white-space characters below U+0100: the tab, the line feed, the
    vertical tab, the form feed, the carriage return, the four separators
    U+001C to U+001F, the space, the next line U+0085 and the no-break space
    U+00A0. *)
Lemma is_space_codes :
  filter (λ n, is_space (ascii_of_nat n) = true) (seq 0 256)
  = [9; 10; 11; 12; 13; 28; 29; 30; 31; 32; 133; 160].
Proof. by vm_compute. Qed.

Lemma truthy_empty s : truthy s = false ↔ s = "".
Proof. by destruct s. Qed.

Lemma split_go_nil s : ∀ cur,
  split_go cur s = [] ↔ cur = "" ∧ lstrip s = "".
Proof.
  induction s as [|c r IH]; intros cur; simpl.
  - destruct cur; simpl; [done|]. by split; [|intros [? _]].
  - destruct (is_space c).
    + destruct cur as [|a cur]; simpl; [|by split; [|intros [? _]]].
      rewrite IH. done.
    + rewrite IH. by split; [intros [? _]|intros [_ ?]].
Qed.

(** [s.split()] is empty exactly when [s] holds white space only. *)
Lemma split_nil s : split s = [] ↔ lstrip s = "".
Proof. unfold split. rewrite split_go_nil. by split; [intros [_ ?]|]. Qed.

Lemma lstrip_blank s :
  lstrip s = "" ↔ Forall (λ c, is_space c = true) (list_ascii_of_string s).
Proof.
  induction s as [|c r IH]; simpl; [by split|].
  destruct (is_space c) eqn:Hc.
  - rewrite IH. split; [by constructor|by intros [_ ?]%Forall_cons].
  - split; [done|]. intros [Hc' _]%Forall_cons. by rewrite Hc in Hc'.
Qed.

Example split_samples :
  split "form-control  wide" = ["form-control"; "wide"] ∧
  split (" btn" +:+ nbsp +:+ "btn-login" +:+ unit_separator)
  = ["btn"; "btn-login"] ∧
  split nbsp = [] ∧ split unit_separator = [] ∧ split "" = [] ∧
  split (" " +:+ nbsp +:+ String (ascii_of_nat 133) "") = [].
Proof. by vm_compute. Qed.

Example strip_samples :
  strip (nbsp +:+ "Save" +:+ nbsp) = "Save" ∧
  strip (unit_separator +:+ " Sign in " +:+ String (ascii_of_nat 9) "")
  = "Sign in" ∧
  strip ("Save" +:+ nbsp +:+ "as") = "Save" +:+ nbsp +:+ "as" ∧
  strip nbsp = "".
Proof. by vm_compute. Qed.

End PyStrSpace.

(** * The numbering of scenario ids *)

Module Numbering.
Import PyStr.

Lemma of_uint_zeros k d :
  Nat.of_uint (Nat.iter k Decimal.D0 d) = Nat.of_uint d.
Proof. induction k as [|k IH]; [done|]. simpl. exact IH. Qed.

Lemma string_of_uint_inj d1 d2 :
  NilEmpty.string_of_uint d1 = NilEmpty.string_of_uint d2 → d1 = d2.
Proof.
  intros Heq. apply (f_equal NilEmpty.uint_of_string) in Heq.
  rewrite !NilEmpty.usu in Heq. by injection Heq.
Qed.

(** Two counters that print alike are equal. *)
Lemma fmt03_inj n m : fmt03 n = fmt03 m → n = m.
Proof.
  unfold fmt03. intros Heq%string_of_uint_inj.
  apply (f_equal Nat.of_uint) in Heq.
  by rewrite !of_uint_zeros, !Unsigned.of_to in Heq.
Qed.

Lemma fmt03_1 : fmt03 1 = "001".
Proof. reflexivity. Qed.

Example fmt03_samples :
  fmt03 7 = "007" ∧ fmt03 42 = "042" ∧ fmt03 999 = "999" ∧ fmt03 1234 = "1234".
Proof. by vm_compute. Qed.

Example str_samples :
  split_comma "#user, input[name='user'], [name='user']"
  = ["#user"; "input[name='user']"; "[name='user']"] ∧
  split_comma "" = [""] ∧
  split "  btn   btn-login " = ["btn"; "btn-login"] ∧
  strip "  Sign in " = "Sign in" ∧
  title "auth" = "Auth" ∧
  lower "Log-In" = "log-in" ∧
  contains "user" "username" = true ∧
  rstrip_char "/" "https://host/" = "https://host".
Proof. by vm_compute. Qed.

End Numbering.

(** * Insertion-ordered dictionaries *)

Module DictFacts.

Section facts.
Context {V : Type}.
Implicit Types (d : list (string * V)) (k : string) (v : V).

Lemma get_set_eq k v d : Dict.get k (Dict.set k v d) = Some v.
Proof.
  induction d as [|[k' v'] d IH]; simpl.
  - by rewrite decide_True.
  - case_decide as Hk; simpl; [by rewrite decide_True|].
    by rewrite decide_False.
Qed.

Lemma get_set_ne k k' v d :
  k ≠ k' → Dict.get k' (Dict.set k v d) = Dict.get k' d.
Proof.
  intros Hne. induction d as [|[k0 v0] d IH]; simpl.
  - by rewrite decide_False.
  - case_decide as Hk; simpl.
    + subst k0. by rewrite !decide_False.
    + case_decide; [done|apply IH].
Qed.

Lemma get_None_keys k d : Dict.get k d = None ↔ k ∉ Dict.keys d.
Proof.
  unfold Dict.keys. induction d as [|[k' v'] d IH]; simpl.
  - split; [intros _ []%elem_of_nil|done].
  - rewrite not_elem_of_cons. case_decide as Hk.
    + split; [done|]. intros [Hne _]. by destruct Hne.
    + rewrite IH. split; [intros ?; split; [by intros ->|done]|by intros [_ ?]].
Qed.


Lemma elem_of_get k v d :
  NoDup (Dict.keys d) → (k, v) ∈ d → Dict.get k d = Some v.
Proof.
  unfold Dict.keys. induction d as [|[k' v'] d IH]; simpl.
  - by intros _ ?%elem_of_nil.
  - intros [Hk' Hnd]%NoDup_cons [[= -> ->]|Hin]%elem_of_cons.
    + by rewrite decide_True.
    + rewrite decide_False; [by apply IH|].
      intros ->. apply Hk'. apply list_elem_of_fmap. by exists (k, v).
Qed.

(** Setting a key that is present changes its value in place; setting a new
    key adds an entry at the end. *)
Lemma set_present k v d :
  k ∈ Dict.keys d →
  ∃ d1 v0 d2, d = d1 ++ (k, v0) :: d2 ∧ Dict.get k d = Some v0 ∧
              Dict.set k v d = d1 ++ (k, v) :: d2.
Proof.
  unfold Dict.keys. induction d as [|[k' v'] d IH]; simpl.
  - by intros ?%elem_of_nil.
  - intros Hin. case_decide as Hk.
    + subst k'. by exists [], v', d.
    + apply elem_of_cons in Hin as [?|Hin]; [done|].
      destruct (IH Hin) as (d1 & v0 & d2 & -> & Hget & Hset).
      exists ((k', v') :: d1), v0, d2. simpl. by rewrite Hset.
Qed.

Lemma set_absent k v d : k ∉ Dict.keys d → Dict.set k v d = d ++ [(k, v)].
Proof.
  unfold Dict.keys. induction d as [|[k' v'] d IH]; simpl; [done|].
  intros [Hne Hnin]%not_elem_of_cons.
  rewrite decide_False by done. by rewrite IH.
Qed.

Lemma keys_set k v d :
  Dict.keys (Dict.set k v d)
  = if decide (k ∈ Dict.keys d) then Dict.keys d else Dict.keys d ++ [k].
Proof.
  case_decide as Hin.
  - destruct (set_present k v d Hin) as (d1 & v0 & d2 & -> & _ & ->).
    unfold Dict.keys. by rewrite !fmap_app.
  - rewrite set_absent by done. unfold Dict.keys. by rewrite fmap_app.
Qed.

Lemma NoDup_keys_set k v d :
  NoDup (Dict.keys d) → NoDup (Dict.keys (Dict.set k v d)).
Proof.
  intros Hnd. rewrite keys_set. case_decide as Hin; [done|].
  apply NoDup_app. split_and!; [done| |apply NoDup_singleton].
  intros x Hx ->%list_elem_of_singleton. done.
Qed.

End facts.

End DictFacts.

(** * The planner *)

Module PlannerFacts.
Import PyStr AppMapData Planner.

Lemma prefix_of_prefixes md : prefix_of md ∈ prefixes.
Proof. unfold prefix_of, prefixes. repeat case_bool_decide; set_solver. Qed.

Lemma auth_dependency_ok md flag :
  md ≠ "auth" → dep_ok md (auth_dependency flag).
Proof.
  intros Hmd. unfold dep_ok, auth_dependency.
  destruct (default true flag); [by right|by left].
Qed.

Lemma dep_ok_None md : dep_ok md None.
Proof. by left. Qed.

Lemma planner_ok_init app_map : planner_ok (init app_map).
Proof. split; [done|]. intros k s. simpl. by rewrite lookup_nil. Qed.

(** Appending a scenario numbers it with the next value of the counter. *)
Lemma append_scenario_ok prefix nm descr md ty pr dep sts self :
  prefix = prefix_of md →
  dep_ok md dep →
  planner_ok self →
  planner_ok (append_scenario prefix (scenario nm descr md ty pr dep sts) self).
Proof.
  intros -> Hdep [Hcount Hall]. split; simpl.
  - rewrite length_app. simpl. lia.
  - intros k s [Hold|[Hk Hnew]]%lookup_app_Some; [by apply Hall|].
    destruct (k - length (scenarios self)) as [|n] eqn:Hn; [|done].
    injection Hnew as <-. assert (k = length (scenarios self)) as -> by lia.
    rewrite Hcount. by split_and!.
Qed.

Lemma for_each_ok {A} (xs : list A) body self :
  (∀ x s, planner_ok s → planner_ok (body x s)) →
  planner_ok self →
  planner_ok (for_each xs body self).
Proof.
  intros Hbody. unfold for_each. revert self.
  induction xs as [|x xs IH]; intros self Hself; simpl; [done|].
  apply IH. by apply Hbody.
Qed.

Create HintDb planner discriminated.
#[local] Hint Resolve dep_ok_None auth_dependency_ok : planner.
#[local] Hint Extern 1 (_ ≠ _) => discriminate : planner.
#[local] Hint Extern 1 (_ = prefix_of _) => reflexivity : planner.

(** One step of the proofs below: descend into the control structure of a
    generator, and account for each scenario it appends. *)
Ltac generator_step :=
  first
    [ assumption
    | apply for_each_ok; [intros ? ? ?|]
    | apply append_scenario_ok; [solve [auto with planner]..|]
    | case_bool_decide
    | case_match ].

Ltac generator_ok := cbv zeta; repeat generator_step.

Lemma auth_page_ok page self :
  planner_ok self → planner_ok (auth_page page self).
Proof. intros ?. unfold auth_page. generator_ok. Qed.

Lemma dashboard_page_ok dep page self :
  dep_ok "dashboard" dep →
  planner_ok self → planner_ok (dashboard_page dep page self).
Proof.
  intros ? ?. unfold dashboard_page, dashboard_button, landing_link.
  generator_ok.
Qed.

Lemma profile_page_ok page self :
  planner_ok self → planner_ok (profile_page page self).
Proof.
  intros ?. unfold profile_page, settings_form. generator_ok.
Qed.

Lemma crud_page_ok page self :
  planner_ok self → planner_ok (crud_page page self).
Proof. intros ?. unfold crud_page. generator_ok. Qed.

Lemma general_page_ok module_name page self :
  prefix_of module_name = "gen" →
  module_name ≠ "auth" →
  planner_ok self → planner_ok (general_page module_name page self).
Proof.
  intros Hgen ? ?. unfold general_page, general_form.
  cbv zeta. repeat generator_step.
Qed.

Lemma generate_module_ok entry self :
  planner_ok self → planner_ok (generate_module entry self).
Proof.
  intros ?. destruct entry as [module_name module_data].
  unfold generate_module, _generate_auth_scenarios,
    _generate_dashboard_scenarios, _generate_profile_scenarios,
    _generate_crud_scenarios, _generate_general_scenarios.
  repeat case_bool_decide; cbv zeta; apply for_each_ok; try done; intros.
  - by apply auth_page_ok.
  - apply dashboard_page_ok; auto with planner.
  - by apply profile_page_ok.
  - by apply crud_page_ok.
  - apply general_page_ok; [|done..].
    unfold prefix_of. by rewrite !bool_decide_eq_false_2.
Qed.

(** The invariant holds of the planner object after generation. *)
Lemma generated_ok app_map : planner_ok (generated (init app_map)).
Proof.
  unfold generated. apply for_each_ok; [|apply planner_ok_init].
  intros. by apply generate_module_ok.
Qed.

Lemma emitted_lookup_ok app_map k s :
  emitted app_map !! k = Some s → emitted_ok k s.
Proof. apply generated_ok. Qed.

(** Only the first scenario of an auth module can be called [auth_001]. *)
Lemma id_auth_001 md n :
  prefix_of md +:+ "_" +:+ fmt03 n = "auth_001" → md = "auth" ∧ n = 1.
Proof.
  unfold prefix_of. repeat case_bool_decide; intros Hid; try discriminate Hid.
  split; [done|]. apply Numbering.fmt03_inj. rewrite Numbering.fmt03_1.
  by injection Hid.
Qed.

(** C3, as stated, fails. With a login page and a dashboard the ids are
    [auth_001] to [auth_004] and then [dash_005]: the first id of the [dash]
    family does not start at 001. *)
Lemma ids_counterexample :
  ts_id <$> emitted login_and_dashboard
  = ["auth_001"; "auth_002"; "auth_003"; "auth_004"; "dash_005"] ∧
  ¬ sequential_per_prefix (ts_id <$> emitted login_and_dashboard).
Proof.
  split; [by vm_compute|]. intros Hseq.
  assert ("dash" ∈ prefixes) as Hdash by (unfold prefixes; set_solver).
  specialize (Hseq "dash" Hdash). vm_compute in Hseq. discriminate Hseq.
Qed.

(** C3, amended. For every app map, scenario ids are numbered by one counter
    shared by all prefixes: the scenario emitted at position [k + 1] of the
    whole plan has the id made of the prefix of its module ([auth], [dash],
    [profile], [crud], or [gen] for any other module) and of the number
    [k + 1], written with at least three digits. The numbers of one prefix
    family are increasing but start at 001, and are consecutive, only as far
    as no scenario of another prefix has been emitted. *)
Theorem ids_follow_one_counter app_map k s :
  emitted app_map !! k = Some s →
  ts_id s = prefix_of (ts_module s) +:+ "_" +:+ fmt03 (S k) ∧
  prefix_of (ts_module s) ∈ prefixes.
Proof.
  intros (_ & Hid & _)%emitted_lookup_ok.
  split; [done|apply prefix_of_prefixes].
Qed.

Lemma ids_follow_one_counter_witness :
  ∃ s, emitted login_and_dashboard !! 4 = Some s ∧
       ts_module s = "dashboard" ∧ ts_id s = "dash_005".
Proof.
  eexists. split; [vm_compute; reflexivity|]. split; [reflexivity|].
  exact (proj1 (ids_follow_one_counter login_and_dashboard 4 _ eq_refl)).
Defined.

(** C2, as stated, fails. For a dashboard found without a login page the
    single scenario [dash_001] depends on [auth_001], and the plan holds no
    scenario with that id. *)
Lemma depends_on_counterexample :
  (λ s, (ts_id s, ts_depends_on s)) <$> emitted dashboard_only
  = [("dash_001", Some "auth_001")] ∧
  ¬ dependencies_resolved (emitted dashboard_only).
Proof.
  split; [by vm_compute|]. intros Hres.
  destruct (emitted dashboard_only) as [|s0 rest] eqn:Hplan;
    [by vm_compute in Hplan|].
  assert (ts_depends_on s0 = Some "auth_001") as Hdep.
  { vm_compute in Hplan. by injection Hplan as <- _. }
  destruct (Hres 0 s0 _ eq_refl Hdep) as (j & _ & Hlt & _). lia.
Qed.

(** C2, amended. For every plan, a scenario whose [depends_on] is set
    references the literal id [auth_001]. The plan need not hold a scenario
    with that id; when it does, that scenario is the first one emitted, and
    it is emitted strictly earlier than the scenario that depends on it. *)
Theorem depends_on_auth_001 app_map k s d :
  emitted app_map !! k = Some s →
  ts_depends_on s = Some d →
  d = "auth_001" ∧
  ∀ j s', emitted app_map !! j = Some s' → ts_id s' = d → j = 0 ∧ j < k.
Proof.
  intros Hs Hd. destruct (emitted_lookup_ok _ _ _ Hs) as (_ & _ & Hdep).
  destruct Hdep as [Hnone|[Hsome Hmd]]; [congruence|].
  assert (d = "auth_001") as -> by congruence. split; [done|].
  intros j s' Hs' Hid'.
  destruct (emitted_lookup_ok _ _ _ Hs') as (_ & Hid & _).
  rewrite Hid in Hid'. apply id_auth_001 in Hid' as [Hmd' Hj].
  assert (j = 0) as -> by lia. split; [done|].
  destruct k as [|k]; [|lia].
  rewrite Hs in Hs'. injection Hs' as <-. done.
Qed.

Lemma depends_on_auth_001_witness :
  ∃ s, emitted login_and_dashboard !! 4 = Some s ∧
       ts_depends_on s = Some "auth_001" ∧
       ∀ j s', emitted login_and_dashboard !! j = Some s' →
               ts_id s' = "auth_001" → j = 0 ∧ j < 4.
Proof.
  eexists. split; [vm_compute; reflexivity|]. split; [reflexivity|].
  exact (proj2 (depends_on_auth_001 login_and_dashboard 4 _ "auth_001"
                  eq_refl eq_refl)).
Defined.

(** ** Grouping the scenarios by module *)

Lemma listed_app mods1 mods2 :
  listed (mods1 ++ mods2) = listed mods1 ++ listed mods2.
Proof. unfold listed, Dict.values. by rewrite fmap_app, bind_app. Qed.

Lemma listed_cons name pm mods :
  listed ((name, pm) :: mods) = pm_scenarios pm ++ listed mods.
Proof. reflexivity. Qed.

Lemma length_listed mods :
  length (listed mods)
  = sum_list_with (λ pm, length (pm_scenarios pm)) (Dict.values mods).
Proof.
  induction mods as [|[name pm] mods IH]; [done|].
  rewrite listed_cons, length_app, IH. done.
Qed.

(** One round of the grouping loop adds the scenario to the list of its
    module. *)
Lemma group_scenario_get mods acc sc k :
  pm_scenarios <$> Dict.get k (group_scenario mods acc sc)
  = if decide (ts_module sc = k)
    then Some (from_option pm_scenarios [] (Dict.get k acc) ++ [to_dict sc])
    else pm_scenarios <$> Dict.get k acc.
Proof.
  unfold group_scenario. case_decide as Hk.
  - subst k. rewrite DictFacts.get_set_eq. simpl.
    by destruct (Dict.get (ts_module sc) acc).
  - by rewrite DictFacts.get_set_ne.
Qed.

Lemma group_scenario_listed mods acc sc :
  listed (group_scenario mods acc sc) ≡ₚ listed acc ++ [to_dict sc].
Proof.
  unfold group_scenario.
  destruct (Dict.get (ts_module sc) acc) as [e|] eqn:Hget.
  - assert (ts_module sc ∈ Dict.keys acc) as Hin.
    { destruct (decide (ts_module sc ∈ Dict.keys acc)) as [|Hnin]; [done|].
      apply DictFacts.get_None_keys in Hnin. congruence. }
    destruct (DictFacts.set_present (ts_module sc)
                {| pm_name := pm_name e;
                   pm_requires_auth := pm_requires_auth e;
                   pm_scenarios := pm_scenarios e ++ [to_dict sc] |}
                acc Hin) as (d1 & e' & d2 & Hacc & Hget' & ->).
    assert (e' = e) as -> by congruence.
    rewrite Hacc, !listed_app, !listed_cons. simpl.
    rewrite <-!(assoc_L (++)). f_equiv. f_equiv. apply Permutation_app_comm.
  - apply DictFacts.get_None_keys in Hget.
    rewrite DictFacts.set_absent by done.
    by rewrite listed_app, listed_cons, app_nil_r.
Qed.

Lemma group_scenario_keys mods acc sc :
  NoDup (Dict.keys acc) → NoDup (Dict.keys (group_scenario mods acc sc)).
Proof. apply DictFacts.NoDup_keys_set. Qed.

(** The grouping loop as a whole. *)
Lemma grouping_get mods l acc k :
  pm_scenarios <$> Dict.get k (foldl (group_scenario mods) acc l)
  = match Dict.get k acc, filter (λ s, ts_module s = k) l with
    | None, [] => None
    | o, new => Some (from_option pm_scenarios [] o ++ (to_dict <$> new))
    end.
Proof.
  revert acc. induction l as [|sc l IH]; intros acc; simpl.
  - destruct (Dict.get k acc); simpl; [by rewrite app_nil_r|done].
  - rewrite IH. pose proof (group_scenario_get mods acc sc k) as Hget.
    rewrite filter_cons. case_decide as Hk; simpl in *.
    + destruct (Dict.get k (group_scenario mods acc sc)) as [e|]; [|done].
      injection Hget as ->. simpl.
      rewrite <-(assoc_L (++)). simpl.
      by destruct (Dict.get k acc).
    + destruct (Dict.get k (group_scenario mods acc sc)) as [e|],
        (Dict.get k acc) as [e0|]; simplify_eq/=; try done.
      by rewrite Hget.
Qed.

Lemma grouping_listed mods l acc :
  listed (foldl (group_scenario mods) acc l) ≡ₚ listed acc ++ (to_dict <$> l).
Proof.
  revert acc. induction l as [|sc l IH]; intros acc; simpl.
  - by rewrite app_nil_r.
  - rewrite IH, group_scenario_listed. by rewrite <-(assoc_L (++)).
Qed.

Lemma grouping_keys mods l acc :
  NoDup (Dict.keys acc) →
  NoDup (Dict.keys (foldl (group_scenario mods) acc l)).
Proof.
  revert acc. induction l as [|sc l IH]; intros acc Hacc; simpl; [done|].
  by apply IH, group_scenario_keys.
Qed.

(** Two scenarios of a plan with the same id are the same scenario. *)
Lemma id_inj md1 n1 md2 n2 :
  prefix_of md1 +:+ "_" +:+ fmt03 n1 = prefix_of md2 +:+ "_" +:+ fmt03 n2 →
  n1 = n2.
Proof.
  unfold prefix_of. repeat case_bool_decide; intros Hid;
    try discriminate Hid; apply Numbering.fmt03_inj; by injection Hid.
Qed.

Lemma emitted_ids_NoDup app_map : NoDup (ts_id <$> emitted app_map).
Proof.
  apply NoDup_alt. intros i j x.
  rewrite !list_lookup_fmap.
  destruct (emitted app_map !! i) as [si|] eqn:Hi; [|done].
  destruct (emitted app_map !! j) as [sj|] eqn:Hj; [|done].
  simpl. intros [= <-] [= Heq].
  destruct (emitted_lookup_ok _ _ _ Hi) as (_ & Hidi & _).
  destruct (emitted_lookup_ok _ _ _ Hj) as (_ & Hidj & _).
  rewrite Hidi, Hidj in Heq. apply id_inj in Heq. lia.
Qed.

Lemma plan_modules_grouped app_map :
  ∃ mods,
    plan_modules (generate_test_plan app_map)
    = foldl (group_scenario mods) [] (emitted app_map).
Proof. by eexists. Qed.

(** C10. For every app map the plan returned by [generate_scenarios] is
    consistent: [total_scenarios] is the sum over the modules of the number
    of scenarios each lists; the module keys are distinct, and the scenarios
    listed are, up to the grouping, exactly the emitted ones, each once (their
    ids are distinct); every emitted scenario is listed in the module whose
    key is its [module] field and in no other; and every scenario is
    pending. *)
Theorem plan_consistent app_map :
  let plan := generate_test_plan app_map in
  total_scenarios plan
  = sum_list_with (λ pm, length (pm_scenarios pm))
      (Dict.values (plan_modules plan)) ∧
  NoDup (Dict.keys (plan_modules plan)) ∧
  listed (plan_modules plan) ≡ₚ to_dict <$> emitted app_map ∧
  NoDup (sd_id <$> listed (plan_modules plan)) ∧
  (∀ s, s ∈ emitted app_map →
     ts_status s = "pending" ∧
     ∃ pm, Dict.get (ts_module s) (plan_modules plan) = Some pm ∧
           to_dict s ∈ pm_scenarios pm) ∧
  (∀ name pm sd, (name, pm) ∈ plan_modules plan → sd ∈ pm_scenarios pm →
     sd_module sd = name ∧ sd_status sd = "pending" ∧
     ∃ s, s ∈ emitted app_map ∧ sd = to_dict s).
Proof.
  intros plan. destruct (plan_modules_grouped app_map) as [mods Hmods].
  fold plan in Hmods.
  assert (total_scenarios plan = length (emitted app_map)) as Htotal by done.
  clearbody plan.
  pose proof (grouping_listed mods (emitted app_map) []) as Hlisted.
  pose proof (grouping_keys mods (emitted app_map) [] (NoDup_nil_2))
    as Hkeys.
  rewrite <-Hmods in Hlisted, Hkeys.
  change (listed []) with (@nil ScenarioDict) in Hlisted.
  rewrite app_nil_l in Hlisted.
  assert (∀ name,
            pm_scenarios <$> Dict.get name (plan_modules plan)
            = match filter (λ s, ts_module s = name) (emitted app_map) with
              | [] => None
              | new => Some (to_dict <$> new)
              end) as Hget.
  { intros name. rewrite Hmods, grouping_get. simpl.
    by destruct (filter _ (emitted app_map)). }
  assert (∀ s, s ∈ emitted app_map → ts_status s = "pending") as Hpending.
  { intros s (k & Hk)%list_elem_of_lookup.
    by destruct (emitted_lookup_ok _ _ _ Hk) as (? & _). }
  split_and!.
  - by rewrite <-length_listed, Hlisted, length_fmap.
  - done.
  - done.
  - rewrite Hlisted, <-list_fmap_compose. apply emitted_ids_NoDup.
  - intros s Hs. split; [by apply Hpending|].
    specialize (Hget (ts_module s)).
    assert (s ∈ filter (λ s', ts_module s' = ts_module s) (emitted app_map))
      as Hin by (by apply list_elem_of_filter).
    destruct (filter _ (emitted app_map)) as [|s0 l] eqn:Hfilter;
      [by apply elem_of_nil in Hin|].
    destruct (Dict.get (ts_module s) (plan_modules plan)) as [pm|]; [|done].
    exists pm. split; [done|]. injection Hget as ->.
    change (to_dict s ∈ to_dict <$> (s0 :: l)). by apply list_elem_of_fmap_2.
  - intros name pm sd Hin Hsd.
    apply DictFacts.elem_of_get in Hin; [|done].
    specialize (Hget name). rewrite Hin in Hget. simpl in Hget.
    destruct (filter _ (emitted app_map)) as [|s0 l] eqn:Hfilter; [done|].
    injection Hget as Hscen. rewrite Hscen in Hsd.
    change (sd ∈ to_dict <$> (s0 :: l)) in Hsd.
    apply list_elem_of_fmap in Hsd as (s & -> & Hs).
    rewrite <-Hfilter in Hs. apply list_elem_of_filter in Hs as [Hmod Hs].
    split_and!; [done|by apply Hpending|by exists s].
Qed.

(** ** The plan for a single login page *)

Lemma generated_single_login app_map md page :
  am_modules app_map = [("auth", md)] →
  md_pages md = [page] →
  generated (init app_map) = auth_page page (init app_map).
Proof.
  intros Hmods Hpages. unfold generated. cbn [init Planner.modules].
  rewrite Hmods. unfold for_each at 1. cbn [foldl generate_module].
  rewrite bool_decide_eq_true_2 by done.
  unfold _generate_auth_scenarios, for_each. by rewrite Hpages.
Qed.

(** C4. For an app map whose only module is [auth] with a single page of
    type [login] (whatever its forms, among them one with a username field, a
    password field and a submit button), the planner emits exactly four
    scenarios, with ids [auth_001] to [auth_004] in emission order and types
    happy_path, error_path, edge_case and security; the plan counts four
    scenarios and lists them in this order in its single module [auth]. *)
Theorem login_page_plan app_map md page :
  am_modules app_map = [("auth", md)] →
  md_pages md = [page] →
  page_type page = "login" →
  (λ s, (ts_id s, ts_type s)) <$> emitted app_map
  = [ ("auth_001", HAPPY_PATH); ("auth_002", ERROR_PATH);
      ("auth_003", EDGE_CASE); ("auth_004", SECURITY) ] ∧
  total_scenarios (generate_test_plan app_map) = 4 ∧
  (λ '(name, pm), (name, (λ sd, (sd_id sd, sd_type sd)) <$> pm_scenarios pm))
    <$> plan_modules (generate_test_plan app_map)
  = [ ("auth", [ ("auth_001", "happy_path"); ("auth_002", "error_path");
                 ("auth_003", "edge_case"); ("auth_004", "security") ]) ].
Proof.
  intros Hmods Hpages Hty.
  unfold emitted, generate_test_plan, generate_scenarios.
  rewrite (generated_single_login app_map md page Hmods Hpages).
  unfold auth_page. rewrite bool_decide_eq_true_2 by done.
  split_and!; by vm_compute.
Qed.

Lemma login_page_plan_witness :
  am_modules login_only = [("auth", sample_module "Auth" [login_page])] ∧
  md_pages (sample_module "Auth" [login_page]) = [login_page] ∧
  page_type login_page = "login" ∧
  (λ s, (ts_id s, ts_type s)) <$> emitted login_only
  = [ ("auth_001", HAPPY_PATH); ("auth_002", ERROR_PATH);
      ("auth_003", EDGE_CASE); ("auth_004", SECURITY) ].
Proof.
  split; [reflexivity|]. split; [reflexivity|]. split; [reflexivity|].
  exact (proj1 (login_page_plan login_only (sample_module "Auth" [login_page])
                  login_page eq_refl eq_refl eq_refl)).
Defined.

End PlannerFacts.

(** * The selector recorded for a form input *)

Module ExplorerSelector.
Import PyStr AppMapData Explorer.

Lemma truthy_nonempty s : s ≠ "" → truthy s = true.
Proof. by destruct s. Qed.

(** C9, as stated, fails: for an input with id [user], name [username] and
    type [text] the recorded selector stops after the two name selectors; it
    is not the list the claim describes and holds no type selector. *)
Lemma build_input_selector_counterexample :
  _build_input_selector "user" "username" "text" ""
    = Some "#user, input[name='username'], [name='username']" ∧
  _build_input_selector "user" "username" "text" ""
    ≠ Some (selector_per_spec "user" "username" "text") ∧
  contains "input[type='text']"
    "#user, input[name='username'], [name='username']" = false.
Proof. by vm_compute. Qed.

(** C9, amended. For an input with a non-empty id and a non-empty name
    (whatever its type, and whatever its class as long as the class attribute
    is empty or holds a class name), the recorded selector is the
    comma-separated list of [#id], [input[name='...']] and [[name='...']] and
    nothing more: the list is cut to its first three entries, so the type
    selectors never appear. *)
Theorem build_input_selector_three inp_id inp_name inp_type inp_class :
  inp_id ≠ "" →
  inp_name ≠ "" →
  inp_class = "" ∨ split inp_class ≠ [] →
  _build_input_selector inp_id inp_name inp_type inp_class
  = Some (join ", " [ "#" +:+ inp_id;
                      "input[name='" +:+ inp_name +:+ "']";
                      "[name='" +:+ inp_name +:+ "']" ]).
Proof.
  intros Hid Hname Hclass. unfold _build_input_selector.
  rewrite (truthy_nonempty inp_id), (truthy_nonempty inp_name) by done.
  destruct (truthy inp_type) eqn:Hty; simpl.
  - destruct (truthy inp_class) eqn:Hcl; simpl; [|done].
    destruct Hclass as [->|Hsplit]; [done|].
    destruct (split inp_class) as [|first_class rest]; [done|]. done.
  - done.
Qed.

Lemma build_input_selector_three_witness :
  "user" ≠ "" ∧ "username" ≠ "" ∧
  ("form-control wide" = "" ∨ split "form-control wide" ≠ []) ∧
  _build_input_selector "user" "username" "text" "form-control wide"
  = Some "#user, input[name='username'], [name='username']".
Proof.
  split; [done|]. split; [done|]. split; [right; by vm_compute|].
  apply (build_input_selector_three "user" "username" "text"
           "form-control wide"); [done | done | right; by vm_compute].
Defined.

Lemma attr_or_Some (e : Element) k v dflt :
  get_attribute e k = Some v → v ≠ "" → attr_or e k dflt = v.
Proof. unfold attr_or. intros -> ?. by destruct v. Qed.

Lemma attr_or_None (e : Element) k dflt :
  get_attribute e k = None → attr_or e k dflt = dflt.
Proof. unfold attr_or. by intros ->. Qed.

(** The selector is stored as the [selector] of the field that
    [_extract_forms] records for the input. *)
Lemma extract_field_selector (inp : Element) inp_id inp_name :
  get_attribute inp "id" = Some inp_id →
  get_attribute inp "name" = Some inp_name →
  inp_id ≠ "" →
  inp_name ≠ "" →
  attr_or inp "type" "text" ∉ ["hidden"; "submit"] →
  get_attribute inp "class" = None →
  fmap (M:=list) field_selector <$> extract_field inp
  = Some [ join ", " [ "#" +:+ inp_id;
                       "input[name='" +:+ inp_name +:+ "']";
                       "[name='" +:+ inp_name +:+ "']" ] ].
Proof.
  intros Hid Hname Hid' Hname' Hty Hcl. unfold extract_field, mem.
  rewrite bool_decide_eq_false_2 by done. simpl.
  rewrite (attr_or_Some inp "id" inp_id), (attr_or_Some inp "name" inp_name),
    (attr_or_None inp "class") by done.
  unfold _build_input_selector.
  rewrite (truthy_nonempty inp_id), (truthy_nonempty inp_name) by done.
  by destruct (truthy (attr_or inp "type" "text")).
Qed.

(** A class attribute of white space only, be it a no-break space, holds no
    class name: with a type, [inp_class.split()[0]] raises. *)
Example build_input_selector_blank_class :
  _build_input_selector "user" "username" "text" nbsp = None ∧
  _build_input_selector "user" "username" "text" unit_separator = None ∧
  _build_input_selector "user" "username" "text" "  " = None ∧
  _build_input_selector "user" "username" "" nbsp
  = Some "#user, input[name='username'], [name='username']".
Proof. by vm_compute. Qed.

End ExplorerSelector.

(** * The crawl stays on the host of the base URL *)

Module ExplorerCrawl.
Import PyStr AppMapData Explorer.

Section facts.
Variable urlparse : string → option ParseResult.
Variable urljoin : string → string → option string.
Variable goto : string → Response.
Variable max_pages : Z.

Lemma same_host_mark_visited url pr self :
  same_host urlparse self →
  urlparse url = Some pr →
  netloc pr = domain self →
  same_host urlparse (mark_visited url self).
Proof.
  intros [Hv Hg Hp] Hpr Hnet. split; simpl.
  - intros u [Hu%elem_of_singleton|Hu]%elem_of_union; [subst u|by apply Hv].
    unfold Explorer.host. by rewrite Hpr, <-Hnet.
  - intros u. rewrite elem_of_app, elem_of_union, elem_of_singleton, Hg.
    rewrite list_elem_of_singleton. tauto.
  - done.
Qed.

Lemma extract_page_info_url url dom page_info :
  _extract_page_info urlparse url dom = Some page_info →
  page_url page_info = url.
Proof.
  unfold _extract_page_info. intros H. simplify_option_eq. done.
Qed.

Lemma same_host_record_page url dom page_info self :
  same_host urlparse self →
  url ∈ visited_urls self →
  _extract_page_info urlparse url dom = Some page_info →
  same_host urlparse (record_page url page_info self).
Proof.
  intros [Hv Hg Hp] Hurl Hinfo. split; simpl; [done..|].
  intros p [Hin|Hin%list_elem_of_singleton]%elem_of_app;
    [by apply Hp|subst p].
  rewrite (extract_page_info_url _ _ _ Hinfo). by apply Hv.
Qed.

Lemma budget_mark_visited url self :
  url ∉ visited_urls self →
  ¬ (max_pages ≤ Z.of_nat (size (visited_urls self)))%Z →
  S (budget max_pages (mark_visited url self)) = budget max_pages self.
Proof.
  intros Hnew Hroom. unfold budget. simpl.
  rewrite size_union, size_singleton by set_solver. lia.
Qed.

Lemma budget_mono (self self' : ExplorerAgent) :
  visited_urls self ⊆ visited_urls self' → budget max_pages self' ≤ budget max_pages self.
Proof. intros Hsub%subseteq_size. unfold budget. lia. Qed.

(** The link loop, given that the recursive call behaves. *)
Lemma explore_links_grows explore fuel url links self :
  (∀ u s, same_host urlparse s → budget max_pages s < fuel →
          grows urlparse s (explore u s)) →
  same_host urlparse self →
  budget max_pages self < fuel →
  grows urlparse self (explore_links urljoin explore url links self).
Proof.
  intros Hexplore. revert self.
  induction links as [|link links IH]; intros self Hinv Hfuel; simpl.
  - done.
  - destruct (urljoin url link) as [full_url|]; [|done].
    case_bool_decide; [by apply IH|].
    pose proof (Hexplore full_url self Hinv Hfuel) as Hcall.
    destruct (explore full_url self) as [| |self1]; [done|done|].
    destruct Hcall as (Hinv1 & Hdom1 & Hsub1).
    pose proof (budget_mono _ _ Hsub1) as Hb.
    specialize (IH self1 Hinv1 ltac:(lia)).
    destruct (explore_links urljoin explore url links self1) as [| |self2];
      [done..|].
    destruct IH as (Hinv2 & Hdom2 & Hsub2).
    destruct Hdom1, Hdom2. split_and!; [done|congruence..|set_solver].
Qed.

(** A call with more fuel than budget max_pages never runs out of it, keeps the
    invariant and only adds to the visited set. *)
Lemma explore_page_grows fuel :
  ∀ url self,
    same_host urlparse self →
    budget max_pages self < fuel →
    grows urlparse self
      (_explore_page urlparse urljoin goto fuel max_pages url self).
Proof.
  induction fuel as [|fuel IH]; intros url self Hinv Hfuel; [lia|].
  simpl.
  destruct (bool_decide_reflect (url ∈ visited_urls self)) as [|Hnew];
    simpl; [done|].
  destruct (bool_decide_reflect
              (max_pages ≤ Z.of_nat (size (visited_urls self)))%Z)
    as [|Hroom]; simpl; [done|].
  destruct (urlparse url) as [pr|] eqn:Hpr; [|done].
  destruct (bool_decide_reflect (netloc pr = domain self)) as [Hnet|];
    simpl; [|done].
  pose proof (same_host_mark_visited url pr self Hinv Hpr Hnet) as Hinv1.
  pose proof (budget_mark_visited url self Hnew Hroom) as Hb1.
  assert (visited_urls self ⊆ visited_urls (mark_visited url self)) as Hsub1
    by (simpl; set_solver).
  destruct (goto url) as [| |[dom|]]; [done|done| |done].
  destruct (_extract_page_info urlparse url dom) as [page_info|] eqn:Hinfo;
    [|done].
  assert (same_host urlparse (record_page url page_info (mark_visited url self)))
    as Hinv2.
  { apply (same_host_record_page url dom); [done|simpl; set_solver|done]. }
  destruct (_extract_links dom) as [links|]; [|done].
  pose proof (explore_links_grows
                (_explore_page urlparse urljoin goto fuel max_pages) fuel url links
                (record_page url page_info (mark_visited url self)) IH Hinv2)
    as Hloop.
  assert (budget max_pages (record_page url page_info (mark_visited url self))
          < fuel) as Hb2.
  { change (budget max_pages (mark_visited url self) < fuel).
    clear IH Hloop. lia. }
  specialize (Hloop Hb2).
  destruct (explore_links _ _ url links _) as [| |self3]; [done..|].
  destruct Hloop as (Hinv3 & [Hdom3 Hmods3] & Hsub3).
  split_and!; [done..|]. etrans; [exact Hsub1|exact Hsub3].
Qed.

Lemma dict_set_elem_of {V} k (v : V) d kv :
  kv ∈ Dict.set k v d → kv = (k, v) ∨ kv ∈ d.
Proof.
  induction d as [|[k' v'] d IH]; simpl.
  - intros ->%list_elem_of_singleton. by left.
  - case_decide.
    + intros [->|?]%elem_of_cons; [by left|]. right. by right.
    + intros [->|Hin]%elem_of_cons; [right; by left|].
      destruct (IH Hin) as [->|?]; [by left|]. right. by right.
Qed.

(** The pages of a module are pages of the crawl. *)
Lemma group_modules_pages all_pages mapping mods name md p :
  (name, md) ∈ foldl (group_module all_pages) mods mapping →
  p ∈ md_pages md →
  p ∈ all_pages ∨ ∃ md', (name, md') ∈ mods ∧ p ∈ md_pages md'.
Proof.
  revert mods. induction mapping as [|[module_name page_types] mapping IH];
    intros mods Hin Hp; simpl in Hin.
  - right. eauto.
  - destruct (IH _ Hin Hp) as [?|(md' & Hin' & Hp')]; [by left|].
    unfold group_module in Hin'.
    destruct (filter _ all_pages) as [|p0 ps] eqn:Hfilter; [right; eauto|].
    apply dict_set_elem_of in Hin' as [Heq|?]; [|right; eauto].
    left. injection Heq as _ ->. simpl in Hp'. rewrite <-Hfilter in Hp'.
    by apply list_elem_of_filter in Hp' as [_ ?].
Qed.

Lemma new_agent_same_host url self0 :
  new_agent urlparse url = Some self0 →
  same_host urlparse self0 ∧ host urlparse url = Some (domain self0) ∧
  modules self0 = [] ∧ budget max_pages self0 < S (Z.to_nat max_pages).
Proof.
  unfold new_agent, host. destruct (urlparse url) as [pr|]; [|done].
  intros [= <-]. split_and!; [|done|done|].
  - split; simpl; [set_solver| |by intros ? ?%elem_of_nil].
    intros u. split; [by intros ?%elem_of_nil|set_solver].
  - unfold budget. cbn [visited_urls]. rewrite size_empty. lia.
Qed.

Lemma crawl_grows url :
  match crawl urlparse urljoin goto url max_pages with
  | OutOfFuel => False
  | Raises => True
  | Returns self =>
      same_host urlparse self ∧ host urlparse url = Some (domain self)
      ∧ modules self = []
  end.
Proof.
  unfold crawl.
  destruct (new_agent urlparse url) as [self0|] eqn:Hnew; [|done].
  destruct (new_agent_same_host url self0 Hnew) as (Hinv0 & Hhost & Hmods & Hb).
  pose proof (explore_page_grows (S (Z.to_nat max_pages)) (base_url self0)
                self0 Hinv0 Hb) as Hrun.
  destruct (_explore_page _ _ _ _ _ _ _) as [| |self]; [done..|].
  destruct Hrun as (Hinv & [Hdom Hmods'] & _).
  split_and!; [done|congruence..].
Qed.

Lemma explore_returns url app_map :
  explore urlparse urljoin goto url max_pages = Returns app_map →
  ∃ self,
    crawl urlparse urljoin goto url max_pages = Returns self ∧
    am_pages app_map = pages self ∧
    am_modules app_map
    = foldl (group_module (pages self)) (modules self) module_mapping.
Proof.
  unfold explore.
  destruct (crawl urlparse urljoin goto url max_pages) as [| |self];
    [done..|].
  intros [= <-]. by exists self.
Qed.

(** C8. For every base URL, every page bound and every web (whatever links
    the pages hold and however the URL functions resolve them), the crawl
    comes to an end, and when the explorer returns: every URL handed to
    [page.goto] (these are the visited URLs) has the host of the base URL, and
    so has the URL of every page of the app map, in [pages] and in every
    module. *)
Theorem crawl_same_host (url : string) :
  explore urlparse urljoin goto url max_pages ≠ OutOfFuel ∧
  (∀ self, crawl urlparse urljoin goto url max_pages = Returns self →
     (∀ u, u ∈ goto_log self ↔ u ∈ visited_urls self) ∧
     ∀ u, u ∈ goto_log self → host urlparse u = host urlparse url) ∧
  (∀ app_map, explore urlparse urljoin goto url max_pages = Returns app_map →
     (∀ p, p ∈ am_pages app_map → host urlparse (page_url p) = host urlparse url) ∧
     ∀ name md p, (name, md) ∈ am_modules app_map → p ∈ md_pages md →
       host urlparse (page_url p) = host urlparse url).
Proof.
  pose proof (crawl_grows url) as Hcrawl. split_and!.
  - unfold explore. by destruct (crawl urlparse urljoin goto url max_pages).
  - intros self Hself. rewrite Hself in Hcrawl.
    destruct Hcrawl as ([Hv Hg Hp] & Hhost & Hmods). split; [done|].
    intros u Hu%Hg. rewrite Hhost. by apply Hv.
  - intros app_map (self & Hself & Hpages & Hmodules)%explore_returns.
    rewrite Hself in Hcrawl.
    destruct Hcrawl as ([Hv Hg Hp] & Hhost & Hmods).
    rewrite Hpages, Hmodules, Hhost. split; [done|].
    intros name md p Hin Hpage. apply Hp.
    destruct (group_modules_pages _ _ _ _ _ _ Hin Hpage)
      as [?|(md' & Hin' & _)]; [done|].
    rewrite Hmods in Hin'. by apply elem_of_nil in Hin'.
Qed.


End facts.

(** The crawl of the sample web from [https://host/] with room for ten pages
    requests the two pages on [host], in this order, and never the page on
    the other host. *)
Example sample_crawl :
  match explore sample_urlparse sample_urljoin sample_goto "https://host/" 10
  with
  | Returns app_map =>
      page_url <$> am_pages app_map = ["https://host"; "https://host/a"] ∧
      Dict.keys (am_modules app_map) = ["dashboard"; "general"]
  | _ => False
  end ∧
  match crawl sample_urlparse sample_urljoin sample_goto "https://host/" 10
  with
  | Returns self => goto_log self = ["https://host"; "https://host/a"]
  | _ => False
  end.
Proof. by vm_compute. Qed.

(** A crawl that found a single login page groups it into the one module
    [auth], the shape of app map the planner turns into four scenarios. *)
Lemma group_single_login (self : ExplorerAgent) page :
  pages self = [page] →
  modules self = [] →
  page_type page = "login" →
  ∃ md, modules (_group_into_modules self) = [("auth", md)] ∧
        md_pages md = [page].
Proof.
  intros Hpages Hmods Hty. unfold _group_into_modules. cbn [modules].
  rewrite Hpages, Hmods. unfold module_mapping. cbn [foldl group_module].
  rewrite !filter_cons, !filter_nil, Hty.
  eexists. split; [by vm_compute|done].
Qed.

End ExplorerCrawl.

(** * Assertions and dependencies in the scenario executor *)

Module ExecutorFacts.
Import PyStr Planner Executor.

(** C7, as stated, fails. On the blank page no error message is visible, yet
    the scenario that asserts [error_message_visible] and then
    [validation_error] passes, with both steps completed and no error. And
    where an assertion does fail ([page_loaded] on a page without title), the
    message is not the name of the predicate. *)
Lemma assert_counterexample :
  error_message_found blank_driver () = false ∧
  (execute_scenario blank_driver asserting_scenario "http://shop.test" ()).1
  = {| sr_id := "auth_002"; sr_name := "Invalid Password";
       sr_status := "passed";
       sr_steps_completed :=
         ["Verify error message shown"; "Verify validation error shown"];
       sr_error := None |} ∧
  (execute_scenario blank_driver failing_login "http://shop.test" ()).1
  = {| sr_id := "auth_001"; sr_name := "Valid Login";
       sr_status := "failed";
       sr_steps_completed := ["Go to login page"];
       sr_error := Some "Page did not load" |}.
Proof. by vm_compute. Qed.

Section facts.
Context {B : Type} (drv : Driver B).

Lemma run_assert_other target b :
  target ≠ "page_loaded" → run_assert drv target b = Continue b.
Proof.
  intros Hne. unfold run_assert.
  rewrite bool_decide_eq_false_2 by done. by repeat case_bool_decide.
Qed.

Lemma run_step_assert base_url target descr b :
  run_step drv base_url (step "assert" target descr) b
  = run_assert drv target b.
Proof. reflexivity. Qed.

(** C7, amended. Of the predicates an [assert] step can name, the executor
    checks [page_loaded] only. A step asserting any other predicate never
    fails the scenario: it is recorded as completed and the next step runs in
    the same browser state. A step asserting [page_loaded] on a page whose
    title is empty sets the status to failed with the message
    "Page did not load", and no further step of the scenario runs; on a page
    with a title the step is completed. *)
Theorem assert_only_page_loaded base_url target descr rest r b :
  (target ≠ "page_loaded" →
     run_steps drv base_url (step "assert" target descr :: rest) r b
     = run_steps drv base_url rest (completed descr r) b) ∧
  (target = "page_loaded" →
     ∀ b', page_title drv b = Ok "" b' →
       run_steps drv base_url (step "assert" target descr :: rest) r b
       = (failed "Page did not load" r, b') ∧
       sr_status (failed "Page did not load" r) = "failed" ∧
       sr_error (failed "Page did not load" r) = Some "Page did not load" ∧
       sr_steps_completed (failed "Page did not load" r)
       = sr_steps_completed r) ∧
  (target = "page_loaded" →
     ∀ title b', page_title drv b = Ok title b' → title ≠ "" →
       run_steps drv base_url (step "assert" target descr :: rest) r b
       = run_steps drv base_url rest (completed descr r) b').
Proof.
  split_and!.
  - intros Hne. cbn [run_steps]. rewrite run_step_assert.
    by rewrite run_assert_other.
  - intros -> b' Htitle. cbn [run_steps]. rewrite run_step_assert.
    unfold run_assert. rewrite bool_decide_eq_true_2 by done.
    by rewrite Htitle.
  - intros -> title b' Htitle Hne. cbn [run_steps]. rewrite run_step_assert.
    unfold run_assert. rewrite bool_decide_eq_true_2 by done.
    rewrite Htitle. by destruct title.
Qed.

(** A scenario ends passed or failed. *)
Lemma run_steps_status base_url steps r b :
  sr_status (run_steps drv base_url steps r b).1 = "passed" ∨
  sr_status (run_steps drv base_url steps r b).1 = "failed".
Proof.
  revert r b. induction steps as [|st steps IH]; intros r b; simpl.
  - by left.
  - destruct (run_step drv base_url st b); [apply IH|by right..].
Qed.

Lemma execute_scenario_status scenario base_url b :
  sr_status (execute_scenario drv scenario base_url b).1 = "passed" ∨
  sr_status (execute_scenario drv scenario base_url b).1 = "failed".
Proof. apply run_steps_status. Qed.

Lemma executed_insert base_url scenarios results scenario b :
  executed drv base_url scenarios results →
  scenario ∈ scenarios →
  executed drv base_url scenarios
    (<[sd_id scenario := (execute_scenario drv scenario base_url b).1]> results).
Proof.
  intros Hres Hin id r. destruct (decide (sd_id scenario = id)) as [<-|Hne].
  - rewrite lookup_insert_eq. intros [= <-]. by exists scenario, b.
  - rewrite lookup_insert_ne by done. apply Hres.
Qed.

Lemma run_each_executed base_url auth_id scenarios todo results b :
  executed drv base_url scenarios results →
  todo ⊆ scenarios →
  executed drv base_url scenarios
    (run_each drv base_url auth_id todo results b).1.
Proof.
  revert results b. induction todo as [|scenario todo IH];
    intros results b Hres Hsub; simpl; [done|].
  assert (scenario ∈ scenarios) as Hin by (apply Hsub; left).
  assert (todo ⊆ scenarios) as Hsub' by (intros x ?; apply Hsub; by right).
  case_bool_decide; [by apply IH|].
  destruct (execute_scenario drv scenario base_url (new_page drv b))
    as [result b'] eqn:Hexec.
  apply IH; [|done].
  replace result with (execute_scenario drv scenario base_url
                         (new_page drv b)).1 by (by rewrite Hexec).
  by apply executed_insert.
Qed.

(** The loop keeps the entries it finds and adds one for every scenario it
    does not pass over. *)
Lemma run_each_keys base_url auth_id todo results b id :
  is_Some (results !! id) ∨
  (∃ scenario, scenario ∈ todo ∧ sd_id scenario = id ∧ Some id ≠ auth_id) →
  is_Some ((run_each drv base_url auth_id todo results b).1 !! id).
Proof.
  revert results b. induction todo as [|scenario todo IH];
    intros results b Hid; simpl.
  - destruct Hid as [?|(? & []%elem_of_nil & _)]; done.
  - case_bool_decide as Hauth.
    + apply IH. destruct Hid as [?|(sc & [->|?]%elem_of_cons & <- & Hne)];
        [by left|done|]. right. by exists sc.
    + destruct (execute_scenario drv scenario base_url (new_page drv b))
        as [result b'].
      apply IH. destruct Hid as [?|(sc & [->|?]%elem_of_cons & <- & Hne)].
      * left. rewrite lookup_insert_is_Some'. by right.
      * left. rewrite lookup_insert_is_Some'. by left.
      * right. by exists sc.
Qed.

Lemma find_auth_scenario_elem_of scenarios auth :
  find_auth_scenario scenarios = Some auth → auth ∈ scenarios.
Proof.
  unfold find_auth_scenario. intros Hfind.
  destruct (head (filter _ scenarios)) as [s|]; [|done]. simpl in Hfind.
  destruct (sd_depends_on s) as [d|]; [|done]. simpl in Hfind.
  apply head_Some_elem_of in Hfind.
  by apply list_elem_of_filter in Hfind as [_ ?].
Qed.



End facts.

End ExecutorFacts.

(** * The composite exit code of the batch executor *)

Module SpriteExecute.
Import PyStr Sprite.

Section facts.
Variable run_test : bool → nat → Scenario → Subprocess.

Lemma result_of_stdout_cases stdout :
  result_of_stdout stdout ∈ ["passed"; "failed"; "skipped"].
Proof.
  unfold result_of_stdout. repeat case_match; set_solver.
Qed.

Lemma execute_one_results acc entry :
  (execute_one run_test acc entry).2
  = <[test_id entry.1 entry.2 := outcome_status run_test entry]> acc.2.
Proof.
  destruct acc as [out res], entry as [i sc]. unfold outcome_status. simpl.
  by destruct (run_test _ _ _).
Qed.

Lemma outcome_status_cases entry :
  outcome_status run_test entry ∈ ["passed"; "failed"; "skipped"].
Proof.
  unfold outcome_status. destruct (run_test _ _ _);
    [apply result_of_stdout_cases | set_solver..].
Qed.

(** The statuses stored by the loop are the three the code writes. *)
Lemma loop_statuses entries acc :
  map_Forall (λ _ r, r ∈ ["passed"; "failed"; "skipped"]) acc.2 →
  map_Forall (λ _ r, r ∈ ["passed"; "failed"; "skipped"])
    (foldl (execute_one run_test) acc entries).2.
Proof.
  revert acc. induction entries as [|entry entries IH]; intros acc Hacc;
    [done|].
  simpl. apply IH. rewrite execute_one_results.
  apply map_Forall_insert_2; [apply outcome_status_cases | done].
Qed.

(** The keys stored by the loop are the test ids of the scenarios. *)
Lemma loop_keys entries acc id :
  is_Some ((foldl (execute_one run_test) acc entries).2 !! id) ↔
  is_Some (acc.2 !! id) ∨ ∃ entry, entry ∈ entries ∧ test_id entry.1 entry.2 = id.
Proof.
  revert acc. induction entries as [|entry entries IH]; intros acc; simpl.
  - split; [by left | intros [?|(? & []%elem_of_nil & _)]; done].
  - rewrite IH, execute_one_results, lookup_insert_is_Some'. split.
    + intros [[?|?]|(e & ? & ?)]; [right|left|right]; try done.
      * exists entry. split; [left|done].
      * exists e. split; [by right|done].
    + intros [?|(e & [->|?]%elem_of_cons & ?)]; [left; by right|left; by left|].
      right. by exists e.
Qed.

Lemma count_status_zero status (m : gmap string string) :
  count_status status m = 0 ↔ ∀ id, m !! id ≠ Some status.
Proof.
  unfold count_status. rewrite map_size_empty_iff, map_empty_filter. split.
  - intros Hall id Hid. by apply (Hall id status Hid).
  - intros Hnone id r Hid. simpl. intros ->. by apply (Hnone id).
Qed.

(** The exit code read off the entries of [results]: they hold one of the
    three statuses for the test id of every scenario, and nothing else; the
    exit code is 1 exactly when one of them is failed. *)
Lemma exit_code_of_results (all_scenarios : list Scenario) :
  let out := testsprite_generate_code_and_execute run_test all_scenarios in
  (∀ id, is_Some (out_results out !! id) ↔
         ∃ i sc, all_scenarios !! i = Some sc ∧ test_id i sc = id) ∧
  (∀ id r, out_results out !! id = Some r →
           r = "passed" ∨ r = "failed" ∨ r = "skipped") ∧
  (exit_code out = 0%Z ↔
     ∀ i sc, all_scenarios !! i = Some sc →
       out_results out !! test_id i sc = Some "passed" ∨
       out_results out !! test_id i sc = Some "skipped") ∧
  (exit_code out = 1%Z ↔
     ¬ ∀ i sc, all_scenarios !! i = Some sc →
       out_results out !! test_id i sc = Some "passed" ∨
       out_results out !! test_id i sc = Some "skipped") ∧
  (exit_code out = 1%Z ↔
     ∃ i sc, all_scenarios !! i = Some sc ∧
       out_results out !! test_id i sc = Some "failed").
Proof.
  unfold testsprite_generate_code_and_execute.
  pose proof (loop_statuses (imap pair all_scenarios) ([], ∅)
                (map_Forall_empty _)) as Hstat.
  pose proof (loop_keys (imap pair all_scenarios) ([], ∅)) as Hkeys.
  destruct (foldl _ _ _) as [all_stdout all_results]. simpl in *.
  assert (∀ id, is_Some (all_results !! id) ↔
            ∃ i sc, all_scenarios !! i = Some sc ∧ test_id i sc = id) as Hdom.
  { intros id. rewrite Hkeys, lookup_empty. split.
    - intros [[? [=]]|([i sc] & Hin & Hid)].
      apply elem_of_lookup_imap in Hin as (j & y & [= -> ->] & Hj). eauto.
    - intros (i & sc & Hi & Hid). right. exists (i, sc). split; [|done].
      by apply (elem_of_lookup_imap_2 pair). }
  assert (∀ id r, all_results !! id = Some r →
            r = "passed" ∨ r = "failed" ∨ r = "skipped") as Hthree.
  { intros id r Hr. specialize (Hstat id r Hr). simpl in Hstat.
    apply elem_of_cons in Hstat as [->|Hstat]; [by left|].
    apply elem_of_cons in Hstat as [->|Hstat]; [right; by left|].
    apply elem_of_cons in Hstat as [->|Hstat]; [right; by right|].
    by apply elem_of_nil in Hstat. }
  assert (count_status "failed" all_results = 0 ↔
          ∀ i sc, all_scenarios !! i = Some sc →
            all_results !! test_id i sc = Some "passed" ∨
            all_results !! test_id i sc = Some "skipped") as Hzero.
  { rewrite count_status_zero. split.
    - intros Hnone i sc Hi.
      destruct (proj2 (Hdom (test_id i sc))) as [r Hr]; [eauto|].
      destruct (Hthree _ _ Hr) as [->| [->| ->]]; [by left| |by right].
      by destruct (Hnone (test_id i sc)).
    - intros Hall id Hid.
      destruct (proj1 (Hdom id)) as (i & sc & Hi & <-); [eauto|].
      destruct (Hall i sc Hi) as [Hp|Hp]; rewrite Hp in Hid; done. }
  assert (count_status "failed" all_results ≠ 0 ↔
          ∃ i sc, all_scenarios !! i = Some sc ∧
            all_results !! test_id i sc = Some "failed") as Hsome.
  { split.
    - unfold count_status. rewrite map_size_non_empty_iff.
      intros (id & r & [Hid Hr]%map_lookup_filter_Some)%map_choose.
      simpl in Hr. subst r.
      destruct (proj1 (Hdom id)) as (i & sc & Hi & <-); eauto.
    - rewrite count_status_zero.
      intros (i & sc & Hi & Hf) Hnone. by apply (Hnone (test_id i sc)). }
  split_and!; try done.
  - case_bool_decide as Hf.
    + split; [intros _; by apply Hzero | done].
    + split; [done | intros Hall; by apply Hzero in Hall].
  - case_bool_decide as Hf.
    + split; [done | intros Hn; destruct Hn; by apply Hzero].
    + split; [intros _ Hall; by apply Hzero in Hall | done].
  - case_bool_decide as Hf.
    + split; [done | intros Hex; by apply Hsome in Hex].
    + split; [intros _; by apply Hsome | done].
Qed.


(** What the loop has stored under a test id is the status of the last
    scenario that ran under it. *)
Lemma loop_last_writer entries id r :
  (foldl (execute_one run_test) ([], ∅) entries).2 !! id = Some r ↔
  ∃ k entry,
    entries !! k = Some entry ∧ test_id entry.1 entry.2 = id ∧
    outcome_status run_test entry = r ∧
    ∀ k' later, k < k' → entries !! k' = Some later →
      test_id later.1 later.2 ≠ id.
Proof.
  induction entries as [|x entries IH] using rev_ind.
  - simpl. rewrite lookup_empty. split; [done|]. by intros (k & e & ? & _).
  - rewrite foldl_app. simpl. rewrite execute_one_results.
    destruct (decide (test_id x.1 x.2 = id)) as [Hx|Hx].
    + rewrite <-Hx at 1. rewrite lookup_insert_eq. split.
      * intros [= <-]. exists (length entries), x.
        split_and!; [by apply list_lookup_middle|done..|].
        intros k' later Hlt Hk'. apply lookup_lt_Some in Hk'.
        rewrite length_app in Hk'. simpl in Hk'. lia.
      * intros (k & e & Hk & He & <- & Hlast).
        destruct (decide (k = length entries)) as [->|Hne].
        -- rewrite list_lookup_middle in Hk by done. by injection Hk as <-.
        -- pose proof (lookup_lt_Some _ _ _ Hk) as Hlen.
           rewrite length_app in Hlen. simpl in Hlen.
           destruct (Hlast (length entries) x); [lia| |done].
           by apply list_lookup_middle.
    + rewrite lookup_insert_ne by done. rewrite IH. split.
      * intros (k & e & Hk & He & Hr & Hlast). exists k, e.
        split_and!; [by apply lookup_app_l_Some|done..|].
        intros k' later Hlt Hk'.
        destruct (decide (k' = length entries)) as [->|Hne].
        -- rewrite list_lookup_middle in Hk' by done. by injection Hk' as <-.
        -- pose proof (lookup_lt_Some _ _ _ Hk') as Hlen.
           rewrite length_app in Hlen. simpl in Hlen.
           rewrite lookup_app_l in Hk' by lia. by apply (Hlast k').
      * intros (k & e & Hk & He & Hr & Hlast).
        destruct (decide (k = length entries)) as [->|Hne].
        -- rewrite list_lookup_middle in Hk by done. injection Hk as <-. done.
        -- pose proof (lookup_lt_Some _ _ _ Hk) as Hlen.
           rewrite length_app in Hlen. simpl in Hlen.
           rewrite lookup_app_l in Hk by lia. exists k, e.
           split_and!; [done..|].
           intros k' later Hlt Hk'. apply (Hlast k'); [done|].
           by apply lookup_app_l_Some.
Qed.

Lemma outcome_failed i sc :
  outcome_status run_test (i, sc) = "failed" ↔ scenario_failed run_test i sc.
Proof.
  unfold outcome_status, scenario_failed, result_of_stdout. simpl.
  destruct (run_test _ _ _) as [stdout| |e]; [|done..].
  destruct (contains "[PASSED]" stdout), (contains "[FAILED]" stdout),
    (contains "[SKIPPED]" stdout); split; (done || by intros [? ?]).
Qed.

Lemma outcome_not_failed i sc :
  outcome_status run_test (i, sc) = "passed" ∨
  outcome_status run_test (i, sc) = "skipped" ↔
  ¬ scenario_failed run_test i sc.
Proof.
  rewrite <-outcome_failed.
  pose proof (outcome_status_cases (i, sc)) as Hcases.
  repeat (apply elem_of_cons in Hcases as [->|Hcases]);
    [| |  |by apply elem_of_nil in Hcases].
  - split; [done|by left].
  - split; [by intros [?|?]|done].
  - split; [done|by right].
Qed.

(** With pairwise distinct test ids every scenario is the last one under its
    id. *)
Lemma last_with_id_NoDup (all_scenarios : list Scenario) i sc :
  NoDup (imap test_id all_scenarios) →
  last_with_id all_scenarios i sc ↔ all_scenarios !! i = Some sc.
Proof.
  intros Hnd. split; [by intros [? _]|]. intros Hi. split; [done|].
  intros j later Hlt Hj Heq.
  assert (imap test_id all_scenarios !! i = Some (test_id i sc)) as Hi'
    by (by rewrite list_lookup_imap, Hi).
  assert (imap test_id all_scenarios !! j = Some (test_id i sc)) as Hj'
    by (by rewrite list_lookup_imap, Hj, <-Heq).
  pose proof (NoDup_lookup _ _ _ _ Hnd Hi' Hj'). lia.
Qed.

(** C5, amended. The composite exit code follows the entries of [results],
    and the entry under a test id is the outcome of the last scenario that
    ran under it: what [results] holds under an id is the status of the last
    scenario with that id; that status is failed exactly when its test ran
    out of time, could not be run, or printed [[FAILED]] and no [[PASSED]],
    and is passed or skipped otherwise; the exit code is 1 exactly when the
    last scenario of some test id failed, and 0 exactly when none did. When
    the test ids of the batch are pairwise distinct, the exit code is 1
    exactly when at least one scenario failed, and 0 exactly when every
    scenario passed or was skipped. *)
Theorem exit_code_last_scenarios (all_scenarios : list Scenario) :
  let out := testsprite_generate_code_and_execute run_test all_scenarios in
  (∀ id r, out_results out !! id = Some r ↔
     ∃ i sc, last_with_id all_scenarios i sc ∧ test_id i sc = id ∧
             outcome_status run_test (i, sc) = r) ∧
  (∀ i sc,
     (outcome_status run_test (i, sc) = "failed" ↔
      scenario_failed run_test i sc) ∧
     (outcome_status run_test (i, sc) = "passed" ∨
      outcome_status run_test (i, sc) = "skipped" ↔
      ¬ scenario_failed run_test i sc)) ∧
  (exit_code out = 1%Z ↔
     ∃ i sc, last_with_id all_scenarios i sc ∧ scenario_failed run_test i sc) ∧
  (exit_code out = 0%Z ↔
     ∀ i sc, last_with_id all_scenarios i sc → ¬ scenario_failed run_test i sc) ∧
  (NoDup (imap test_id all_scenarios) →
     (exit_code out = 1%Z ↔
        ∃ i sc, all_scenarios !! i = Some sc ∧ scenario_failed run_test i sc) ∧
     (exit_code out = 0%Z ↔
        ∀ i sc, all_scenarios !! i = Some sc →
          outcome_status run_test (i, sc) = "passed" ∨
          outcome_status run_test (i, sc) = "skipped")).
Proof.
  unfold testsprite_generate_code_and_execute.
  pose proof (loop_last_writer (imap pair all_scenarios)) as Hloop.
  destruct (foldl _ _ _) as [all_stdout all_results]. simpl in *.
  assert (∀ id r, all_results !! id = Some r ↔
            ∃ i sc, last_with_id all_scenarios i sc ∧ test_id i sc = id ∧
                    outcome_status run_test (i, sc) = r) as Hres.
  { intros id r. rewrite Hloop. unfold last_with_id. split.
    - intros (k & [i sc] & Hk & Hid & Hr & Hlast).
      rewrite list_lookup_imap in Hk.
      destruct (all_scenarios !! k) as [sc'|] eqn:Hsc; [|done].
      injection Hk as <- <-. exists k, sc'. split_and!; [done| |done..].
      intros j later Hlt Hj. simpl in Hid. rewrite Hid.
      apply (Hlast j (j, later)); [done|].
      by rewrite list_lookup_imap, Hj.
    - intros (i & sc & [Hi Hlast] & Hid & Hr). exists i, (i, sc).
      split_and!; [by rewrite list_lookup_imap, Hi|done..|].
      intros k' [j later] Hlt Hk'. rewrite list_lookup_imap in Hk'.
      destruct (all_scenarios !! k') as [sc'|] eqn:Hsc; [|done].
      injection Hk' as <- <-. simpl. rewrite <-Hid. by apply Hlast. }
  assert (count_status "failed" all_results ≠ 0 ↔
          ∃ i sc, last_with_id all_scenarios i sc ∧
                  scenario_failed run_test i sc) as Hsome.
  { split.
    - unfold count_status. rewrite map_size_non_empty_iff.
      intros (id & r & [Hid Hr]%map_lookup_filter_Some)%map_choose.
      simpl in Hr. subst r.
      apply Hres in Hid as (i & sc & Hlast & _ & Hf%outcome_failed). eauto.
    - rewrite count_status_zero.
      intros (i & sc & Hlast & Hf%outcome_failed) Hnone.
      apply (Hnone (test_id i sc)). apply Hres. eauto. }
  assert ((if bool_decide (count_status "failed" all_results = 0)
           then 0%Z else 1%Z) = 1%Z ↔
          ∃ i sc, last_with_id all_scenarios i sc ∧
                  scenario_failed run_test i sc) as Hone.
  { case_bool_decide as Hf.
    - split; [done | intros Hex; by apply Hsome in Hex].
    - split; [intros _; by apply Hsome | done]. }
  assert ((if bool_decide (count_status "failed" all_results = 0)
           then 0%Z else 1%Z) = 0%Z ↔
          ∀ i sc, last_with_id all_scenarios i sc →
                  ¬ scenario_failed run_test i sc) as Hnil.
  { case_bool_decide as Hf.
    - split; [|done]. intros _ i sc Hlast Hfailed.
      apply Hsome; [eauto|done].
    - split; [done|]. intros Hall. apply Hsome in Hf as (i & sc & ? & ?).
      by destruct (Hall i sc). }
  split_and!; [done| |done|done|].
  - intros i sc. split; [apply outcome_failed|apply outcome_not_failed].
  - intros Hnd. rewrite Hone, Hnil. split.
    + split; intros (i & sc & Hi & Hf); exists i, sc.
      * split; [by destruct Hi|done].
      * split; [by apply (proj2 (last_with_id_NoDup _ _ _ Hnd))|done].
    + split.
      * intros Hall i sc Hi. apply outcome_not_failed, Hall.
        by apply (proj2 (last_with_id_NoDup _ _ _ Hnd)).
      * intros Hall i sc [Hi _]. by apply outcome_not_failed, Hall.
Qed.

End facts.

(** C5, as stated, fails: two plan files number their scenarios alike, the
    test of the first scenario prints a failure and the test of the second,
    run under the same test id, passes. The result of the first scenario is
    failed, its entry of [results] is overwritten, no failure is counted and
    the composite exit code is 0. *)
Lemma composite_exit_code_counterexample :
  let out :=
    testsprite_generate_code_and_execute shared_id_tests shared_id_batch in
  (∃ sc, shared_id_batch !! 0 = Some sc ∧
         outcome_status shared_id_tests (0, sc) = "failed") ∧
  tests_executed out = 2 ∧
  out_results out !! "TC001" = Some "passed" ∧
  out_failed out = 0 ∧
  exit_code out = 0%Z.
Proof. split; [eexists; split; [reflexivity|]|]; by vm_compute. Qed.

End SpriteExecute.

(** * The retry loop of the stage graph *)

Module SpriteGraph.
Import PyStr Sprite.

Lemma invocations_app name l1 l2 :
  invocations name (l1 ++ l2) = invocations name l1 + invocations name l2.
Proof. unfold invocations. by rewrite filter_app, length_app. Qed.

Lemma invocations_execute name :
  invocations "execute" (node_names name)
  = match name with Execute => 1 | _ => 0 end.
Proof. by destruct name; vm_compute. Qed.

Lemma run_steps_on_event n update r :
  run_steps (on_event n update r) = run_steps r ++ node_names n.
Proof. reflexivity. Qed.

Lemma stream_step env limit n state r :
  stream env (S limit) n state r =
    let update := node_update env n (run_steps r) state in
    match next_node n (merge state update) with
    | None => (negb (Nat.eqb limit 0), merge state update, on_event n update r)
    | Some n' => stream env limit n' (merge state update) (on_event n update r)
    end.
Proof. reflexivity. Qed.

Lemma should_fix_iff state :
  should_fix state = "fix_tests" ↔
  get_exit_code state ≠ 0%Z ∧ get_retries state < get_max_retries state.
Proof.
  unfold should_fix.
  destruct (bool_decide_reflect (get_exit_code state = 0%Z));
    destruct (bool_decide_reflect (get_retries state < get_max_retries state));
    simpl; split; try done; intros [? ?]; done.
Qed.

(** What a failing round of [execute] leaves in the state. *)
Lemma execute_round env steps state :
  always_failing env →
  let state' := merge state (node_update env Execute steps state) in
  get_exit_code state' ≠ 0%Z ∧
  get_retries state' = get_retries state ∧
  get_max_retries state' = get_max_retries state.
Proof.
  intros Hfail. destruct (Hfail (invocations "execute" steps))
    as (scs & run_test & Hcall & Hcode).
  simpl. rewrite Hcall. simpl. unfold get_exit_code, get_retries, get_max_retries.
  simpl. split_and!; [done| |].
  - by destruct (retries state).
  - by destruct (max_retries state).
Qed.

Lemma fix_round env steps state :
  let state' := merge state (node_update env FixTests steps state) in
  get_exit_code state' = get_exit_code state ∧
  get_retries state' = get_retries state + 1 ∧
  get_max_retries state' = get_max_retries state.
Proof.
  simpl. unfold fix_tests_node.
  destruct (fix_success _); unfold get_exit_code, get_retries, get_max_retries;
    simpl; (split_and!; [by destruct (test_results state) | done
                        | by destruct (max_retries state)]).
Qed.

(** The handler of [fix_tests_node] for an exception of the tool call logs
    the error and, unlike the two branches above, leaves [retries] alone; the
    tool catches what it raises, so the graph does not get there. *)
Lemma fix_node_raised e state :
  get_retries (merge state (fix_tests_node (Raised e) state))
  = get_retries state.
Proof. unfold get_retries. simpl. by destruct (retries state). Qed.

Lemma report_round env steps state :
  get_retries (merge state (node_update env Report steps state))
  = get_retries state.
Proof.
  simpl. unfold report_node, get_retries.
  destruct (report_tool env); simpl; by destruct (retries state).
Qed.

(** The loop [execute -> fix_tests -> execute] with [j] retries left. *)
Lemma retry_loop env (j : nat) :
  always_failing env →
  ∀ limit state r,
    get_max_retries state = get_retries state + j →
    2 * j + 3 ≤ limit →
    ∃ state' r',
      stream env limit Execute state r = (true, state', r') ∧
      get_retries state' = get_retries state + j ∧
      invocations "execute" (run_steps r')
        = invocations "execute" (run_steps r) + j + 1 ∧
      last (run_steps r') = Some "report".
Proof.
  intros Hfail. induction j as [|j IH]; intros limit state r Hmax Hlimit.
  - destruct limit as [|[|[|limit]]]; [lia..|].
    rewrite stream_step. cbv zeta.
    destruct (execute_round env (run_steps r) state Hfail) as (Hc & Hr & Hm).
    set (st1 := merge state _) in *. clearbody st1.
    assert (should_fix st1 ≠ "fix_tests") as Hno.
    { rewrite should_fix_iff. intros [_ ?]. clear Hfail. lia. }
    unfold next_node. rewrite bool_decide_eq_false_2 by done.
    rewrite stream_step. cbv zeta. unfold next_node.
    eexists _, _. split; [done|]. split_and!.
    + rewrite report_round. clear Hfail. lia.
    + rewrite !run_steps_on_event, !invocations_app, !invocations_execute.
      clear Hfail. lia.
    + rewrite run_steps_on_event. apply last_snoc.
  - destruct limit as [|[|[|limit]]]; [lia..|].
    rewrite stream_step. cbv zeta.
    destruct (execute_round env (run_steps r) state Hfail) as (Hc & Hr & Hm).
    set (st1 := merge state _) in *. clearbody st1.
    assert (should_fix st1 = "fix_tests") as Hyes.
    { rewrite should_fix_iff. split; [done|clear Hfail IH; lia]. }
    unfold next_node at 1. rewrite bool_decide_eq_true_2 by done.
    rewrite stream_step. cbv zeta.
    set (r1 := on_event Execute _ r).
    destruct (fix_round env (run_steps r1) st1) as (Hc2 & Hr2 & Hm2).
    set (st2 := merge st1 _) in *. clearbody st2.
    unfold next_node at 1.
    destruct (IH (S limit) st2 (on_event FixTests
                 (node_update env FixTests (run_steps r1) st1) r1))
      as (state' & r' & Hrun & Hret & Hinv & Hlast); [clear Hfail IH; lia..|].
    exists state', r'. split; [done|]. clear Hfail IH.
    split_and!; [lia| |done].
    rewrite Hinv. subst r1.
    rewrite !run_steps_on_event, !invocations_app, !invocations_execute. lia.
Qed.

(** The stages before [execute] leave the retry counters alone. *)
Lemma early_round env n steps state :
  n ∈ [Bootstrap; Analyze; Prd; Plans; JoinPlans] →
  let state' := merge state (node_update env n steps state) in
  get_retries state' = get_retries state ∧
  get_max_retries state' = get_max_retries state.
Proof.
  intros Hn. unfold get_retries, get_max_retries.
  assert (retries (merge state (node_update env n steps state)) = retries state
          ∧ max_retries (merge state (node_update env n steps state))
            = max_retries state) as [-> ->]; [|done].
  repeat (apply elem_of_cons in Hn as [->|Hn]); [..|by apply elem_of_nil in Hn];
    simpl.
  - destruct (bootstrap_tool env); simpl;
      by destruct (retries state), (max_retries state).
  - destruct (analyze_tool env) as [[??]|]; simpl;
      by destruct (retries state), (max_retries state).
  - destruct (prd_tool env); simpl;
      by destruct (retries state), (max_retries state).
  - destruct (frontend_plan_tool env), (backend_plan_tool env),
      (security_plan_tool env); simpl;
      by destruct (retries state), (max_retries state).
  - by destruct (retries state), (max_retries state).
Qed.

(** C1. For a run whose execute stage always produces a non-zero composite
    exit code, started by [run_agent_task] (so that [retries] reads 0 and
    [max_retries] reads 3), and allowed more than the thirteen steps that
    such a run takes (the runtime allows 25 unless told otherwise, and
    [run_agent_task] does not tell it): the decision after [execute] is "fix_tests" exactly when the exit
    code is non-zero and [retries < max_retries]; [execute] is streamed
    exactly four times; [retries] ends at 3; the last stage is [report]; and
    the run is recorded as completed. *)
Theorem retry_loop_bound env recursion_limit fs_project_path url :
  always_failing env →
  14 ≤ recursion_limit →
  let '(state, r) := run_agent_task env recursion_limit fs_project_path url in
  (∀ st, should_fix st = "fix_tests" ↔
         get_exit_code st ≠ 0%Z ∧ get_retries st < get_max_retries st) ∧
  get_retries (initial_state fs_project_path url) = 0 ∧
  get_max_retries (initial_state fs_project_path url) = 3 ∧
  invocations "execute" (run_steps r) = 4 ∧
  retries state = Some 3 ∧
  last (run_steps r) = Some "report" ∧
  run_status r = "completed".
Proof.
  intros Hfail Hlimit. unfold run_agent_task.
  do 5 (destruct recursion_limit as [|recursion_limit]; [clear Hfail; lia|]).
  set (st0 := initial_state fs_project_path url).
  set (r0 := {| run_status := "running"; run_steps := [] |}).
  rewrite stream_step. cbv zeta. unfold next_node at 1.
  destruct (early_round env Bootstrap (run_steps r0) st0) as [Hr1 Hm1];
    [set_solver|].
  set (st1 := merge st0 _) in *. clearbody st1. set (r1 := on_event Bootstrap _ r0).
  rewrite stream_step. cbv zeta. unfold next_node at 1.
  destruct (early_round env Analyze (run_steps r1) st1) as [Hr2 Hm2];
    [set_solver|].
  set (st2 := merge st1 _) in *. clearbody st2. set (r2 := on_event Analyze _ r1).
  rewrite stream_step. cbv zeta. unfold next_node at 1.
  destruct (early_round env Prd (run_steps r2) st2) as [Hr3 Hm3];
    [set_solver|].
  set (st3 := merge st2 _) in *. clearbody st3. set (r3 := on_event Prd _ r2).
  rewrite stream_step. cbv zeta. unfold next_node at 1.
  destruct (early_round env Plans (run_steps r3) st3) as [Hr4 Hm4];
    [set_solver|].
  set (st4 := merge st3 _) in *. clearbody st4. set (r4 := on_event Plans _ r3).
  rewrite stream_step. cbv zeta. unfold next_node at 1.
  destruct (early_round env JoinPlans (run_steps r4) st4) as [Hr5 Hm5];
    [set_solver|].
  set (st5 := merge st4 _) in *. clearbody st5. set (r5 := on_event JoinPlans _ r4).
  assert (get_retries st5 = 0 ∧ get_max_retries st5 = 3) as [Hr Hm].
  { rewrite Hr5, Hr4, Hr3, Hr2, Hr1, Hm5, Hm4, Hm3, Hm2, Hm1. done. }
  destruct (retry_loop env 3 Hfail recursion_limit st5 r5)
    as (state' & r' & -> & Hret & Hinv & Hlast); [clear Hfail; lia..|].
  cbn beta iota zeta delta [run_steps run_status].
  split; [apply should_fix_iff|]. split_and!; try done.
  rewrite Hr in Hret. unfold get_retries in Hret.
  destruct (retries state'); simpl in *; [by f_equal|clear Hfail; lia].
Qed.

Lemma retry_loop_bound_witness :
  always_failing stuck_env ∧ 14 ≤ 25 ∧
  let '(state, r) := run_agent_task stuck_env 25 "/tmp/run" "http://shop.test" in
  (∀ st, should_fix st = "fix_tests" ↔
         get_exit_code st ≠ 0%Z ∧ get_retries st < get_max_retries st) ∧
  get_retries (initial_state "/tmp/run" "http://shop.test") = 0 ∧
  get_max_retries (initial_state "/tmp/run" "http://shop.test") = 3 ∧
  invocations "execute" (run_steps r) = 4 ∧
  retries state = Some 3 ∧
  last (run_steps r) = Some "report" ∧
  run_status r = "completed".
Proof.
  assert (always_failing stuck_env) as Hfail.
  { intros k. eexists _, _. split; [reflexivity|]. vm_compute. discriminate. }
  split; [exact Hfail|].
  split; [lia|].
  apply (retry_loop_bound stuck_env 25 "/tmp/run" "http://shop.test");
    [exact Hfail | lia].
Defined.

End SpriteGraph.
(** * The explorer's bookkeeping: page bound, page records, modules *)

Module ExplorerBounds.
Import PyStr AppMapData Explorer ExplorerInv.

(** ** Properties kept by every step of a crawl *)

Section preserved.
Variable urlparse : string → option ParseResult.
Variable urljoin : string → string → option string.
Variable goto : string → Response.
Variable max_pages : Z.
Variable P : ExplorerAgent → Prop.

Hypothesis P_visit : ∀ url pr self,
  P self → url ∉ visited_urls self →
  ¬ (max_pages ≤ Z.of_nat (size (visited_urls self)))%Z →
  urlparse url = Some pr → netloc pr = domain self →
  P (mark_visited url self).
Hypothesis P_record : ∀ url pr dom page_info self,
  P self → url ∉ visited_urls self →
  ¬ (max_pages ≤ Z.of_nat (size (visited_urls self)))%Z →
  urlparse url = Some pr → netloc pr = domain self →
  _extract_page_info urlparse url dom = Some page_info →
  P (record_page url page_info (mark_visited url self)).

Lemma explore_links_preserved explore url links :
  (∀ u s s', P s → explore u s = Returns s' → P s') →
  ∀ self self',
    P self → explore_links urljoin explore url links self = Returns self' →
    P self'.
Proof.
  intros Hexplore. induction links as [|link links IH];
    intros self self' HP; simpl.
  - by intros [= <-].
  - destruct (urljoin url link) as [full_url|]; [|by intros [= <-]].
    case_bool_decide; [by apply IH|].
    destruct (explore full_url self) as [| |self1] eqn:Hcall;
      [done|by intros [= <-]|].
    apply IH. by apply (Hexplore full_url self).
Qed.

Lemma explore_page_preserved fuel :
  ∀ url self self',
    P self →
    _explore_page urlparse urljoin goto fuel max_pages url self
    = Returns self' →
    P self'.
Proof.
  induction fuel as [|fuel IH]; intros url self self' HP; [done|].
  simpl.
  destruct (bool_decide_reflect (url ∈ visited_urls self)) as [|Hnew];
    simpl; [by intros [= <-]|].
  destruct (bool_decide_reflect
              (max_pages ≤ Z.of_nat (size (visited_urls self)))%Z)
    as [|Hroom]; simpl; [by intros [= <-]|].
  destruct (urlparse url) as [pr|] eqn:Hpr; [|done].
  destruct (bool_decide_reflect (netloc pr = domain self)) as [Hnet|];
    simpl; [|by intros [= <-]].
  pose proof (P_visit url pr self HP Hnew Hroom Hpr Hnet) as HP1.
  destruct (goto url) as [| |[dom|]]; [by intros [= <-]..| |by intros [= <-]].
  destruct (_extract_page_info urlparse url dom) as [page_info|] eqn:Hinfo;
    [|by intros [= <-]].
  pose proof (P_record url pr dom page_info self HP Hnew Hroom Hpr Hnet Hinfo)
    as HP2.
  destruct (_extract_links dom) as [links|]; [|by intros [= <-]].
  by apply explore_links_preserved.
Qed.

End preserved.

Section facts.
Variable urlparse : string → option ParseResult.
Variable urljoin : string → string → option string.
Variable goto : string → Response.
Variable max_pages : Z.

Lemma crawl_inv_size self :
  crawl_inv max_pages self →
  size (visited_urls self) = length (goto_log self).
Proof. intros [-> Hnd _ _ _]. by apply size_list_to_set. Qed.

Lemma crawl_inv_visit url self :
  crawl_inv max_pages self →
  url ∉ visited_urls self →
  ¬ (max_pages ≤ Z.of_nat (size (visited_urls self)))%Z →
  crawl_inv max_pages (mark_visited url self).
Proof.
  intros Hinv Hnew Hroom. pose proof (crawl_inv_size self Hinv) as Hsize.
  destruct Hinv as [Hv Hnd Hb Hp Ha]. split; simpl.
  - rewrite Hv, list_to_set_snoc_L. apply (comm_L (∪)).
  - apply NoDup_app. split_and!; [done| |apply NoDup_singleton].
    intros u Hu ->%list_elem_of_singleton. apply Hnew. rewrite Hv.
    by apply elem_of_list_to_set.
  - rewrite length_app. simpl. lia.
  - by apply sublist_inserts_r.
  - done.
Qed.

Lemma crawl_inv_record url dom page_info self :
  crawl_inv max_pages self →
  url ∉ visited_urls self →
  ¬ (max_pages ≤ Z.of_nat (size (visited_urls self)))%Z →
  _extract_page_info urlparse url dom = Some page_info →
  crawl_inv max_pages (record_page url page_info (mark_visited url self)).
Proof.
  intros Hinv Hnew Hroom Hinfo.
  destruct (crawl_inv_visit url self Hinv Hnew Hroom)
    as [Hv Hnd Hb _ _].
  destruct Hinv as [_ _ _ Hp Ha].
  assert (page_url page_info = url) as Hurl.
  { unfold _extract_page_info in Hinfo. by simplify_option_eq. }
  split; simpl; [done..| |].
  - rewrite fmap_app. simpl. rewrite Hurl. by apply sublist_app.
  - rewrite filter_app, fmap_app, Ha, filter_cons, filter_nil.
    case_decide as Hauth.
    + rewrite Hauth. simpl. by rewrite Hurl.
    + apply not_true_is_false in Hauth. rewrite Hauth. simpl.
      by rewrite (right_id_L [] (++)).
Qed.

Lemma crawl_inv_new url self0 :
  new_agent urlparse url = Some self0 →
  crawl_inv max_pages self0 ∧ base_url self0 = rstrip_char "/" url.
Proof.
  unfold new_agent. destruct (urlparse url); [|done]. intros [= <-].
  split; [|done]. split; simpl; [done|apply NoDup_nil_2|lia|done|done].
Qed.

Lemma crawl_keeps_inv url self :
  crawl urlparse urljoin goto url max_pages = Returns self →
  crawl_inv max_pages self ∧ base_url self = rstrip_char "/" url.
Proof.
  unfold crawl.
  destruct (new_agent urlparse url) as [self0|] eqn:Hnew; [|done].
  destruct (crawl_inv_new url self0 Hnew) as [Hinv0 Hbase]. intros Hrun.
  pose proof (explore_page_preserved urlparse urljoin goto max_pages
    (λ s, crawl_inv max_pages s ∧ base_url s = rstrip_char "/" url)) as Hkeep.
  apply (Hkeep) in Hrun; [done| | |done].
  - intros u pr s [Hinv Hb] Hnew' Hroom _ _. split; [|done].
    by apply crawl_inv_visit.
  - intros u pr dom page_info s [Hinv Hb] Hnew' Hroom _ _ Hinfo.
    split; [|done]. by apply (crawl_inv_record u dom).
Qed.

Lemma crawl_bound_facts url self :
  crawl urlparse urljoin goto url max_pages = Returns self →
  NoDup (goto_log self) ∧
  (Z.of_nat (length (goto_log self)) ≤ Z.max 0 max_pages)%Z ∧
  size (visited_urls self) = length (goto_log self) ∧
  page_url <$> pages self `sublist_of` goto_log self ∧
  NoDup (page_url <$> pages self) ∧
  length (pages self) ≤ length (goto_log self).
Proof.
  intros Hrun. destruct (crawl_keeps_inv url self Hrun) as [Hinv _].
  pose proof (crawl_inv_size self Hinv) as Hsize.
  destruct Hinv as [Hv Hnd Hb Hp Ha]. split_and!; [done..| |].
  - by eapply sublist_NoDup.
  - apply sublist_length in Hp. by rewrite length_fmap in Hp.
Qed.

(** X1. The crawl keeps its page bound. Whatever the web looks like, when the
    crawl returns: no URL has been handed to [page.goto] twice; the number of
    requests is at most [max_pages] (none for a bound below one); the visited
    set holds as many URLs as were requested; and the recorded pages are
    pages that were requested, in the order of the requests, so that no two
    page records share a URL. *)
Theorem crawl_page_bound url :
  match crawl urlparse urljoin goto url max_pages with
  | Returns self =>
      NoDup (goto_log self) ∧
      (Z.of_nat (length (goto_log self)) ≤ Z.max 0 max_pages)%Z ∧
      size (visited_urls self) = length (goto_log self) ∧
      page_url <$> pages self `sublist_of` goto_log self ∧
      NoDup (page_url <$> pages self) ∧
      length (pages self) ≤ length (goto_log self)
  | _ => True
  end.
Proof.
  destruct (crawl urlparse urljoin goto url max_pages) as [| |self] eqn:Hrun;
    [done..|].
  by apply (crawl_bound_facts url).
Qed.

(** X2. The app map that [explore] returns: its base URL is the given URL without
    trailing slashes, [total_pages] counts the page records and is at most
    the page bound, no two page records share a URL, and [auth_pages] lists,
    in the order of the pages, the URLs of the pages typed [login],
    [register] or [password_reset]. *)
Theorem explore_app_map url :
  match explore urlparse urljoin goto url max_pages with
  | Returns app_map =>
      am_base_url app_map = rstrip_char "/" url ∧
      am_total_pages app_map = length (am_pages app_map) ∧
      (Z.of_nat (am_total_pages app_map) ≤ Z.max 0 max_pages)%Z ∧
      NoDup (page_url <$> am_pages app_map) ∧
      am_auth_pages app_map
      = page_url <$>
          filter (λ p, page_type p ∈ ["login"; "register"; "password_reset"])
            (am_pages app_map)
  | _ => True
  end.
Proof.
  unfold explore.
  destruct (crawl urlparse urljoin goto url max_pages) as [| |self] eqn:Hrun;
    [done..|].
  destruct (crawl_keeps_inv url self Hrun) as [[_ _ _ _ Ha] Hbase].
  destruct (crawl_bound_facts url self Hrun) as (_ & Hb & _ & _ & Hnd & Hlen).
  cbn [am_base_url am_total_pages am_pages am_auth_pages _group_into_modules
       base_url pages auth_pages].
  split_and!; [done|done|lia|done|].
  rewrite Ha. f_equal. apply list_filter_iff. intros p.
  unfold _is_auth_page, mem. by rewrite bool_decide_eq_true.
Qed.

Lemma explore_links_catches explore url links self :
  explore_links urljoin explore url links self ≠ Raises.
Proof.
  revert self. induction links as [|link links IH]; intros self; simpl;
    [done|].
  destruct (urljoin url link); [|done]. case_bool_decide; [apply IH|].
  destruct (explore _ self); [done|done|apply IH].
Qed.

Lemma explore_page_raises fuel url self :
  _explore_page urlparse urljoin goto (S fuel) max_pages url self = Raises ↔
  (url ∉ visited_urls self) ∧
  (Z.of_nat (size (visited_urls self)) < max_pages)%Z ∧
  urlparse url = None.
Proof.
  cbn [_explore_page].
  destruct (bool_decide_reflect (url ∈ visited_urls self)) as [|Hnew];
    cbn [orb]; [by split; [|intros [? _]]|].
  destruct (bool_decide_reflect
              (max_pages ≤ Z.of_nat (size (visited_urls self)))%Z)
    as [|Hroom]; [split; [done|intros (_ & ? & _); lia]|].
  destruct (urlparse url) as [pr|]; [|split; [intros _; split_and!|]; [done|lia|done..]].
  split; [|by intros (_ & _ & ?)]. intros Hrun. exfalso. revert Hrun.
  destruct (negb _); [done|].
  destruct (goto url) as [| |[dom|]]; [done..| |done].
  destruct (_extract_page_info _ _ _); [|done].
  destruct (_extract_links dom) as [links|]; [|done].
  apply explore_links_catches.
Qed.

(** X3. A ValueError of the URL functions escapes the explorer only for the base
    URL: the crawl raises exactly when [urlparse] rejects the given URL, or,
    with room for at least one page, the URL without its trailing slashes.
    Every other failure of [urlparse], [urljoin], the browser or the
    extraction is caught, and the crawl never fails to end. *)
Theorem explore_raises_iff url :
  explore urlparse urljoin goto url max_pages ≠ OutOfFuel ∧
  (explore urlparse urljoin goto url max_pages = Raises ↔
   urlparse url = None ∨
   ((0 < max_pages)%Z ∧ urlparse (rstrip_char "/" url) = None)).
Proof.
  pose proof (ExplorerCrawl.crawl_grows urlparse urljoin goto max_pages url)
    as Hgrows.
  assert (crawl urlparse urljoin goto url max_pages = Raises ↔
          urlparse url = None ∨
          ((0 < max_pages)%Z ∧ urlparse (rstrip_char "/" url) = None))
    as Hraises.
  { unfold crawl, new_agent. destruct (urlparse url) as [pr|]; cbn [mbind option_bind];
      [|by split; [left|]].
    rewrite explore_page_raises. cbn [visited_urls base_url].
    rewrite size_empty. split.
    - intros (_ & ? & ?). right. split; [lia|done].
    - intros [|[? ?]]; [done|]. split_and!; [set_solver|lia|done]. }
  unfold explore.
  destruct (crawl urlparse urljoin goto url max_pages) as [| |self];
    [done| |].
  - split; [done|]. split; [intros _|done]. by apply Hraises.
  - split; [done|]. split; [done|]. intros Hcase. by apply Hraises in Hcase.
Qed.

(** X4. With no room for a page the explorer asks the browser for nothing and
    returns the empty app map. *)
Theorem explore_no_room url pr :
  (max_pages ≤ 0)%Z →
  urlparse url = Some pr →
  crawl urlparse urljoin goto url max_pages
  = Returns {| base_url := rstrip_char "/" url; domain := netloc pr;
               visited_urls := ∅; pages := []; modules := [];
               auth_pages := []; goto_log := [] |} ∧
  explore urlparse urljoin goto url max_pages
  = Returns {| am_base_url := rstrip_char "/" url; am_total_pages := 0;
               am_pages := []; am_modules := []; am_auth_pages := [] |}.
Proof.
  intros Hmax Hpr.
  assert (crawl urlparse urljoin goto url max_pages
          = Returns {| base_url := rstrip_char "/" url; domain := netloc pr;
               visited_urls := ∅; pages := []; modules := [];
               auth_pages := []; goto_log := [] |}) as Hcrawl.
  { unfold crawl, new_agent. rewrite Hpr. cbn [mbind option_bind].
    cbn [_explore_page base_url visited_urls]. rewrite size_empty.
    rewrite (bool_decide_eq_true_2 (max_pages ≤ _)%Z) by lia.
    by rewrite orb_true_r. }
  split; [done|]. unfold explore. by rewrite Hcrawl.
Qed.

End facts.

Lemma explore_no_room_witness :
  (0 ≤ 0)%Z ∧
  explore sample_urlparse sample_urljoin sample_goto "https://host/" 0
  = Returns {| am_base_url := "https://host"; am_total_pages := 0;
               am_pages := []; am_modules := []; am_auth_pages := [] |}.
Proof.
  split; [lia|].
  apply (explore_no_room sample_urlparse sample_urljoin sample_goto 0
           "https://host/" {| netloc := "host"; path := "/" |});
    [lia|reflexivity].
Defined.

End ExplorerBounds.
(** * What the explorer records of a page *)

Module ExplorerPages.
Import PyStr AppMapData Explorer ExplorerInv.

Lemma or_else_nonempty a b : b ≠ "" → or_else a b ≠ "".
Proof. unfold or_else. by destruct a. Qed.

Lemma attr_or_nonempty e k dflt : dflt ≠ "" → attr_or e k dflt ≠ "".
Proof.
  intros Hd. unfold attr_or. destruct (get_attribute e k); [|done].
  by apply or_else_nonempty.
Qed.

Lemma truthy_true s : truthy s = true ↔ s ≠ "".
Proof. by destruct s. Qed.

Lemma truthy_false s : truthy s = false ↔ s = "".
Proof. by destruct s. Qed.

Lemma mem_true x xs : mem x xs = true ↔ x ∈ xs.
Proof. unfold mem. by rewrite bool_decide_eq_true. Qed.

Lemma mem_false x xs : mem x xs = false ↔ x ∉ xs.
Proof. unfold mem. by rewrite bool_decide_eq_false. Qed.

Lemma app_nonempty (a b : string) : a ≠ "" → a +:+ b ≠ "".
Proof. by destruct a. Qed.

Lemma join_nonempty sep s l : s ≠ "" → join sep (s :: l) ≠ "".
Proof.
  intros Hs. unfold join. simpl. destruct l; [done|].
  destruct s; [done|]. done.
Qed.

(** [_detect_page_type] answers with one of twelve page types. *)
Lemma detect_page_type_closed path title forms :
  _detect_page_type_of_path path title forms ∈ page_types.
Proof.
  unfold _detect_page_type_of_path, page_types.
  repeat (match goal with
          | |- context [if ?b then _ else _] => destruct b
          end); set_solver.
Qed.

(** [_determine_button_action] answers with one of ten actions. *)
Lemma determine_button_action_closed text css_class onclick :
  _determine_button_action text css_class onclick ∈ button_actions.
Proof.
  unfold _determine_button_action, button_actions.
  repeat (match goal with
          | |- context [if ?b then _ else _] => destruct b
          end); set_solver.
Qed.

Lemma prefix_refl s : String.prefix s s = true.
Proof. induction s as [|a s IH]; simpl; [done|]. by destruct (ascii_dec a a). Qed.

Lemma prefix_app p r : String.prefix p (p +:+ r) = true.
Proof.
  induction p as [|a p IH]; simpl; [by destruct r|].
  by destruct (ascii_dec a a).
Qed.

Lemma join_cons_prefix sep s l : startswith s (join sep (s :: l)) = true.
Proof.
  unfold startswith, join. simpl. destruct l; [apply prefix_refl|].
  apply prefix_app.
Qed.

(** ** [_build_input_selector] *)

Lemma build_input_selector_nonempty inp_id inp_name inp_type inp_class
    selector :
  _build_input_selector inp_id inp_name inp_type inp_class = Some selector →
  selector ≠ "" ∧
  (inp_id ≠ "" → startswith ("#" +:+ inp_id) selector = true).
Proof.
  unfold _build_input_selector.
  destruct (truthy inp_type && truthy inp_class).
  - destruct (split inp_class) as [|first_class rest];
      cbn [head mbind option_bind]; [done|].
    intros [= <-].
    destruct inp_id as [|a i], inp_name as [|b n], inp_type as [|c t];
      cbn [truthy app take];
      (split; [|intros Hid; first [done|apply join_cons_prefix]]);
      first [done|by apply join_nonempty].
  - cbn [mbind option_bind]. intros [= <-].
    destruct inp_id as [|a i], inp_name as [|b n], inp_type as [|c t];
      cbn [truthy app take];
      (split; [|intros Hid; first [done|apply join_cons_prefix]]);
      first [done|by apply join_nonempty].
Qed.

(** X5. The selector construction fails on one kind of input only: one that has a
    type and whose class attribute is not empty but holds no class name
    (white space only), where [inp_class.split()[0]] raises. When it
    answers, the selector is not empty, it is [input] when id, name and type
    are all empty, and an id, when there is one, comes first. *)
Theorem build_input_selector_cases inp_id inp_name inp_type inp_class :
  (_build_input_selector inp_id inp_name inp_type inp_class = None ↔
   inp_type ≠ "" ∧ inp_class ≠ "" ∧ split inp_class = []) ∧
  (∀ selector,
     _build_input_selector inp_id inp_name inp_type inp_class = Some selector →
     selector ≠ "" ∧
     (inp_id = "" ∧ inp_name = "" ∧ inp_type = "" → selector = "input") ∧
     (inp_id ≠ "" → startswith ("#" +:+ inp_id) selector = true)).
Proof.
  unfold _build_input_selector.
  destruct (truthy inp_type && truthy inp_class) eqn:Hboth.
  - apply andb_prop in Hboth as [Ht%truthy_true Hc%truthy_true].
    destruct (split inp_class) as [|first_class rest]; cbn [head mbind option_bind].
    + split; [by split|done].
    + split; [split; [done|by intros (_ & _ & ?)]|].
      intros selector [= <-].
      destruct inp_id as [|a i], inp_name as [|b n], inp_type as [|c t];
        try done; cbn [truthy app take];
        (split_and!; [|by intros (? & ? & ?)
                      |intros Hid; first [done|apply join_cons_prefix]]);
        by apply join_nonempty.
  - cbn [mbind option_bind].
    split.
    { split; [done|]. intros (Ht%truthy_true & Hc%truthy_true & _).
      by rewrite Ht, Hc in Hboth. }
    intros selector [= <-].
    destruct inp_id as [|a i], inp_name as [|b n], inp_type as [|c t];
      cbn [truthy app take];
      (split_and!; [|by intros (? & ? & ?)
                    |intros Hid; first [done|apply join_cons_prefix]]);
      try done; by apply join_nonempty.
Qed.

(** The class attributes that hold no class name are those of white space
    only, the no-break space included. *)
Lemma blank_class inp_class :
  split inp_class = [] ↔
  Forall (λ c, is_space c = true) (list_ascii_of_string inp_class).
Proof. by rewrite PyStrSpace.split_nil, PyStrSpace.lstrip_blank. Qed.

Example build_input_selector_raises :
  _build_input_selector "" "" "text" nbsp = None ∧
  _build_input_selector "" "" "text" unit_separator = None ∧
  _build_input_selector "" "" "text" (nbsp +:+ "wide")
  = Some "input[type='text'].wide, input[type='text']".
Proof. by vm_compute. Qed.

(** ** Forms *)

Lemma extract_field_ok inp fields :
  extract_field inp = Some fields → Forall field_ok fields.
Proof.
  unfold extract_field.
  destruct (mem (attr_or inp "type" "text") ["hidden"; "submit"]) eqn:Hty;
    cbn [negb]; [by intros [= <-]|].
  destruct (_build_input_selector _ _ _ _) as [selector|] eqn:Hsel; [|done].
  cbn [mbind option_bind]. intros [= <-].
  destruct (build_input_selector_nonempty _ _ _ _ _ Hsel) as (Hne & Hid).
  apply Forall_singleton. unfold field_ok. cbn.
  split_and!; [by apply mem_false|by apply attr_or_nonempty|done|done].
Qed.

Lemma mapM_Forall {A B} (f : A → option (list B)) (P : B → Prop) l k :
  (∀ x y, f x = Some y → Forall P y) →
  mapM f l = Some k → Forall P (concat k).
Proof.
  intros Hf Hl. apply mapM_Some_1 in Hl.
  induction Hl as [|x y l k Hxy _ IH]; simpl; [done|].
  apply Forall_app. split; [by apply (Hf x)|done].
Qed.

Lemma extract_form_ok i fe form :
  extract_form i fe = Some form → form_ok form.
Proof.
  unfold extract_form. intros Hform.
  destruct (if truthy (attr_or (fe_form fe) "action" "") && _ then _ else _)
    as [form_selector|] eqn:Hsel; [|done].
  cbn [mbind option_bind] in Hform.
  destruct (mapM extract_field (fe_inputs fe)) as [fields|] eqn:Hfields;
    [|done].
  cbn [mbind option_bind] in Hform.
  destruct (match fe_submit fe with Some _ => _ | None => _ end)
    as [[submit_text submit_selector]|]; [|done].
  cbn [mbind option_bind] in Hform. injection Hform as <-.
  unfold form_ok. cbn. split_and!.
  - apply attr_or_nonempty. done.
  - revert Hsel. repeat case_match; try done; intros Hsel;
      simplify_option_eq; done.
  - done.
  - apply (mapM_Forall extract_field field_ok (fe_inputs fe));
      [apply extract_field_ok|done].
Qed.

Lemma extract_forms_each dom forms :
  _extract_forms dom = Some forms → Forall form_ok forms.
Proof.
  unfold _extract_forms. intros Hforms. apply mapM_Some_1 in Hforms.
  induction Hforms as [|[i fe] form l k Hform _ IH]; [done|].
  constructor; [by apply (extract_form_ok i fe)|done].
Qed.

(** X6. Every form that [_extract_forms] records has an id and a selector that
    are not empty and a submit text; none of its fields is a hidden or a
    submit input, every field has a type and a non-empty selector, and the
    selector of a field with an id starts with [#id]. There is one record
    per form of the page. *)
Theorem extract_forms_ok dom forms :
  _extract_forms dom = Some forms →
  length forms = length (dom_forms dom) ∧ Forall form_ok forms.
Proof.
  unfold _extract_forms. intros Hforms.
  pose proof (length_mapM _ _ _ Hforms) as Hlen.
  rewrite length_imap in Hlen. split; [done|].
  apply mapM_Some_1 in Hforms. clear Hlen.
  induction Hforms as [|[i fe] form l k Hform _ IH]; [done|].
  constructor; [by apply (extract_form_ok i fe)|done].
Qed.

Lemma extract_forms_ok_witness :
  ∃ forms,
    _extract_forms sample_login_dom = Some forms ∧
    length forms = 1 ∧ Forall form_ok forms ∧
    (form_fields <$> forms)
    = [[ {| field_type := "text"; field_name := "username";
            field_id := "user"; field_placeholder := "";
            field_required := false;
            field_selector :=
              "#user, input[name='username'], [name='username']" |};
         {| field_type := "password"; field_name := "password";
            field_id := ""; field_placeholder := "";
            field_required := false;
            field_selector :=
              "input[name='password'], [name='password'], input[type='password'].field" |} ]].
Proof.
  eexists. split; [by vm_compute|].
  split; [|split]; [| |by vm_compute];
    apply (extract_forms_ok sample_login_dom); by vm_compute.
Defined.

(** ** Buttons *)

Lemma extract_buttons_go_spec els : ∀ seen_texts,
  match extract_buttons_go seen_texts els with
  | None => ∃ el, el ∈ els ∧ el_text el = None
  | Some buttons =>
      NoDup (btn_text <$> buttons) ∧
      (∀ text, text ∈ btn_text <$> buttons ↔
         text ≠ "" ∧ (text ∉ seen_texts) ∧
         ∃ el t, el ∈ els ∧ el_text el = Some t ∧ strip t = text) ∧
      Forall (λ b, btn_action b ∈ button_actions) buttons
  end.
Proof.
  induction els as [|btn els IH]; intros seen_texts; simpl.
  - split_and!; [apply NoDup_nil_2| |done].
    intros text. split; [by intros ?%elem_of_nil|].
    by intros (_ & _ & el & t & ?%elem_of_nil & _).
  - destruct (el_text btn) as [t|] eqn:Ht; cbn [mbind option_bind];
      [|exists btn; split; [left|done]].
    destruct (negb (truthy (strip t)) || mem (strip t) seen_texts) eqn:Hskip.
    + specialize (IH seen_texts).
      destruct (extract_buttons_go seen_texts els) as [buttons|].
      * destruct IH as (Hnd & Hin & Hact). split_and!; [done| |done].
        intros text. rewrite Hin. split.
        -- intros (? & ? & el & t' & ? & ? & ?). split_and!; [done..|].
           exists el, t'. split; [by right|done].
        -- intros (Hne & Hseen & el & t' & [->|Hel]%elem_of_cons & Ht' & Hs).
           ++ exfalso. rewrite Ht in Ht'. injection Ht' as <-. subst text.
              apply orb_prop in Hskip as [Hs|Hs].
              ** apply negb_true_iff, truthy_false in Hs. done.
              ** by apply mem_true in Hs.
           ++ split_and!; [done..|]. by exists el, t'.
      * destruct IH as (el & ? & ?). exists el. split; [by right|done].
    + apply orb_false_elim in Hskip as [Hne Hnew].
      apply negb_false_iff, truthy_true in Hne. apply mem_false in Hnew.
      specialize (IH (strip t :: seen_texts)).
      destruct (extract_buttons_go (strip t :: seen_texts) els) as [buttons|];
        cbn [mbind option_bind].
      * destruct IH as (Hnd & Hin & Hact). cbn [fmap list_fmap btn_text].
        split_and!.
        -- apply NoDup_cons. split; [|done]. rewrite Hin.
           intros (_ & Hn & _). apply Hn. by left.
        -- intros text. rewrite elem_of_cons, Hin. split.
           ++ intros [->|(? & Hn & el & t' & ? & ? & ?)].
              ** split_and!; [done..|]. exists btn, t. split; [by left|done].
              ** apply not_elem_of_cons in Hn as [? ?].
                 split_and!; [done..|]. exists el, t'. split; [by right|done].
           ++ intros (? & ? & el & t' & [->|Hel]%elem_of_cons & Ht' & Hs).
              ** left. rewrite Ht in Ht'. by injection Ht' as <-.
              ** destruct (decide (text = strip t)) as [|Hdiff]; [by left|].
                 right. split_and!; [done| |by exists el, t'].
                 by apply not_elem_of_cons.
        -- constructor; [apply determine_button_action_closed|done].
      * destruct IH as (el & ? & ?). exists el. split; [by right|done].
Qed.

(** X7. The buttons of a page record are the distinct non-empty texts of the
    button elements: no two records share a text, the recorded texts are
    exactly the stripped inner texts that are not empty, and every action is
    one of the ten the explorer knows. The extraction fails only when the
    inner text of an element cannot be read. *)
Theorem extract_buttons_distinct dom :
  match _extract_buttons dom with
  | None => ∃ el, el ∈ dom_buttons dom ∧ el_text el = None
  | Some buttons =>
      NoDup (btn_text <$> buttons) ∧
      (∀ text, text ∈ btn_text <$> buttons ↔
         text ≠ "" ∧
         ∃ el t, el ∈ dom_buttons dom ∧ el_text el = Some t ∧ strip t = text) ∧
      Forall (λ b, btn_action b ∈ button_actions) buttons
  end.
Proof.
  unfold _extract_buttons.
  pose proof (extract_buttons_go_spec (dom_buttons dom) []) as Hgo.
  destruct (extract_buttons_go [] (dom_buttons dom)) as [buttons|]; [|done].
  destruct Hgo as (Hnd & Hin & Hact). split_and!; [done| |done].
  intros text. rewrite Hin. split; [by intros (? & _ & ?)|].
  intros [? ?]. split_and!; [done| |done]. by intros ?%elem_of_nil.
Qed.

(** Texts padded with no-break spaces are stripped like any other: the
    three elements of [padded_buttons_dom] make one record. *)
Example extract_buttons_padded :
  fmap (M:=list) btn_text <$> _extract_buttons padded_buttons_dom
  = Some ["Save"].
Proof. by vm_compute. Qed.

(** ** Navigation links *)

Lemma extract_nav_links_go_spec els : ∀ seen_hrefs,
  match extract_nav_links_go seen_hrefs els with
  | None => ∃ el, el ∈ els ∧ el_text el = None
  | Some nav_links =>
      NoDup (link_href <$> nav_links) ∧
      (∀ href, href ∈ link_href <$> nav_links ↔
         nav_href_ok href ∧ (href ∉ seen_hrefs) ∧
         ∃ el, el ∈ els ∧ attr_or el "href" "" = href)
  end.
Proof.
  induction els as [|link els IH]; intros seen_hrefs; simpl.
  - split; [apply NoDup_nil_2|].
    intros href. split; [by intros ?%elem_of_nil|].
    by intros (_ & _ & el & ?%elem_of_nil & _).
  - destruct (el_text link) as [t|] eqn:Ht; cbn [mbind option_bind];
      [|exists link; split; [left|done]].
    set (h := attr_or link "href" "").
    destruct (negb (truthy h) || mem h seen_hrefs || startswith "#" h
              || startswith "javascript:" h) eqn:Hskip.
    + specialize (IH seen_hrefs).
      destruct (extract_nav_links_go seen_hrefs els) as [nav_links|].
      * destruct IH as (Hnd & Hin). split; [done|].
        intros href. rewrite Hin. split.
        -- intros (? & ? & el & ? & ?). split_and!; [done..|].
           exists el. split; [by right|done].
        -- intros ((Hne & Hhash & Hjs) & Hseen & el
                   & [->|Hel]%elem_of_cons & Hhref).
           ++ exfalso. fold h in Hhref. subst href.
              rewrite Hhash, Hjs, !orb_false_r in Hskip.
              apply orb_prop in Hskip as [Hs|Hs].
              ** apply negb_true_iff, truthy_false in Hs. done.
              ** by apply mem_true in Hs.
           ++ split_and!; [done..|]. by exists el.
      * destruct IH as (el & ? & ?). exists el. split; [by right|done].
    + apply orb_false_elim in Hskip as [Hskip Hjs].
      apply orb_false_elim in Hskip as [Hskip Hhash].
      apply orb_false_elim in Hskip as [Hne Hnew].
      apply negb_false_iff, truthy_true in Hne. apply mem_false in Hnew.
      specialize (IH (h :: seen_hrefs)).
      destruct (extract_nav_links_go (h :: seen_hrefs) els) as [nav_links|];
        cbn [mbind option_bind].
      * destruct IH as (Hnd & Hin). cbn [fmap list_fmap link_href].
        split.
        -- apply NoDup_cons. split; [|done]. rewrite Hin.
           intros (_ & Hn & _). apply Hn. by left.
        -- intros href. rewrite elem_of_cons, Hin. split.
           ++ intros [->|(? & Hn & el & ? & ?)].
              ** split_and!; [done..|]. exists link. split; [by left|done].
              ** apply not_elem_of_cons in Hn as [? ?].
                 split_and!; [done..|]. exists el. split; [by right|done].
           ++ intros (? & ? & el & [->|Hel]%elem_of_cons & Hhref).
              ** by left.
              ** destruct (decide (href = h)) as [|Hdiff]; [by left|].
                 right. split_and!; [done| |by exists el].
                 by apply not_elem_of_cons.
      * destruct IH as (el & ? & ?). exists el. split; [by right|done].
Qed.

(** X8. The navigation links of a page record are the distinct usable targets
    of the navigation elements: no two records share an href, and the
    recorded hrefs are exactly the href attributes that are not empty and
    start neither with [#] nor with [javascript:]. The extraction fails only
    when the inner text of an element cannot be read. *)
Theorem extract_nav_links_distinct dom :
  match _extract_nav_links dom with
  | None => ∃ el, el ∈ dom_nav dom ∧ el_text el = None
  | Some nav_links =>
      NoDup (link_href <$> nav_links) ∧
      (∀ href, href ∈ link_href <$> nav_links ↔
         nav_href_ok href ∧ ∃ el, el ∈ dom_nav dom ∧ attr_or el "href" "" = href)
  end.
Proof.
  unfold _extract_nav_links.
  pose proof (extract_nav_links_go_spec (dom_nav dom) []) as Hgo.
  destruct (extract_nav_links_go [] (dom_nav dom)) as [nav_links|]; [|done].
  destruct Hgo as (Hnd & Hin). split; [done|].
  intros href. rewrite Hin. split; [by intros (? & _ & ?)|].
  intros [? ?]. split_and!; [done| |done]. by intros ?%elem_of_nil.
Qed.

(** ** Page records *)

Section pages.
Variable urlparse : string → option ParseResult.
Variable urljoin : string → string → option string.
Variable goto : string → Response.
Variable max_pages : Z.

Lemma extract_input_ok inp :
  Forall (λ i, input_type i ≠ "hidden" ∧ input_type i ≠ "") (extract_input inp).
Proof.
  unfold extract_input.
  destruct (mem (attr_or inp "type" "text") ["hidden"]) eqn:Hty; [done|].
  apply mem_false in Hty. apply Forall_singleton. cbn. split.
  - intros Heq. apply Hty. rewrite Heq. by left.
  - by apply attr_or_nonempty.
Qed.

Lemma extract_page_info_ok url dom page_info :
  _extract_page_info urlparse url dom = Some page_info → page_ok page_info.
Proof.
  unfold _extract_page_info, _detect_page_type, _requires_auth. intros Hinfo.
  pose proof (extract_forms_each dom) as Hforms.
  pose proof (extract_buttons_go_spec (dom_buttons dom) []) as Hbuttons.
  pose proof (extract_nav_links_go_spec (dom_nav dom) []) as Hnav.
  unfold _extract_buttons, _extract_nav_links in Hinfo.
  destruct (_extract_forms dom) as [forms|]; [|done].
  destruct (extract_buttons_go [] (dom_buttons dom)) as [buttons|]; [|done].
  destruct (extract_nav_links_go [] (dom_nav dom)) as [nav_links|]; [|done].
  destruct (_extract_modals dom) as [modals|]; [|done].
  destruct (urlparse url) as [pr|]; [|done].
  cbn [mbind option_bind] in Hinfo. injection Hinfo as <-.
  destruct Hbuttons as (Hbnd & Hbin & Hbact). destruct Hnav as (Hnnd & Hnin).
  split; cbn.
  - apply detect_page_type_closed.
  - by apply or_else_nonempty.
  - done.
  - by apply Hforms.
  - split; [done|]. apply Forall_forall. intros b Hb. split.
    + assert (btn_text b ∈ btn_text <$> buttons) as Hin
        by (apply list_elem_of_fmap; by exists b).
      by apply Hbin in Hin as [? _].
    + by apply (proj1 (Forall_forall _ _) Hbact).
  - unfold _extract_inputs. apply Forall_bind, Forall_forall.
    intros inp _. apply extract_input_ok.
  - split; [done|]. apply Forall_forall. intros l Hl.
    assert (link_href l ∈ link_href <$> nav_links) as Hin
      by (apply list_elem_of_fmap; by exists l).
    by apply Hnin in Hin as [? _].
Qed.

Lemma crawl_pages_ok url self :
  crawl urlparse urljoin goto url max_pages = Returns self →
  Forall page_ok (pages self).
Proof.
  unfold crawl.
  destruct (new_agent urlparse url) as [self0|] eqn:Hnew; [|done].
  assert (Forall page_ok (pages self0)) as Hinv0.
  { unfold new_agent in Hnew. destruct (urlparse url); [|done].
    by injection Hnew as <-. }
  apply (ExplorerBounds.explore_page_preserved urlparse urljoin goto max_pages
           (λ s, Forall page_ok (pages s))); [done| |done].
  intros u pr dom page_info s Hs _ _ _ _ Hinfo. cbn.
  apply Forall_app. split; [done|].
  apply Forall_singleton. by apply (extract_page_info_ok u dom).
Qed.

(** ** Modules *)

Lemma group_module_entry all_pages mods entry :
  entry.1 ∉ Dict.keys mods →
  group_module all_pages mods entry
  = mods ++ option_list (module_entry all_pages entry).
Proof.
  intros Hnew. destruct entry as [module_name page_types].
  unfold group_module, module_entry. cbn [fst snd] in *.
  destruct (filter _ all_pages) as [|p ps]; simpl.
  - by rewrite app_nil_r.
  - by apply DictFacts.set_absent.
Qed.

Lemma module_entry_name all_pages entry name md :
  module_entry all_pages entry = Some (name, md) → name = entry.1.
Proof.
  unfold module_entry. destruct (filter _ all_pages); [done|].
  by intros [= <- _].
Qed.

Lemma group_modules_entries all_pages mapping : ∀ mods,
  NoDup mapping.*1 →
  (∀ name, name ∈ mapping.*1 → name ∉ Dict.keys mods) →
  foldl (group_module all_pages) mods mapping
  = mods ++ omap (module_entry all_pages) mapping.
Proof.
  induction mapping as [|entry mapping IH]; intros mods Hnd Hnew; simpl.
  - by rewrite (right_id_L [] (++)).
  - cbn [fmap list_fmap] in Hnd, Hnew. apply NoDup_cons in Hnd as [Hentry Hnd].
    rewrite group_module_entry by (apply Hnew; by left).
    rewrite IH; [|done|].
    + rewrite <-(assoc_L (++)). f_equal.
      by destruct (module_entry all_pages entry).
    + intros name Hname. unfold Dict.keys. rewrite fmap_app.
      apply not_elem_of_app. split; [apply Hnew; by right|].
      destruct (module_entry all_pages entry) as [[name' md]|] eqn:Hentry';
        cbn; [|by intros ?%elem_of_nil].
      apply module_entry_name in Hentry' as ->.
      intros ->%list_elem_of_singleton. done.
Qed.

Lemma module_mapping_names : NoDup module_mapping.*1.
Proof. apply (bool_decide_unpack _). by vm_compute. Qed.

Lemma count_by_module (all_pages : list Page) (mapping : list (string * list string)) :
  sum_list ((λ entry, length (filter (λ p, mem (page_type p) entry.2 = true)
                                all_pages)) <$> mapping)
  = sum_list ((λ p, sum_list ((λ entry : string * list string,
                                 if mem (page_type p) entry.2 then 1 else 0)
                              <$> mapping)) <$> all_pages).
Proof.
  induction all_pages as [|p ps IH].
  - simpl. induction mapping as [|entry mapping IHm]; [done|]. exact IHm.
  - rewrite fmap_cons.
    change (sum_list (?a :: ?l)) with (a + sum_list l).
    rewrite <-IH. clear IH.
    induction mapping as [|entry mapping IHm]; [done|].
    rewrite !fmap_cons.
    change (sum_list (?a :: ?l)) with (a + sum_list l).
    rewrite IHm, filter_cons. clear IHm.
    destruct (mem (page_type p) entry.2); cbn beta.
    + rewrite decide_True by done. cbn [length]. lia.
    + rewrite decide_False by done. lia.
Qed.

Lemma page_type_one_module ty :
  ty ∈ page_types →
  sum_list ((λ entry : string * list string, if mem ty entry.2 then 1 else 0)
            <$> module_mapping) = 1.
Proof.
  unfold page_types. rewrite !elem_of_cons.
  intros [->|[->|[->|[->|[->|[->|[->|[->|[->|[->|[->|[->|?%elem_of_nil]]]]]]]]]]]];
    [by vm_compute..|done].
Qed.

Lemma module_entry_count all_pages mapping :
  sum_list (md_page_count <$> (omap (module_entry all_pages) mapping).*2)
  = sum_list ((λ entry, length (filter (λ p, mem (page_type p) entry.2 = true)
                                  all_pages)) <$> mapping).
Proof.
  induction mapping as [|entry mapping IH]; [done|].
  rewrite fmap_cons. change (sum_list (?a :: ?l)) with (a + sum_list l).
  rewrite <-IH. cbn [omap list_omap]. unfold module_entry at 1.
  by destruct (filter _ all_pages) as [|p ps].
Qed.

Lemma module_entry_elem_of all_pages
    (mapping : list (string * list string)) (entry : string * list string) p :
  entry ∈ mapping → p ∈ all_pages → mem (page_type p) entry.2 = true →
  ∃ md, (entry.1, md) ∈ omap (module_entry all_pages) mapping ∧
        p ∈ md_pages md.
Proof.
  intros Hentry Hp Hty.
  assert (p ∈ filter (λ p, mem (page_type p) entry.2 = true) all_pages) as Hin
    by by apply list_elem_of_filter.
  destruct (module_entry all_pages entry) as [[name md]|] eqn:Hmd.
  - exists md. unfold module_entry in Hmd.
    destruct (filter _ all_pages) as [|p0 ps] eqn:Hf; [done|].
    injection Hmd as <- <-. split; [|done].
    apply list_elem_of_omap. exists entry. split; [done|].
    unfold module_entry. by rewrite Hf.
  - unfold module_entry in Hmd.
    destruct (filter _ all_pages) as [|p0 ps]; [|done].
    by apply elem_of_nil in Hin.
Qed.

Lemma page_type_some_module ty :
  ty ∈ page_types →
  ∃ entry, entry ∈ module_mapping ∧ mem ty entry.2 = true.
Proof.
  unfold page_types, module_mapping. rewrite !elem_of_cons.
  intros [->|[->|[->|[->|[->|[->|[->|[->|[->|[->|[->|[->|?%elem_of_nil]]]]]]]]]]]];
    [..|done].
  1-3: (eexists; split; [apply list_elem_of_here|by vm_compute]).
  1-2: (eexists; split; [apply list_elem_of_further, list_elem_of_here
                        |by vm_compute]).
  1-2: (eexists; split; [do 2 apply list_elem_of_further;
                         apply list_elem_of_here|by vm_compute]).
  1-4: (eexists; split; [do 3 apply list_elem_of_further;
                         apply list_elem_of_here|by vm_compute]).
  eexists; split; [do 4 apply list_elem_of_further; apply list_elem_of_here
                  |by vm_compute].
Qed.

(** X9. Every page record of the app map has the shape the extraction gives
    it: its type is one of the twelve page types, its path is not empty,
    [requires_auth] is set, its forms, buttons, inputs and navigation links
    are as the extraction functions leave them (no hidden field, no two
    buttons with one text, no two navigation links with one href). The same
    holds of the page records inside the modules. *)
Theorem explore_pages_ok url :
  match explore urlparse urljoin goto url max_pages with
  | Returns app_map =>
      Forall page_ok (am_pages app_map) ∧
      ∀ name md, (name, md) ∈ am_modules app_map →
                 Forall page_ok (md_pages md)
  | _ => True
  end.
Proof.
  pose proof (ExplorerCrawl.crawl_grows urlparse urljoin goto max_pages url)
    as Hgrows.
  unfold explore.
  destruct (crawl urlparse urljoin goto url max_pages) as [| |self] eqn:Hrun;
    [done..|].
  pose proof (crawl_pages_ok url self Hrun) as Hok.
  destruct Hgrows as (_ & _ & Hmods).
  cbn [am_pages am_modules _group_into_modules pages modules].
  split; [done|]. intros name md Hin. apply Forall_forall. intros p Hp.
  destruct (ExplorerCrawl.group_modules_pages _ _ _ _ _ _ Hin Hp)
    as [Hpage|(md' & Hin' & _)].
  - by apply (proj1 (Forall_forall _ _) Hok).
  - rewrite Hmods in Hin'. by apply elem_of_nil in Hin'.
Qed.

(** X10. The modules of the app map partition its pages. The modules are, in the
    order of the grouping table, the entries of the table for which the
    crawl found a page; every page of the app map lies in a module; and the
    page counts of the modules add up to [total_pages]. *)
Theorem explore_modules_partition url :
  match explore urlparse urljoin goto url max_pages with
  | Returns app_map =>
      am_modules app_map
      = omap (module_entry (am_pages app_map)) module_mapping ∧
      (∀ p, p ∈ am_pages app_map →
         ∃ name md, (name, md) ∈ am_modules app_map ∧ p ∈ md_pages md) ∧
      sum_list (md_page_count <$> Dict.values (am_modules app_map))
      = am_total_pages app_map
  | _ => True
  end.
Proof.
  pose proof (ExplorerCrawl.crawl_grows urlparse urljoin goto max_pages url)
    as Hgrows.
  unfold explore.
  destruct (crawl urlparse urljoin goto url max_pages) as [| |self] eqn:Hrun;
    [done..|].
  pose proof (crawl_pages_ok url self Hrun) as Hok.
  destruct Hgrows as (_ & _ & Hmods).
  cbn [am_pages am_modules am_total_pages _group_into_modules pages modules].
  rewrite Hmods.
  rewrite group_modules_entries;
    [|apply module_mapping_names|by intros ? _ ?%elem_of_nil].
  cbn [app]. split_and!; [done| |].
  - intros p Hp.
    assert (page_type p ∈ page_types) as Hty
      by apply (proj1 (Forall_forall _ _) Hok p Hp).
    destruct (page_type_some_module _ Hty) as (entry & Hentry & Hmem).
    destruct (module_entry_elem_of (pages self) module_mapping entry p
                Hentry Hp Hmem) as (md & ? & ?).
    by exists entry.1, md.
  - unfold Dict.values. rewrite module_entry_count, count_by_module.
    clear Hrun Hmods. induction Hok as [|p ps Hp _ IH]; [done|].
    rewrite fmap_cons. change (sum_list (?a :: ?l)) with (a + sum_list l).
    rewrite IH. destruct Hp as [Hty _ _ _ _ _ _].
    by rewrite (page_type_one_module _ Hty).
Qed.

End pages.

End ExplorerPages.
(** * The shape and the size of a plan *)

Module PlanShapeFacts.
Import PyStr AppMapData Planner PlanShape.

(** ** Generators keep what holds of every scenario *)

Section kept.
Variable P : TestScenario → Prop.

Lemma append_scenario_kept prefix mk self :
  (∀ i, P (mk i)) →
  Forall P (scenarios self) →
  Forall P (scenarios (append_scenario prefix mk self)).
Proof.
  intros Hmk Hself. unfold append_scenario. simpl.
  apply Forall_app. split; [done|]. by apply Forall_singleton.
Qed.

Lemma for_each_kept {A} (xs : list A) body (Q : A → Prop) self :
  (∀ x s, Q x → Forall P (scenarios s) → Forall P (scenarios (body x s))) →
  Forall Q xs →
  Forall P (scenarios self) →
  Forall P (scenarios (for_each xs body self)).
Proof.
  intros Hbody Hxs. unfold for_each. revert self.
  induction Hxs as [|x xs Hx _ IH]; intros self Hself; simpl; [done|].
  apply IH. by apply Hbody.
Qed.

End kept.

Lemma append_scenario_same mods url prefix mk self :
  same_app mods url self → same_app mods url (append_scenario prefix mk self).
Proof. done. Qed.

Lemma for_each_same mods url {A} (xs : list A) body self :
  (∀ x s, same_app mods url s → same_app mods url (body x s)) →
  same_app mods url self → same_app mods url (for_each xs body self).
Proof.
  intros Hbody. unfold for_each. revert self.
  induction xs as [|x xs IH]; intros self Hself; [done|].
  cbn [foldl]. by apply IH, Hbody.
Qed.

Ltac same_step :=
  first
    [ assumption
    | apply for_each_same; [intros ? ? ?|]
    | apply append_scenario_same
    | case_bool_decide
    | case_match ].

Lemma append_scenario_length prefix mk self :
  length (scenarios (append_scenario prefix mk self))
  = length (scenarios self) + 1.
Proof. unfold append_scenario. simpl. by rewrite length_app. Qed.

Lemma for_each_length {A} (xs : list A) body (f : A → nat) self :
  (∀ x s, length (scenarios (body x s)) = length (scenarios s) + f x) →
  length (scenarios (for_each xs body self))
  = length (scenarios self) + sum_list (f <$> xs).
Proof.
  intros Hbody. unfold for_each. revert self.
  induction xs as [|x xs IH]; intros self; [simpl; lia|].
  rewrite fmap_cons. change (sum_list (?a :: ?l)) with (a + sum_list l).
  cbn [foldl]. rewrite IH, Hbody. lia.
Qed.

(** ** Steps *)

Lemma opt_or_nonempty o dflt : dflt ≠ "" → opt_or o dflt ≠ "".
Proof.
  intros Hd. unfold opt_or, or_else. destruct o as [[|]|]; done.
Qed.

Lemma step_ok_fill t v d : t ≠ "" → step_ok (stepv "fill" t v d).
Proof.
  intros Ht. split_and!; [by left|done|]. cbn. split; [eauto|done].
Qed.

Lemma step_ok_other a t d :
  a ∈ ["click"; "wait"; "assert"] → t ≠ "" → step_ok (step a t d).
Proof.
  intros Ha Ht. split_and!; [by right|done|]. cbn. split.
  - intros ->. exfalso.
    repeat (apply elem_of_cons in Ha as [Ha|Ha]; [done|]).
    by apply elem_of_nil in Ha.
  - by intros [? ?].
Qed.

Lemma fill_steps_ok v fields : Forall step_ok (fill_steps v fields).
Proof.
  unfold fill_steps. apply Forall_fmap, Forall_forall. intros f _.
  by apply step_ok_fill.
Qed.

Lemma for_each_kept_all P {A} (xs : list A) body self :
  (∀ x s, Forall P (scenarios s) → Forall P (scenarios (body x s))) →
  Forall P (scenarios self) →
  Forall P (scenarios (for_each xs body self)).
Proof.
  intros Hbody. apply (for_each_kept P xs body (λ _, True)); [auto|].
  by apply Forall_forall.
Qed.

(** ** The selectors read off a page *)

Lemma from_fields_mono fields fields' o :
  fields ⊆ fields' → from_fields fields o → from_fields fields' o.
Proof.
  intros Hsub Ho s Hs. destruct (Ho s Hs) as (? & field & ? & ?).
  split; [done|]. exists field. split; [by apply Hsub|done].
Qed.

Lemma from_fields_new fields field :
  truthy (field_selector field) = true →
  from_fields (fields ++ [field]) (Some (field_selector field)).
Proof.
  intros Hsel s [= <-]. split; [by destruct (field_selector field)|].
  exists field. split; [|done]. apply elem_of_app. right. by left.
Qed.

Lemma select_field_from seen sel field :
  Forall (from_fields seen) (field_selectors sel) →
  Forall (from_fields (seen ++ [field]))
    (field_selectors (select_field sel field)) ∧
  sel_submit (select_field sel field) = sel_submit sel.
Proof.
  intros Hsel.
  assert (Forall (from_fields (seen ++ [field])) (field_selectors sel))
    as Hold.
  { eapply Forall_impl; [done|]. intros o. apply from_fields_mono.
    intros x ?. apply elem_of_app. by left. }
  unfold select_field.
  destruct (truthy (field_selector field)) eqn:Htruthy; cbn [negb];
    [|done].
  pose proof (from_fields_new seen field Htruthy) as Hnew.
  unfold field_selectors in *.
  apply Forall_cons in Hold as [He Hold].
  apply Forall_cons in Hold as [Hu Hold].
  apply Forall_cons in Hold as [Hp Hold].
  apply Forall_cons in Hold as [Hn Hold].
  apply Forall_cons in Hold as [Hc _].
  repeat case_match; cbn; (split; [|done]);
    repeat (apply Forall_cons; split; [assumption|]); apply Forall_nil_2.
Qed.

Lemma select_fields_from fields : ∀ seen sel,
  Forall (from_fields seen) (field_selectors sel) →
  Forall (from_fields (seen ++ fields))
    (field_selectors (foldl select_field sel fields)) ∧
  sel_submit (foldl select_field sel fields) = sel_submit sel.
Proof.
  induction fields as [|field fields IH]; intros seen sel Hsel.
  - by rewrite app_nil_r.
  - cbn [foldl].
    destruct (select_field_from seen sel field Hsel) as [Hsel1 Hsub1].
    destruct (IH (seen ++ [field]) _ Hsel1) as [Hsel2 Hsub2].
    rewrite <-(assoc_L (++)) in Hsel2. split; [done|congruence].
Qed.

Lemma select_forms_from forms : ∀ seen sel,
  Forall (from_fields (seen ≫= form_fields)) (field_selectors sel) →
  Forall (from_fields ((seen ++ forms) ≫= form_fields))
    (field_selectors (foldl select_form sel forms)) ∧
  sel_submit (foldl select_form sel forms)
  = match last (filter (λ s, truthy s = true)
                  (form_submit_selector <$> forms)) with
    | Some s => Some s
    | None => sel_submit sel
    end.
Proof.
  induction forms as [|form forms IH]; intros seen sel Hsel.
  - by rewrite app_nil_r.
  - cbn [foldl].
    destruct (select_fields_from (form_fields form) (seen ≫= form_fields)
                sel Hsel) as [Hsel1 Hsub1].
    assert (Forall (from_fields ((seen ++ [form]) ≫= form_fields))
              (field_selectors (select_form sel form))) as Hsel2.
    { rewrite bind_app. cbn [mbind list_bind]. rewrite app_nil_r.
      unfold select_form. by destruct (truthy (form_submit_selector form)). }
    destruct (IH (seen ++ [form]) _ Hsel2) as [Hsel3 Hsub3].
    rewrite <-(assoc_L (++)) in Hsel3. split; [done|].
    rewrite Hsub3, fmap_cons, filter_cons.
    unfold select_form.
    destruct (truthy (form_submit_selector form)) eqn:Htruthy.
    + rewrite decide_True by done. cbn [sel_submit].
      destruct (filter _ (form_submit_selector <$> forms)) as [|s0 l] eqn:Hf;
        [done|].
      rewrite last_cons_cons. destruct (last (s0 :: l)) eqn:Hlast; [done|].
      by apply last_None in Hlast.
    + rewrite decide_False by done. by rewrite Hsub1.
Qed.

(** X23. The selectors that [_get_form_selectors] reads off a page come from
    the page: each of the five field selectors, when set, is not empty and
    is the recorded selector of a field of one of the page's forms; the
    submit selector is the submit selector of the last form that has one; and
    a page without forms gives no selector at all. *)
Theorem form_selectors_from_page page :
  let sel := _get_form_selectors page in
  Forall (from_fields (page_forms page ≫= form_fields)) (field_selectors sel) ∧
  sel_submit sel
  = last (filter (λ s, truthy s = true)
            (form_submit_selector <$> page_forms page)) ∧
  (page_forms page = [] → sel = no_selectors).
Proof.
  cbv zeta. unfold _get_form_selectors.
  destruct (select_forms_from (page_forms page) [] no_selectors)
    as [Hsel Hsub].
  { unfold field_selectors. cbn.
    repeat (apply Forall_cons; split; [by intros ? [=]|]). apply Forall_nil_2. }
  split_and!.
  - done.
  - rewrite Hsub. by destruct (last _).
  - by intros ->.
Qed.

(** ** The scenarios of a page *)

Ltac step_shape :=
  first [ apply step_ok_fill
        | apply step_ok_other; [by repeat constructor|] ];
  repeat apply opt_or_nonempty; done.

Ltac steps_shape :=
  repeat (apply Forall_cons; split; [step_shape|]); apply Forall_nil_2.

(** A scenario whose steps are written out in the source. *)
Ltac literal_shape :=
  split; [reflexivity|];
  first [ (eexists _, [], _; split; [reflexivity|])
        | (eexists _, [_], _; split; [reflexivity|])
        | (eexists _, [_; _], _; split; [reflexivity|])
        | (eexists _, [_; _; _], _; split; [reflexivity|])
        | (eexists _, [_; _; _; _], _; split; [reflexivity|])
        | (eexists _, [_; _; _; _; _], _; split; [reflexivity|]) ];
  split; [steps_shape | split; [step_shape | reflexivity]].

(** A scenario whose steps are a navigation, the fill steps of some fields,
    a click and an assertion. *)
Ltac filled_shape :=
  split; [reflexivity|];
  eexists _, (fill_steps _ _ ++ [_]), _;
  split; [cbn [app]; by rewrite <-(assoc_L (++))|];
  split; [apply Forall_app; split; [apply fill_steps_ok|steps_shape]
         |split; [step_shape | reflexivity]].

Ltac shape_step HP :=
  first
    [ assumption
    | apply for_each_kept_all; [intros ? ? ?|]
    | apply append_scenario_kept;
        [intros ?; apply HP; first [literal_shape | filled_shape]|]
    | case_bool_decide
    | case_match ].

Section pages.
Variable P : TestScenario → Prop.

Lemma auth_page_shape page self :
  (∀ s, scenario_ok "auth" page s → P s) →
  Forall P (scenarios self) → Forall P (scenarios (auth_page page self)).
Proof. intros HP ?. unfold auth_page. cbv zeta. repeat shape_step HP. Qed.

Lemma dashboard_page_shape dep page self :
  (∀ s, scenario_ok "dashboard" page s → P s) →
  Forall P (scenarios self) →
  Forall P (scenarios (dashboard_page dep page self)).
Proof.
  intros HP ?. unfold dashboard_page, dashboard_button, landing_link.
  cbv zeta. repeat shape_step HP.
Qed.

Lemma profile_page_shape page self :
  (∀ s, scenario_ok "profile" page s → P s) →
  Forall P (scenarios self) → Forall P (scenarios (profile_page page self)).
Proof.
  intros HP ?. unfold profile_page, settings_form. cbv zeta.
  repeat shape_step HP.
Qed.

Lemma crud_page_shape page self :
  (∀ s, scenario_ok "crud" page s → P s) →
  Forall P (scenarios self) → Forall P (scenarios (crud_page page self)).
Proof. intros HP ?. unfold crud_page. cbv zeta. repeat shape_step HP. Qed.

Lemma general_page_shape module_name page self :
  (∀ s, scenario_ok module_name page s → P s) →
  Forall P (scenarios self) →
  Forall P (scenarios (general_page module_name page self)).
Proof.
  intros HP ?. unfold general_page, general_form. cbv zeta.
  repeat shape_step HP.
Qed.

End pages.

(** ** The scenarios of a module and of a plan *)

Lemma generate_module_shape mods entry self :
  entry ∈ mods →
  Forall (scenario_of mods) (scenarios self) →
  Forall (scenario_of mods) (scenarios (generate_module entry self)).
Proof.
  intros Hentry Hself. destruct entry as [module_name module_data].
  assert (∀ page s, page ∈ md_pages module_data →
            scenario_ok module_name page s → scenario_of mods s) as Hof.
  { intros page s Hpage Hs. exists module_data, page.
    destruct Hs as [Hmod ?]. rewrite Hmod. by split_and!. }
  unfold generate_module, _generate_auth_scenarios,
    _generate_dashboard_scenarios, _generate_profile_scenarios,
    _generate_crud_scenarios, _generate_general_scenarios.
  repeat case_bool_decide; subst; cbv zeta;
    (apply (for_each_kept _ _ _ (λ page, page ∈ md_pages module_data));
     [|by apply Forall_forall|done]); intros page s Hpage Hs.
  - apply auth_page_shape; [|done]. intros; by apply (Hof page).
  - apply dashboard_page_shape; [|done]. intros; by apply (Hof page).
  - apply profile_page_shape; [|done]. intros; by apply (Hof page).
  - apply crud_page_shape; [|done]. intros; by apply (Hof page).
  - apply general_page_shape; [|done]. intros; by apply (Hof page).
Qed.

Lemma emitted_shape app_map :
  Forall (scenario_of (am_modules app_map)) (emitted app_map).
Proof.
  unfold emitted, generated.
  apply (for_each_kept _ _ _ (λ entry, entry ∈ am_modules app_map));
    [|by apply Forall_forall|done].
  intros entry s Hentry Hs. by apply generate_module_shape.
Qed.

(** ** The number of scenarios *)

Lemma count_filter {A} (b : A → bool) (xs : list A) :
  sum_list ((λ x, if b x then 1 else 0) <$> xs)
  = length (filter (λ x, b x = true) xs).
Proof.
  induction xs as [|x xs IH]; [done|].
  rewrite fmap_cons, filter_cons.
  change (sum_list (?a :: ?l)) with (a + sum_list l). rewrite IH.
  destruct (b x); [by rewrite decide_True|by rewrite decide_False].
Qed.

Lemma count_all {A} (xs : list A) :
  sum_list ((λ _, 1) <$> xs) = length xs.
Proof.
  induction xs as [|x xs IH]; [done|].
  rewrite fmap_cons. change (sum_list (?a :: ?l)) with (a + sum_list l).
  rewrite IH. done.
Qed.

Lemma auth_page_length page self :
  length (scenarios (auth_page page self))
  = length (scenarios self) + scenarios_of_page "auth" page.
Proof.
  change (scenarios_of_page "auth" page)
    with (if bool_decide (page_type page = "login") then 4
          else if bool_decide (page_type page = "register") then 1 else 0).
  unfold auth_page. cbv zeta. repeat case_bool_decide;
    rewrite ?append_scenario_length; lia.
Qed.

Lemma dashboard_page_length dep page self :
  length (scenarios (dashboard_page dep page self))
  = length (scenarios self) + scenarios_of_page "dashboard" page.
Proof.
  change (scenarios_of_page "dashboard" page)
    with (if bool_decide (page_type page = "dashboard") then
            1 + length (filter (λ btn, negb (mem (btn_action btn)
                                               ["cancel"; "close"]) = true)
                          (page_buttons page))
          else if bool_decide (page_type page = "landing") then
            1 + length (filter (λ link, truthy (link_text link) = true)
                          (page_nav_links page))
          else 0).
  unfold dashboard_page. cbv zeta. repeat case_bool_decide; [| |lia].
  - rewrite (for_each_length _ _
               (λ btn, if negb (mem (btn_action btn) ["cancel"; "close"])
                       then 1 else 0)).
    + rewrite append_scenario_length, count_filter. lia.
    + intros btn s. unfold dashboard_button.
      destruct (negb _); [apply append_scenario_length|lia].
  - rewrite (for_each_length _ _
               (λ link, if truthy (link_text link) then 1 else 0)).
    + rewrite append_scenario_length, count_filter. lia.
    + intros link s. unfold landing_link.
      destruct (truthy _); [apply append_scenario_length|lia].
Qed.

Lemma profile_page_length page self :
  length (scenarios (profile_page page self))
  = length (scenarios self) + scenarios_of_page "profile" page.
Proof.
  change (scenarios_of_page "profile" page)
    with (if bool_decide (page_type page = "settings")
          then 1 + length (page_forms page)
          else if bool_decide (page_type page = "profile") then 1 else 0).
  unfold profile_page. cbv zeta. repeat case_bool_decide;
    rewrite ?append_scenario_length; [|lia..].
  rewrite (for_each_length _ _ (λ _, 1)).
  - rewrite append_scenario_length, count_all. lia.
  - intros form s. apply append_scenario_length.
Qed.

Lemma crud_page_length page self :
  length (scenarios (crud_page page self))
  = length (scenarios self) + scenarios_of_page "crud" page.
Proof.
  change (scenarios_of_page "crud" page)
    with (if bool_decide (page_type page = "create") then 2
          else if bool_decide (page_type page = "list") then 1
          else if bool_decide (page_type page = "edit") then 1 else 0).
  unfold crud_page. cbv zeta. repeat case_bool_decide;
    rewrite ?append_scenario_length; lia.
Qed.

Lemma general_page_length module_name page self :
  module_name ∉ ["auth"; "dashboard"; "profile"; "crud"] →
  length (scenarios (general_page module_name page self))
  = length (scenarios self) + scenarios_of_page module_name page.
Proof.
  intros Hname. unfold scenarios_of_page.
  rewrite !bool_decide_eq_false_2
    by (intros ->; apply Hname; by repeat constructor).
  unfold general_page. cbv zeta.
  rewrite (for_each_length _ _ (λ _, 1)).
  - rewrite append_scenario_length, count_all. lia.
  - intros form s. apply append_scenario_length.
Qed.

Lemma generate_module_length entry self :
  length (scenarios (generate_module entry self))
  = length (scenarios self) + scenarios_of_module entry.
Proof.
  destruct entry as [module_name module_data].
  unfold generate_module, scenarios_of_module, _generate_auth_scenarios,
    _generate_dashboard_scenarios, _generate_profile_scenarios,
    _generate_crud_scenarios, _generate_general_scenarios. cbn [fst snd].
  repeat case_bool_decide; subst; cbv zeta; apply for_each_length; intros.
  - apply auth_page_length.
  - apply dashboard_page_length.
  - apply profile_page_length.
  - apply crud_page_length.
  - apply general_page_length.
    intros Hin. repeat (apply elem_of_cons in Hin as [?|Hin]; [done|]).
    by apply elem_of_nil in Hin.
Qed.

Lemma emitted_length app_map :
  length (emitted app_map) = sum_list (scenarios_of_module <$> am_modules app_map).
Proof.
  unfold emitted, generated.
  by rewrite (for_each_length _ _ scenarios_of_module)
    by apply generate_module_length.
Qed.

(** ** Modules of the plan *)

Lemma generate_module_same mods url entry self :
  same_app mods url self → same_app mods url (generate_module entry self).
Proof.
  intros ?. destruct entry as [module_name module_data].
  unfold generate_module, _generate_auth_scenarios,
    _generate_dashboard_scenarios, _generate_profile_scenarios,
    _generate_crud_scenarios, _generate_general_scenarios, auth_page,
    dashboard_page, dashboard_button, landing_link, profile_page,
    settings_form, crud_page, general_page, general_form.
  cbv zeta. repeat same_step.
Qed.

Lemma generated_modules app_map :
  modules (generated (init app_map)) = am_modules app_map ∧
  Planner.base_url (generated (init app_map)) = am_base_url app_map.
Proof.
  unfold generated.
  apply (for_each_same (am_modules app_map) (am_base_url app_map));
    [|done].
  intros. by apply generate_module_same.
Qed.





(** X11. Every scenario of a plan belongs to a module of the app map and to a
    page of that module: its first step navigates to the URL of the page, no
    later step navigates, and its last step is an assertion. The later steps
    use the actions [fill], [click], [wait] and [assert] only, on targets
    that are not empty, and exactly the [fill] steps carry a value. *)
Theorem scenarios_open_a_page app_map :
  Forall (scenario_of (am_modules app_map)) (emitted app_map) ∧
  ∀ name pm sd,
    (name, pm) ∈ plan_modules (generate_test_plan app_map) →
    sd ∈ pm_scenarios pm →
    ∃ s, sd = to_dict s ∧ scenario_of (am_modules app_map) s.
Proof.
  pose proof (emitted_shape app_map) as Hshape. split; [done|].
  intros name pm sd Hpm Hsd.
  assert (sd ∈ listed (plan_modules (generate_test_plan app_map))) as Hin.
  { unfold listed, Dict.values. apply list_elem_of_bind. exists pm.
    split; [done|]. apply list_elem_of_fmap. by exists (name, pm). }
  assert (listed (plan_modules (generate_test_plan app_map))
          ≡ₚ to_dict <$> emitted app_map) as Hperm.
  { destruct (generated_modules app_map) as [Hmods _].
    unfold generate_test_plan, generate_scenarios. cbn [plan_modules].
    rewrite (PlannerFacts.grouping_listed _ (emitted app_map) []). done. }
  rewrite Hperm in Hin. apply list_elem_of_fmap in Hin as (s & -> & Hs).
  exists s. split; [done|]. by apply (proj1 (Forall_forall _ _) Hshape).
Qed.

(** X12. The size of a plan follows from the app map alone: [total_scenarios] is
    the sum, over the modules and their pages, of the number of scenarios
    the page type stands for (four for a login page, one and one per shown
    button for a dashboard, one and one per form for any page of another
    module, none for a page type the module's generator does not know). An
    app map without modules gives the empty plan. *)
Theorem plan_size app_map :
  total_scenarios (generate_test_plan app_map)
  = sum_list (scenarios_of_module <$> am_modules app_map) ∧
  (am_modules app_map = [] →
   generate_test_plan app_map
   = {| plan_base_url := am_base_url app_map; total_scenarios := 0;
        plan_modules := [] |}).
Proof.
  split; [apply emitted_length|].
  intros Hempty. unfold generate_test_plan, generate_scenarios, generated, init.
  cbn [modules]. rewrite Hempty. done.
Qed.


End PlanShapeFacts.
(** * What a scenario result records *)

Module ExecutorRecord.
Import PyStr Planner Executor.

Lemma size_list_to_set_le (l : list string) :
  size (list_to_set (C:=gset string) l) ≤ length l.
Proof.
  induction l as [|x l IH].
  { change (list_to_set (C:=gset string) []) with (∅ : gset string).
    by rewrite size_empty. }
  change (list_to_set (C:=gset string) (x :: l))
    with ({[x]} ∪ list_to_set (C:=gset string) l).
  cbn [length]. rewrite size_union_alt, size_singleton.
  pose proof (subseteq_size (list_to_set (C:=gset string) l ∖ {[x]})
                (list_to_set l)) as Hle.
  assert (list_to_set (C:=gset string) l ∖ {[x]} ⊆ list_to_set l) as Hsub
    by (intros y [? _]%elem_of_difference; done).
  specialize (Hle Hsub). lia.
Qed.

Section facts.
Context {B : Type} (drv : Driver B).

(** The loop over the steps extends the list of completed steps by the
    descriptions of the steps that ran through, in order, and sets the error
    exactly when it fails. *)
Lemma run_steps_record base_url steps : ∀ r b,
  let r' := (run_steps drv base_url steps r b).1 in
  sr_id r' = sr_id r ∧ sr_name r' = sr_name r ∧
  ∃ ran rest,
    sr_steps_completed r' = sr_steps_completed r ++ (description <$> ran) ∧
    steps = ran ++ rest ∧
    (sr_status r' = "passed" ∧ sr_error r' = sr_error r ∧ rest = []
     ∨ sr_status r' = "failed" ∧ is_Some (sr_error r') ∧ rest ≠ []).
Proof.
  induction steps as [|st steps IH]; intros r b; cbn [run_steps].
  - cbn. split_and!; [done..|]. exists [], []. rewrite app_nil_r.
    split_and!; [done..|]. by left.
  - destruct (run_step drv base_url st b) as [b'|msg b'|msg b'].
    + destruct (IH (completed (description st) r) b')
        as (Hid & Hname & ran & rest & Hdone & Hsteps & Hend).
      cbv zeta. split_and!; [done..|]. exists (st :: ran), rest.
      split_and!.
      * rewrite Hdone. cbn. by rewrite <-(assoc_L (++)).
      * by rewrite Hsteps.
      * done.
    + cbn. split_and!; [done..|]. exists [], (st :: steps).
      rewrite app_nil_r. split_and!; [done..|]. right. by split_and!.
    + cbn. split_and!; [done..|]. exists [], (st :: steps).
      rewrite app_nil_r. split_and!; [done..|]. right. by split_and!.
Qed.

(** X14. The result of a scenario carries the id and the name of the scenario.
    Its completed steps are the descriptions of an initial part of the
    scenario's steps, in order. It is passed exactly when all steps were
    completed, and then it has no error; otherwise it is failed, has an
    error message and lacks at least the step that failed. *)
Theorem execute_scenario_record scenario base_url b :
  let r := (execute_scenario drv scenario base_url b).1 in
  sr_id r = sd_id scenario ∧ sr_name r = sd_name scenario ∧
  (∃ rest, description <$> sd_steps scenario = sr_steps_completed r ++ rest) ∧
  (sr_status r = "passed" ∧ sr_error r = None ∧
   sr_steps_completed r = description <$> sd_steps scenario
   ∨
   sr_status r = "failed" ∧ is_Some (sr_error r) ∧
   length (sr_steps_completed r) < length (sd_steps scenario)).
Proof.
  unfold execute_scenario.
  destruct (run_steps_record base_url (sd_steps scenario)
              {| sr_id := sd_id scenario; sr_name := sd_name scenario;
                 sr_status := "running"; sr_steps_completed := [];
                 sr_error := None |} b)
    as (Hid & Hname & ran & rest & Hdone & Hsteps & Hend).
  cbv zeta. cbv zeta in Hid, Hname, Hdone, Hend.
  cbn [sr_steps_completed app sr_id sr_name sr_error] in Hid, Hname, Hdone, Hend.
  set (res := (run_steps drv base_url (sd_steps scenario) _ b).1) in *.
  clearbody res. split_and!; [done|done| |].
  - exists (description <$> rest). by rewrite Hdone, Hsteps, fmap_app.
  - rewrite Hdone, Hsteps. destruct Hend as [(? & ? & ->)|(? & ? & Hrest)].
    + left. rewrite app_nil_r. by split_and!.
    + right. split_and!; [done..|]. rewrite length_fmap, length_app.
      destruct rest; [done|]. simpl. lia.
Qed.

Lemma try_selectors_unresolved act selectors :
  (∀ sel b b', wait_for_selector drv sel b ≠ Ok true b') →
  ∀ b, (try_selectors drv act selectors b).1 = false.
Proof.
  intros Hnone. induction selectors as [|selector selectors IH]; intros b;
    [done|].
  cbn [try_selectors].
  destruct (wait_for_selector drv (strip selector) b) as [[|] b'|? b'|? b']
    eqn:Hwait; [by destruct (Hnone _ _ _ Hwait)|apply IH..].
Qed.

(** X15. When no selector resolves to an element, a step that fills or clicks
    fails the scenario: none of the comma-separated alternatives of its
    target is used, the status is failed, the error names the target, and no
    later step runs. *)
Theorem unresolved_selector_fails base_url st rest r b :
  (∀ sel b b', wait_for_selector drv sel b ≠ Ok true b') →
  action st = "fill" ∨ action st = "click" →
  ∃ b',
    run_steps drv base_url (st :: rest) r b
    = (failed ((if bool_decide (action st = "fill")
                then "Could not find element: "
                else "Could not click element: ") +:+ target st) r, b').
Proof.
  intros Hnone Hact. cbn [run_steps]. unfold run_step.
  destruct Hact as [Hact|Hact]; rewrite Hact.
  - rewrite (bool_decide_eq_false_2 ("fill" = "navigate")) by done.
    rewrite !(bool_decide_eq_true_2 ("fill" = "fill")) by done.
    pose proof (try_selectors_unresolved
                  (λ sel, fill drv sel (opt_or (value st) ""))
                  (split_comma (target st)) Hnone b) as Htry.
    destruct (try_selectors _ _ _ b) as [filled b']. cbn in Htry. subst filled.
    by exists b'.
  - rewrite (bool_decide_eq_false_2 ("click" = "navigate")) by done.
    rewrite !(bool_decide_eq_false_2 ("click" = "fill")) by done.
    rewrite (bool_decide_eq_true_2 ("click" = "click")) by done.
    pose proof (try_selectors_unresolved (click drv)
                  (split_comma (target st)) Hnone b) as Htry.
    destruct (try_selectors _ _ _ b) as [clicked b']. cbn in Htry.
    subst clicked. by exists b'.
Qed.

(** What a run with a browser leaves in [results]. *)
Lemma run_task_results base_url scenarios b :
  let run := run_scenarios_task drv (inl b) base_url scenarios in
  Executor.run_status run = "completed" ∧
  (∀ scenario, scenario ∈ scenarios →
     is_Some (Executor.run_results run !! sd_id scenario)) ∧
  executed drv base_url scenarios (Executor.run_results run).
Proof.
  unfold run_scenarios_task.
  destruct (find_auth_scenario scenarios) as [auth|] eqn:Hauth.
  - apply ExecutorFacts.find_auth_scenario_elem_of in Hauth.
    destruct (execute_scenario drv auth base_url (new_page drv b))
      as [result b1] eqn:Hexec.
    assert (executed drv base_url scenarios (<[sd_id auth := result]> ∅))
      as Hfirst.
    { replace result with (execute_scenario drv auth base_url
                             (new_page drv b)).1 by (by rewrite Hexec).
      apply ExecutorFacts.executed_insert; [|done].
      intros ??. by rewrite lookup_empty. }
    pose proof (ExecutorFacts.run_each_executed drv base_url
                  (sd_id <$> Some auth) scenarios scenarios _ b1 Hfirst
                  (reflexivity _)) as Hres.
    pose proof (ExecutorFacts.run_each_keys drv base_url
                  (sd_id <$> Some auth) scenarios
                  (<[sd_id auth := result]> ∅) b1) as Hkeys.
    destruct (run_each drv base_url _ scenarios _ b1) as [results b2].
    cbn in *. split_and!; [done| |done].
    intros scenario Hin. apply Hkeys.
    destruct (decide (sd_id scenario = sd_id auth)) as [->|Hne].
    + left. rewrite lookup_insert_eq. eauto.
    + right. exists scenario. split_and!; [done..|congruence].
  - pose proof (ExecutorFacts.run_each_executed drv base_url
                  (sd_id <$> None) scenarios scenarios ∅ b
                  ltac:(intros ??; by rewrite lookup_empty)
                  (reflexivity _)) as Hres.
    pose proof (ExecutorFacts.run_each_keys drv base_url (sd_id <$> None)
                  scenarios ∅ b) as Hkeys.
    destruct (run_each drv base_url _ scenarios _ b) as [results b2].
    cbn in *. split_and!; [done| |done].
    intros scenario Hin. apply Hkeys. right. by exists scenario.
Qed.

Lemma run_task_dom base_url scenarios b :
  dom (Executor.run_results
         (run_scenarios_task drv (inl b) base_url scenarios))
  = list_to_set (sd_id <$> scenarios).
Proof.
  destruct (run_task_results base_url scenarios b) as (_ & Hall & Hfrom).
  apply set_eq. intros id.
  rewrite elem_of_dom, elem_of_list_to_set, list_elem_of_fmap. split.
  - intros [r Hr]. destruct (Hfrom id r Hr) as (sc & _ & Hin & Hid & _).
    by exists sc.
  - intros (sc & -> & Hin). by apply Hall.
Qed.

Lemma executed_result_id base_url scenarios results id r :
  executed drv base_url scenarios results →
  results !! id = Some r →
  sr_id r = id ∧ (sr_status r = "passed" ∨ sr_status r = "failed").
Proof.
  intros Hfrom Hr. destruct (Hfrom id r Hr) as (sc & b0 & _ & <- & ->).
  split.
  - unfold execute_scenario.
    by destruct (run_steps_record base_url (sd_steps sc)
                   {| sr_id := sd_id sc; sr_name := sd_name sc;
                      sr_status := "running"; sr_steps_completed := [];
                      sr_error := None |} b0) as (? & _).
  - apply ExecutorFacts.execute_scenario_status.
Qed.

(** X16. The results of a run are keyed by scenario id. Once the browser is up,
    the ids with a result are exactly the ids of the scenarios of the run,
    and the result under an id carries that id; so there are at most as many
    results as scenarios, and as many when the ids are distinct. Scenarios
    that share an id share one entry. *)
Theorem results_keyed_by_id base_url scenarios b :
  let run := run_scenarios_task drv (inl b) base_url scenarios in
  dom (Executor.run_results run) = list_to_set (sd_id <$> scenarios) ∧
  (∀ id r, Executor.run_results run !! id = Some r → sr_id r = id) ∧
  size (Executor.run_results run) ≤ length scenarios ∧
  (NoDup (sd_id <$> scenarios) →
   size (Executor.run_results run) = length scenarios).
Proof.
  cbv zeta. pose proof (run_task_dom base_url scenarios b) as Hdom.
  destruct (run_task_results base_url scenarios b) as (_ & _ & Hfrom).
  cbv zeta in Hfrom.
  set (results := Executor.run_results _) in *. clearbody results.
  split_and!; [done| | |].
  - intros id r Hr.
    by destruct (executed_result_id base_url scenarios results id r Hfrom Hr).
  - rewrite <-size_dom, Hdom.
    etrans; [apply size_list_to_set_le|]. by rewrite length_fmap.
  - intros Hnd. rewrite <-size_dom, Hdom, size_list_to_set by done.
    by rewrite length_fmap.
Qed.

End facts.

Lemma unresolved_selector_fails_witness :
  ∃ b',
    run_steps blank_driver "http://shop.test"
      [stepv "fill" "#user, [name='user']" "alice" "Enter user"]
      {| sr_id := "auth_001"; sr_name := "Valid Login"; sr_status := "running";
         sr_steps_completed := []; sr_error := None |} ()
    = ({| sr_id := "auth_001"; sr_name := "Valid Login";
          sr_status := "failed"; sr_steps_completed := [];
          sr_error := Some "Could not find element: #user, [name='user']" |},
       b').
Proof.
  apply (unresolved_selector_fails blank_driver "http://shop.test"
           (stepv "fill" "#user, [name='user']" "alice" "Enter user") []
           {| sr_id := "auth_001"; sr_name := "Valid Login";
              sr_status := "running"; sr_steps_completed := [];
              sr_error := None |} ()).
  - intros sel b b'. cbn. discriminate.
  - by left.
Defined.

End ExecutorRecord.
(** * The counts of the batch executor *)

Module SpriteCounts.
Import PyStr Sprite SpriteBatch.

Section inserts.
Context {E V : Type} (k : E → string) (v : E → V).

Lemma inserted_snoc m l e :
  inserted k v m (l ++ [e]) = <[k e := v e]> (inserted k v m l).
Proof. unfold inserted. by rewrite foldl_snoc. Qed.

Lemma inserted_size m l : size (inserted k v m l) ≤ size m + length l.
Proof.
  induction l as [|e l IH] using rev_ind; [simpl; lia|].
  rewrite inserted_snoc, length_app, map_size_insert. simpl.
  destruct (inserted k v m l !! k e); simpl; lia.
Qed.

Lemma inserted_lookup_None m l key :
  inserted k v m l !! key = None ↔ m !! key = None ∧ key ∉ k <$> l.
Proof.
  induction l as [|e l IH] using rev_ind.
  - simpl. split; [intros ?; split; [done|by intros ?%elem_of_nil]|by intros [? _]].
  - rewrite inserted_snoc, fmap_app, lookup_insert_None, IH, not_elem_of_app.
    cbn. rewrite list_elem_of_singleton. split.
    + intros [[? ?] ?]. split_and!; [done..|]. congruence.
    + intros (? & ? & Hne). split_and!; [done..|]. congruence.
Qed.

Lemma inserted_size_NoDup l :
  NoDup (k <$> l) → size (inserted k v ∅ l) = length l.
Proof.
  induction l as [|e l IH] using rev_ind; [done|].
  rewrite fmap_app. intros (Hl & Hnew & _)%NoDup_app.
  rewrite inserted_snoc, length_app, map_size_insert_None.
  - rewrite IH by done. simpl. lia.
  - apply inserted_lookup_None. split; [done|]. intros Hin.
    apply (Hnew _ Hin). by left.
Qed.

(** The value under a key is the one written for the last entry with that
    key. *)
Lemma inserted_last_writer m l i e :
  l !! i = Some e →
  (∀ j e', i < j → l !! j = Some e' → k e' ≠ k e) →
  inserted k v m l !! k e = Some (v e).
Proof.
  revert i. induction l as [|x l IH] using rev_ind; intros i Hi Hlast;
    [by rewrite lookup_nil in Hi|].
  rewrite inserted_snoc.
  apply lookup_app_Some in Hi as [Hi|[Hlen Hi]].
  - rewrite lookup_insert_ne.
    + apply (IH i); [done|]. intros j e' Hj He'. apply (Hlast j); [done|].
      by apply lookup_app_l_Some.
    + apply (Hlast (length l)).
      * by apply lookup_lt_Some in Hi.
      * by rewrite list_lookup_middle.
  - destruct (i - length l) as [|n]; [|done].
    injection Hi as ->. by rewrite lookup_insert_eq.
Qed.

End inserts.

Lemma count_status_empty status : count_status status ∅ = 0.
Proof. unfold count_status. by rewrite map_filter_empty, map_size_empty. Qed.

Lemma count_status_insert status i x (m : gmap string string) :
  m !! i = None →
  count_status status (<[i:=x]> m)
  = (if decide (x = status) then 1 else 0) + count_status status m.
Proof.
  intros Hi. unfold count_status. rewrite map_filter_insert. cbn [snd].
  case_decide.
  - rewrite map_size_insert_None; [done|].
    apply map_lookup_filter_None. by left.
  - by rewrite delete_id.
Qed.

(** In a dictionary that holds the three statuses only, the three counts
    add up to the number of entries. *)
Lemma three_counts (m : gmap string string) :
  map_Forall (λ _ r, r ∈ ["passed"; "failed"; "skipped"]) m →
  count_status "passed" m + count_status "failed" m
  + count_status "skipped" m = size m.
Proof.
  induction m as [|i x m Hi IH] using map_ind; intros Hall.
  - by rewrite !count_status_empty, map_size_empty.
  - apply map_Forall_insert in Hall as [Hx Hall]; [|done].
    rewrite !count_status_insert, map_size_insert_None by done.
    specialize (IH Hall).
    repeat (apply elem_of_cons in Hx as [->|Hx];
            [repeat case_decide; try done; lia|]).
    by apply elem_of_nil in Hx.
Qed.

Section facts.
Variable run_test : bool → nat → Scenario → Subprocess.

Lemma loop_inserted entries acc :
  (foldl (execute_one run_test) acc entries).2
  = inserted (λ entry, test_id entry.1 entry.2) (outcome_status run_test)
      acc.2 entries.
Proof.
  revert acc. induction entries as [|entry entries IH]; intros acc; [done|].
  cbn [foldl inserted]. rewrite IH. unfold inserted. f_equal.
  destruct acc as [out res], entry as [i sc]. unfold outcome_status. simpl.
  by destruct (run_test _ _ _).
Qed.

Lemma loop_three entries acc :
  map_Forall (λ _ r, r ∈ ["passed"; "failed"; "skipped"]) acc.2 →
  map_Forall (λ _ r, r ∈ ["passed"; "failed"; "skipped"])
    (foldl (execute_one run_test) acc entries).2.
Proof.
  rewrite loop_inserted. generalize (acc.2). clear acc.
  induction entries as [|entry entries IH]; intros m Hm; [done|].
  cbn [inserted foldl]. apply IH. apply map_Forall_insert_2; [|done].
  unfold outcome_status. destruct (run_test _ _ _); cbn;
    [|by right; left..].
  unfold result_of_stdout. repeat case_match; by repeat constructor.
Qed.

Lemma imap_pair_keys (all_scenarios : list Scenario) :
  (λ entry : nat * Scenario, test_id entry.1 entry.2)
    <$> imap pair all_scenarios
  = imap test_id all_scenarios.
Proof. rewrite fmap_imap. by apply imap_ext. Qed.

(** X17. The counts of a batch. [tests_executed] counts the scenarios, while
    [passed] and [failed] count the entries of [results], one per test id:
    together with the skipped entries they add up to the number of entries,
    which is at most [tests_executed] and equal to it when the test ids are
    distinct. Under an id that several scenarios share, [results] holds the
    status of the last of them. *)
Theorem batch_counts (all_scenarios : list Scenario) :
  let out := testsprite_generate_code_and_execute run_test all_scenarios in
  tests_executed out = length all_scenarios ∧
  out_passed out + out_failed out + count_status "skipped" (out_results out)
  = size (out_results out) ∧
  size (out_results out) ≤ tests_executed out ∧
  (NoDup (imap test_id all_scenarios) →
   size (out_results out) = tests_executed out) ∧
  (∀ i sc, all_scenarios !! i = Some sc →
     (∀ j sc', i < j → all_scenarios !! j = Some sc' →
               test_id j sc' ≠ test_id i sc) →
     out_results out !! test_id i sc
     = Some (outcome_status run_test (i, sc))).
Proof.
  unfold testsprite_generate_code_and_execute.
  pose proof (loop_three (imap pair all_scenarios) ([], ∅)
                (map_Forall_empty _)) as Hthree.
  pose proof (loop_inserted (imap pair all_scenarios) ([], ∅)) as Hins.
  destruct (foldl _ _ _) as [all_stdout all_results].
  cbn [snd] in Hthree, Hins. cbv zeta.
  cbn [tests_executed out_passed out_failed out_results].
  split_and!.
  - done.
  - by apply three_counts.
  - rewrite Hins.
    etrans; [apply inserted_size|]. by rewrite map_size_empty, length_imap.
  - intros Hnd. rewrite Hins, inserted_size_NoDup, length_imap; [done|].
    by rewrite imap_pair_keys.
  - intros i sc Hi Hlast. rewrite Hins.
    apply (inserted_last_writer
             (λ entry : nat * Scenario, test_id entry.1 entry.2)
             (outcome_status run_test) ∅ (imap pair all_scenarios) i (i, sc)).
    + by rewrite list_lookup_imap, Hi.
    + intros j [j' sc'] Hj Hj'. rewrite list_lookup_imap in Hj'.
      destruct (all_scenarios !! j) as [sc''|] eqn:Hsc; [|done].
      injection Hj' as <- <-. by apply (Hlast j).
Qed.

(** X18. A test fails the batch only by its own report or by not finishing: when
    the composite exit code is 1, some scenario's test timed out, could not
    be run, or exited with an output that carries the marker [FAILED] and
    not the marker [PASSED]. A test whose output carries no marker at all
    counts as passed. *)
Theorem batch_failure_cause (all_scenarios : list Scenario) :
  let out := testsprite_generate_code_and_execute run_test all_scenarios in
  (exit_code out = 1%Z →
   ∃ i sc, all_scenarios !! i = Some sc ∧
     match run_test (api_mode sc) i sc with
     | Exited stdout =>
         contains "[FAILED]" stdout = true ∧
         contains "[PASSED]" stdout = false
     | TimeoutExpired | OtherError _ => True
     end) ∧
  (∀ stdout, contains "[PASSED]" stdout = true ∨
             contains "[FAILED]" stdout = false →
             result_of_stdout stdout ≠ "failed").
Proof.
  split.
  - unfold testsprite_generate_code_and_execute.
    pose proof (loop_inserted (imap pair all_scenarios) ([], ∅)) as Hins.
    destruct (foldl _ _ _) as [all_stdout all_results].
    cbn [snd] in Hins. cbv zeta. cbn [exit_code].
    case_bool_decide as Hfailed; [done|]. intros _.
    unfold count_status in Hfailed.
    apply map_size_non_empty_iff, map_choose in Hfailed as (id & r & Hr).
    apply map_lookup_filter_Some in Hr as [Hid Hr]. cbn in Hr. subst r.
    rewrite Hins in Hid. clear Hins.
    assert (∀ m entries,
              inserted (λ entry : nat * Scenario, test_id entry.1 entry.2)
                (outcome_status run_test) m entries !! id = Some "failed" →
              m !! id = Some "failed" ∨
              ∃ entry, entry ∈ entries ∧
                       outcome_status run_test entry = "failed") as Hfrom.
    { intros m entries. revert m.
      induction entries as [|entry entries IH]; intros m; [by left|].
      cbn [inserted foldl]. intros [Hm|(e & ? & ?)]%IH.
      - apply lookup_insert_Some in Hm as [[_ Hm]|[_ Hm]]; [|by left].
        right. exists entry. split; [by left|done].
      - right. exists e. split; [by right|done]. }
    apply Hfrom in Hid as [Hid|([i sc] & Hin & Hstatus)];
      [by rewrite lookup_empty in Hid|].
    apply elem_of_lookup_imap in Hin as (j & y & [= -> ->] & Hj).
    exists j, y. split; [done|]. unfold outcome_status in Hstatus.
    cbn [fst snd] in Hstatus.
    destruct (run_test (api_mode y) j y) as [stdout| |]; [|done..].
    unfold result_of_stdout in Hstatus.
    destruct (contains "[PASSED]" stdout); [done|].
    destruct (contains "[FAILED]" stdout); [done|].
    by destruct (contains "[SKIPPED]" stdout).
  - intros stdout Hmark. unfold result_of_stdout.
    destruct (contains "[PASSED]" stdout); [done|].
    destruct Hmark as [|Hnone]; [done|]. rewrite Hnone.
    by destruct (contains "[SKIPPED]" stdout).
Qed.

End facts.

End SpriteCounts.
(** * Every run of the stage graph comes to its report *)

Module SpriteRun.
Import PyStr Sprite.

(** A round of [execute] leaves the retry counters alone, whatever the
    executor answers. *)
Lemma execute_round_counters env steps state :
  let state' := merge state (node_update env Execute steps state) in
  get_retries state' = get_retries state ∧
  get_max_retries state' = get_max_retries state.
Proof.
  cbn [node_update]. unfold get_retries, get_max_retries.
  destruct (execute_tool env _) as [[all_scenarios run_test]|e]; cbn;
    by destruct (retries state), (max_retries state).
Qed.

Lemma report_ends env limit state r :
  ∃ state',
    stream env (S (S limit)) Report state r
    = (true, state',
       on_event Report (node_update env Report (run_steps r) state) r) ∧
    get_retries state' = get_retries state.
Proof.
  rewrite SpriteGraph.stream_step. cbv zeta. cbn [next_node].
  eexists. split; [done|]. apply SpriteGraph.report_round.
Qed.

(** The loop [execute -> fix_tests -> execute] with at most [j] retries
    left: it ends in [report] after [k ≤ j] rounds of fixing. *)
Lemma fix_loop env (j : nat) :
  ∀ limit state r,
    get_max_retries state = get_retries state + j →
    2 * j + 3 ≤ limit →
    ∃ state' r' k,
      stream env limit Execute state r = (true, state', r') ∧
      k ≤ j ∧
      run_steps r'
      = run_steps r ++ concat (replicate k ["execute"; "fix_tests"])
        ++ ["execute"; "report"] ∧
      get_retries state' = get_retries state + k.
Proof.
  induction j as [|j IH]; intros limit state r Hmax Hlimit.
  - destruct limit as [|[|[|limit]]]; [lia..|].
    rewrite SpriteGraph.stream_step. cbv zeta.
    destruct (execute_round_counters env (run_steps r) state) as (Hr & Hm).
    set (st1 := merge state _) in *. clearbody st1.
    assert (should_fix st1 ≠ "fix_tests") as Hno.
    { rewrite SpriteGraph.should_fix_iff. intros [_ ?]. lia. }
    cbn [next_node]. rewrite bool_decide_eq_false_2 by done.
    destruct (report_ends env limit st1
                (on_event Execute (node_update env Execute (run_steps r) state) r))
      as (state' & -> & Hret).
    eexists _, _, 0. split; [done|]. split_and!; [lia| |lia].
    rewrite !SpriteGraph.run_steps_on_event. cbn.
    by rewrite <-(assoc_L (++)).
  - destruct limit as [|[|[|limit]]]; [lia..|].
    rewrite SpriteGraph.stream_step. cbv zeta.
    destruct (execute_round_counters env (run_steps r) state) as (Hr & Hm).
    set (u1 := node_update env Execute (run_steps r) state) in *.
    set (st1 := merge state u1) in *. clearbody st1.
    set (r1 := on_event Execute u1 r).
    cbn [next_node].
    destruct (bool_decide_reflect (should_fix st1 = "fix_tests")) as [Hyes|Hno].
    + rewrite SpriteGraph.stream_step. cbv zeta.
      destruct (SpriteGraph.fix_round env (run_steps r1) st1)
        as (_ & Hr2 & Hm2).
      set (u2 := node_update env FixTests (run_steps r1) st1) in *.
      set (st2 := merge st1 u2) in *. clearbody st2.
      cbn [next_node].
      assert (get_max_retries st2 = get_retries st2 + j) as Hmax2
        by (clear -Hmax Hr Hm Hr2 Hm2; lia).
      assert (2 * j + 3 ≤ S limit) as Hlimit2 by (clear -Hlimit; lia).
      destruct (IH (S limit) st2 (on_event FixTests u2 r1) Hmax2 Hlimit2)
        as (state' & r' & k & Hrun & Hk & Hsteps & Hret).
      exists state', r', (S k). split; [done|].
      split_and!; [clear -Hk; lia| |clear -Hret Hr2 Hr; lia].
      rewrite Hsteps. subst r1. rewrite !SpriteGraph.run_steps_on_event.
      cbn. by rewrite <-!(assoc_L (++)).
    + destruct (report_ends env limit st1 r1) as (state' & -> & Hret).
      eexists _, _, 0. split; [done|].
      split_and!; [clear; lia| |clear -Hret Hr; lia].
      subst r1. rewrite !SpriteGraph.run_steps_on_event. cbn.
      by rewrite <-(assoc_L (++)).
Qed.

(** X19. Whatever the tools answer (results, failures or exceptions), a run
    whose recursion limit is at least 14, as is the runtime's own limit of
    25 that [run_agent_task] leaves in place, goes through every stage and is
    recorded as completed: the streamed steps are [bootstrap], [analyze],
    [prd], the three plans in the order of their names ([backend_plan],
    [frontend_plan], [security_plan]) and [join_plans], then [k] rounds of
    [execute] and [fix_tests] with [k] at most 3, then [execute] and
    [report]; [retries] ends at [k]. No stage failure ends the run early and
    the retry loop never exceeds its bound. *)
Theorem run_reaches_report env recursion_limit fs_project_path url :
  14 ≤ recursion_limit →
  let '(state, r) := run_agent_task env recursion_limit fs_project_path url in
  run_status r = "completed" ∧ run_error r = None ∧
  ∃ k, k ≤ 3 ∧ get_retries state = k ∧
    run_steps r
    = [ "bootstrap"; "analyze"; "prd"; "backend_plan"; "frontend_plan";
        "security_plan"; "join_plans" ]
      ++ concat (replicate k ["execute"; "fix_tests"])
      ++ ["execute"; "report"].
Proof.
  intros Hlimit. unfold run_agent_task.
  do 5 (destruct recursion_limit as [|recursion_limit]; [lia|]).
  set (st0 := initial_state fs_project_path url).
  set (r0 := {| run_status := "running"; run_steps := [] |}).
  rewrite SpriteGraph.stream_step. cbv zeta. unfold next_node at 1.
  destruct (SpriteGraph.early_round env Bootstrap (run_steps r0) st0)
    as [Hr1 Hm1]; [by repeat constructor|].
  set (st1 := merge st0 _) in *. clearbody st1.
  set (r1 := on_event Bootstrap _ r0).
  rewrite SpriteGraph.stream_step. cbv zeta. unfold next_node at 1.
  destruct (SpriteGraph.early_round env Analyze (run_steps r1) st1)
    as [Hr2 Hm2]; [by repeat constructor|].
  set (st2 := merge st1 _) in *. clearbody st2.
  set (r2 := on_event Analyze _ r1).
  rewrite SpriteGraph.stream_step. cbv zeta. unfold next_node at 1.
  destruct (SpriteGraph.early_round env Prd (run_steps r2) st2)
    as [Hr3 Hm3]; [by repeat constructor|].
  set (st3 := merge st2 _) in *. clearbody st3.
  set (r3 := on_event Prd _ r2).
  rewrite SpriteGraph.stream_step. cbv zeta. unfold next_node at 1.
  destruct (SpriteGraph.early_round env Plans (run_steps r3) st3)
    as [Hr4 Hm4]; [by repeat constructor|].
  set (st4 := merge st3 _) in *. clearbody st4.
  set (r4 := on_event Plans _ r3).
  rewrite SpriteGraph.stream_step. cbv zeta. unfold next_node at 1.
  destruct (SpriteGraph.early_round env JoinPlans (run_steps r4) st4)
    as [Hr5 Hm5]; [by repeat constructor|].
  set (st5 := merge st4 _) in *. clearbody st5.
  set (r5 := on_event JoinPlans _ r4).
  assert (get_retries st5 = 0 ∧ get_max_retries st5 = 3) as [Hr Hm].
  { rewrite Hr5, Hr4, Hr3, Hr2, Hr1, Hm5, Hm4, Hm3, Hm2, Hm1. done. }
  destruct (fix_loop env 3 recursion_limit st5 r5)
    as (state' & r' & k & -> & Hk & Hsteps & Hret); [lia..|].
  cbn beta iota zeta delta [run_steps run_status run_error].
  split_and!; [done..|]. exists k. split_and!; [done|lia|].
  rewrite Hsteps. done.
Qed.

Lemma run_reaches_report_witness :
  14 ≤ 25 ∧
  let '(state, r) :=
    run_agent_task stuck_env 25 "/tmp/run" "http://shop.test" in
  run_status r = "completed" ∧ run_error r = None ∧
  ∃ k, k ≤ 3 ∧ get_retries state = k ∧
    run_steps r
    = [ "bootstrap"; "analyze"; "prd"; "backend_plan"; "frontend_plan";
        "security_plan"; "join_plans" ]
      ++ concat (replicate k ["execute"; "fix_tests"])
      ++ ["execute"; "report"].
Proof.
  split; [lia|].
  apply (run_reaches_report stuck_env 25 "/tmp/run" "http://shop.test"). lia.
Defined.

(** With the limit used up by the thirteenth step the run is recorded as
    failed, all its steps streamed. *)
Example run_out_of_steps :
  let '(state, r) :=
    run_agent_task stuck_env 13 "/tmp/run" "http://shop.test" in
  run_status r = "failed" ∧ run_error r = Some "Recursion limit reached" ∧
  run_steps r
  = [ "bootstrap"; "analyze"; "prd"; "backend_plan"; "frontend_plan";
      "security_plan"; "join_plans" ]
    ++ concat (replicate 3 ["execute"; "fix_tests"])
    ++ ["execute"; "report"].
Proof. by vm_compute. Qed.

End SpriteRun.
(** * From the crawl to the results of a run *)

Module PlanApiFacts.
Import PyStr AppMapData Planner Explorer Executor PlanShape PlanApi.

Section facts.
Variable urlparse : string → option ParseResult.
Variable urljoin : string → string → option string.
Variable goto : string → Response.
Variable message : string.

(** The pages of the app map, also inside its modules, are on the host of
    the URL the crawl started from. *)
Lemma explore_pages_host url max_pages app_map :
  explore urlparse urljoin goto url max_pages = Returns app_map →
  (∀ p, p ∈ am_pages app_map →
        host urlparse (page_url p) = host urlparse url) ∧
  (∀ name md p, (name, md) ∈ am_modules app_map → p ∈ md_pages md →
                p ∈ am_pages app_map).
Proof.
  intros Hrun.
  pose proof (ExplorerCrawl.crawl_grows urlparse urljoin goto max_pages url)
    as Hgrows.
  destruct (ExplorerCrawl.explore_returns urlparse urljoin goto max_pages
              url app_map Hrun) as (self & Hself & Hpages & Hmodules).
  rewrite Hself in Hgrows. destruct Hgrows as ([_ _ Hp] & Hhost & Hmods).
  rewrite Hpages, Hmodules, Hhost. split; [done|].
  intros name md p Hin Hpage.
  destruct (ExplorerCrawl.group_modules_pages _ _ _ _ _ _ Hin Hpage)
    as [?|(md' & Hin' & _)]; [done|].
  rewrite Hmods in Hin'. by apply elem_of_nil in Hin'.
Qed.

Lemma task_ready url max_pages entry plan :
  run_exploration_task urlparse urljoin goto message url max_pages entry
  = Returns plan →
  sp_status plan = "ready" →
  ∃ app_map,
    explore urlparse urljoin goto url max_pages = Returns app_map ∧
    plan = {| sp_url := sp_url entry; sp_status := "ready";
              sp_app_map := Some app_map;
              sp_test_plan := Some (generate_test_plan app_map);
              sp_error := sp_error entry |}.
Proof.
  unfold run_exploration_task.
  destruct (explore urlparse urljoin goto url max_pages) as [| |app_map];
    [done| |]; intros [= <-]; [done|]. intros _. by exists app_map.
Qed.

(** X20. The exploration task always ends, with the plan either ready or failed,
    never left in [exploring] or [planning]. It fails exactly when the
    explorer raises; then the error is recorded and the entry keeps its app
    map and test plan. Otherwise the entry carries the app map and the plan
    generated from it, and every scenario of that plan starts by navigating
    to the URL of a crawled page, on the host of the URL that was
    explored. *)
Theorem exploration_task_outcome url max_pages entry :
  match
    run_exploration_task urlparse urljoin goto message url max_pages entry
  with
  | Returns plan =>
      sp_url plan = sp_url entry ∧
      (explore urlparse urljoin goto url max_pages = Raises ∧
       sp_status plan = "failed" ∧ sp_error plan = Some message ∧
       sp_app_map plan = sp_app_map entry ∧
       sp_test_plan plan = sp_test_plan entry
       ∨
       ∃ app_map,
         explore urlparse urljoin goto url max_pages = Returns app_map ∧
         sp_status plan = "ready" ∧ sp_error plan = sp_error entry ∧
         sp_app_map plan = Some app_map ∧
         sp_test_plan plan = Some (generate_test_plan app_map) ∧
         ∀ s, s ∈ emitted app_map →
           ∃ page d rest,
             page ∈ am_pages app_map ∧
             ts_steps s = step "navigate" (page_url page) d :: rest ∧
             host urlparse (page_url page) = host urlparse url)
  | _ => False
  end.
Proof.
  pose proof (ExplorerCrawl.crawl_grows urlparse urljoin goto max_pages url)
    as Hgrows.
  unfold run_exploration_task.
  destruct (explore urlparse urljoin goto url max_pages) as [| |app_map]
    eqn:Hrun.
  - unfold explore in Hrun.
    by destruct (crawl urlparse urljoin goto url max_pages).
  - split; [done|]. left. by split_and!.
  - split; [done|]. right. exists app_map. split_and!; [done..|].
    destruct (explore_pages_host url max_pages app_map Hrun) as [Hhost Hmods].
    intros s Hs.
    destruct (proj1 (Forall_forall _ _)
                (PlanShapeFacts.emitted_shape app_map) s Hs)
      as (md & page & Hmd & Hpage & _ & d & rest & final & Hsteps & _).
    exists page, d, (rest ++ [final]).
    assert (page ∈ am_pages app_map) as Hin by by eapply Hmods.
    split_and!; [done..|]. by apply Hhost.
Qed.

(** ** The size of the plan of a crawl *)

Lemma module_of_type_entry (entry : string * list string) ty :
  entry ∈ Explorer.module_mapping → mem ty entry.2 = true →
  module_of_type ty = entry.1.
Proof.
  unfold Explorer.module_mapping. intros Hentry Hty.
  repeat (apply elem_of_cons in Hentry as [->|Hentry];
          [cbn [snd] in Hty; apply bool_decide_eq_true in Hty;
           repeat (apply elem_of_cons in Hty as [->|Hty]; [by vm_compute|]);
           by apply elem_of_nil in Hty|]).
  by apply elem_of_nil in Hentry.
Qed.

Lemma weigh_by_module (g : Page → nat) (all_pages : list Page)
    (mapping : list (string * list string)) :
  sum_list ((λ entry : string * list string,
               sum_list (g <$> filter (λ p, mem (page_type p) entry.2 = true)
                                 all_pages)) <$> mapping)
  = sum_list ((λ p, g p * sum_list ((λ entry : string * list string,
                                       if mem (page_type p) entry.2
                                       then 1 else 0) <$> mapping))
              <$> all_pages).
Proof.
  induction all_pages as [|p ps IH].
  - simpl. induction mapping as [|entry mapping IHm]; [done|]. exact IHm.
  - rewrite fmap_cons.
    change (sum_list (?a :: ?l)) with (a + sum_list l).
    rewrite <-IH. clear IH.
    induction mapping as [|entry mapping IHm]; [simpl; lia|].
    rewrite !fmap_cons.
    change (sum_list (?a :: ?l)) with (a + sum_list l).
    rewrite IHm, filter_cons. clear IHm.
    destruct (mem (page_type p) entry.2); cbn beta.
    + rewrite decide_True by done. rewrite fmap_cons.
      change (sum_list (?a :: ?l)) with (a + sum_list l). lia.
    + rewrite decide_False by done. lia.
Qed.

Lemma entries_size (all_pages : list Page)
    (mapping : list (string * list string)) :
  mapping ⊆ Explorer.module_mapping →
  sum_list (scenarios_of_module
              <$> omap (ExplorerInv.module_entry all_pages) mapping)
  = sum_list ((λ entry : string * list string,
                 sum_list (scenarios_of_crawled
                             <$> filter (λ p, mem (page_type p) entry.2 = true)
                                   all_pages)) <$> mapping).
Proof.
  induction mapping as [|entry mapping IH]; intros Hsub; [done|].
  assert (entry ∈ Explorer.module_mapping) as Hentry by (apply Hsub; left).
  assert (mapping ⊆ Explorer.module_mapping) as Hsub'
    by (intros x ?; apply Hsub; by right).
  rewrite fmap_cons. change (sum_list (?a :: ?l)) with (a + sum_list l).
  rewrite <-(IH Hsub'). cbn [omap list_omap].
  assert (∀ ps, Forall (λ p, mem (page_type p) entry.2 = true) ps →
            sum_list (scenarios_of_page entry.1 <$> ps)
            = sum_list (scenarios_of_crawled <$> ps)) as Hsame.
  { intros ps Hps. induction Hps as [|p ps Hp _ IHps]; [done|].
    rewrite !fmap_cons. change (sum_list (?a :: ?l)) with (a + sum_list l).
    change (sum_list (?a :: ?l)) with (a + sum_list l). rewrite IHps.
    unfold scenarios_of_crawled.
    by rewrite (module_of_type_entry entry (page_type p) Hentry Hp). }
  unfold ExplorerInv.module_entry at 1.
  pose proof (Hsame (filter (λ p, mem (page_type p) entry.2 = true) all_pages))
    as Hf.
  destruct (filter _ all_pages) as [|p0 ps] eqn:Hfilter; [done|].
  rewrite fmap_cons. change (sum_list (?a :: ?l)) with (a + sum_list l).
  unfold scenarios_of_module at 1. cbn [fst snd md_pages].
  rewrite Hf; [done|]. rewrite <-Hfilter. apply Forall_forall.
  by intros p [? _]%list_elem_of_filter.
Qed.

(** X21. The plan of a crawl is as large as its pages make it: [total_scenarios]
    is the sum over the crawled pages of a number that depends on the page
    alone (four for a login page, one for a registration page, one and one
    per button other than cancel and close for a dashboard, one and one per
    named navigation link for a landing page, one and one per form for a
    settings or a general page, one for a profile, a list or an edit page,
    two for a create page). Pages of type [password_reset] and [detail] get
    no scenario. *)
Theorem explored_plan_size url max_pages :
  match explore urlparse urljoin goto url max_pages with
  | Returns app_map =>
      total_scenarios (generate_test_plan app_map)
      = sum_list (scenarios_of_crawled <$> am_pages app_map) ∧
      ∀ page, page ∈ am_pages app_map →
        (page_type page = "password_reset" ∨ page_type page = "detail" →
         scenarios_of_crawled page = 0) ∧
        (page_type page ≠ "password_reset" → page_type page ≠ "detail" →
         0 < scenarios_of_crawled page)
  | _ => True
  end.
Proof.
  pose proof (ExplorerCrawl.crawl_grows urlparse urljoin goto max_pages url)
    as Hgrows.
  destruct (explore urlparse urljoin goto url max_pages) as [| |app_map]
    eqn:Hrun; [done..|].
  destruct (ExplorerCrawl.explore_returns urlparse urljoin goto max_pages
              url app_map Hrun) as (self & Hself & Hpages & Hmodules).
  rewrite Hself in Hgrows. destruct Hgrows as (_ & _ & Hmods).
  pose proof (ExplorerPages.crawl_pages_ok urlparse urljoin goto max_pages
                url self Hself) as Hok.
  rewrite <-Hpages in Hok. split.
  - change (total_scenarios (generate_test_plan app_map))
      with (length (emitted app_map)).
    rewrite PlanShapeFacts.emitted_length, Hmodules, Hmods, <-Hpages.
    rewrite ExplorerPages.group_modules_entries;
      [|apply ExplorerPages.module_mapping_names
       |by intros ? _ ?%elem_of_nil].
    cbn [app]. rewrite entries_size by done. rewrite weigh_by_module.
    clear Hrun Hpages Hmodules.
    induction Hok as [|p ps Hp _ IH]; [done|].
    rewrite !fmap_cons. change (sum_list (?a :: ?l)) with (a + sum_list l).
    change (sum_list (?a :: ?l)) with (a + sum_list l).
    rewrite IH. destruct Hp as [Hty _ _ _ _ _ _].
    rewrite (ExplorerPages.page_type_one_module _ Hty). lia.
  - intros page Hpage.
    destruct (proj1 (Forall_forall _ _) Hok page Hpage)
      as [Hty _ _ _ _ _ _].
    unfold scenarios_of_crawled, scenarios_of_page, ExplorerInv.page_types
      in *.
    repeat (apply elem_of_cons in Hty as [Hty|Hty];
            [rewrite Hty; split;
             [intros [Heq|Heq]; first [discriminate Heq|by vm_compute]
             |intros Hn1 Hn2;
              first [by destruct Hn1|by destruct Hn2|vm_compute; lia]]|]).
    by apply elem_of_nil in Hty.
Qed.

Lemma listed_generated app_map :
  listed (plan_modules (generate_test_plan app_map))
  ≡ₚ to_dict <$> emitted app_map.
Proof.
  unfold generate_test_plan, generate_scenarios. cbn [plan_modules].
  by rewrite (PlannerFacts.grouping_listed _ (emitted app_map) []).
Qed.

Lemma listed_ids_NoDup app_map :
  NoDup (sd_id <$> listed (plan_modules (generate_test_plan app_map))).
Proof.
  rewrite listed_generated, <-list_fmap_compose.
  apply (PlannerFacts.emitted_ids_NoDup app_map).
Qed.

(** X22. A generated plan, run as a whole, gives one result per scenario. When
    the plan of a finished exploration is run without a filter, the request
    is refused with status 400 exactly when the plan has no scenario;
    otherwise the run gets all scenarios of the plan, [scenarios_count] is
    the plan's [total_scenarios], the run is made against the URL stored
    with the plan, and, once the browser is up, it completes with exactly
    [total_scenarios] results, one under the id of each scenario, each
    passed or failed. *)
Theorem whole_plan_run url max_pages entry plan PLANS plan_id :
  run_exploration_task urlparse urljoin goto message url max_pages entry
  = Returns plan →
  sp_status plan = "ready" →
  PLANS !! plan_id = Some plan →
  ∃ test_plan,
    sp_test_plan plan = Some test_plan ∧
    match run_plan_scenarios PLANS plan_id run_all with
    | Answered run =>
        0 < total_scenarios test_plan ∧
        scenarios_count run = total_scenarios test_plan ∧
        run_scenarios run = listed (plan_modules test_plan) ∧
        run_target_url run = sp_url entry ∧
        ∀ (B : Type) (drv : Driver B) (b : B),
          let res := run_scenarios_task drv (inl b) (run_target_url run)
                       (run_scenarios run) in
          Executor.run_status res = "completed" ∧
          size (Executor.run_results res) = total_scenarios test_plan ∧
          ∀ scenario, scenario ∈ run_scenarios run →
            ∃ r, Executor.run_results res !! sd_id scenario = Some r ∧
                 sr_id r = sd_id scenario ∧
                 (sr_status r = "passed" ∨ sr_status r = "failed")
    | HTTPException status_code detail =>
        total_scenarios test_plan = 0 ∧ status_code = 400 ∧
        detail = "No scenarios to run"
    | Unhandled => False
    end.
Proof.
  intros Htask Hready Hplan.
  destruct (task_ready url max_pages entry plan Htask Hready)
    as (app_map & _ & ->).
  exists (generate_test_plan app_map). split; [done|].
  unfold run_plan_scenarios. rewrite Hplan.
  cbn [sp_status sp_test_plan sp_url negb].
  rewrite bool_decide_eq_true_2 by done. cbn [negb].
  change (scenarios_to_run (plan_modules (generate_test_plan app_map)) run_all)
    with (Answered (listed (plan_modules (generate_test_plan app_map)))).
  pose proof (listed_generated app_map) as Hperm.
  pose proof (listed_ids_NoDup app_map) as Hnd.
  assert (length (listed (plan_modules (generate_test_plan app_map)))
          = total_scenarios (generate_test_plan app_map)) as Hlen.
  { rewrite Hperm, length_fmap. done. }
  set (scenarios := listed (plan_modules (generate_test_plan app_map))) in *.
  clearbody scenarios. clear Hperm.
  destruct scenarios as [|sd sds].
  - by split_and!.
  - cbn [scenarios_count run_scenarios run_target_url].
    split_and!; [rewrite <-Hlen; simpl; lia|done..|].
    intros B drv b.
    destruct (ExecutorRecord.run_task_results drv (sp_url entry)
                (sd :: sds) b) as (Hstatus & Hall & Hfrom).
    pose proof (ExecutorRecord.run_task_dom drv (sp_url entry) (sd :: sds) b)
      as Hdom.
    cbv zeta in *.
    set (res := run_scenarios_task drv (inl b) _ _) in *. clearbody res.
    split_and!; [done| |].
    + by rewrite <-size_dom, Hdom, size_list_to_set, length_fmap.
    + intros scenario Hin. destruct (Hall scenario Hin) as [r Hr].
      exists r. split; [done|].
      by apply (ExecutorRecord.executed_result_id drv (sp_url entry)
                  (sd :: sds) (Executor.run_results res)).
Qed.

End facts.

Lemma whole_plan_run_witness :
  ∃ test_plan,
    sp_test_plan sample_plan = Some test_plan ∧
    match run_plan_scenarios {[ "plan-1" := sample_plan ]} "plan-1" run_all
    with
    | Answered run =>
        0 < total_scenarios test_plan ∧
        scenarios_count run = total_scenarios test_plan ∧
        run_scenarios run = listed (plan_modules test_plan) ∧
        run_target_url run = "https://host/" ∧
        ∀ (B : Type) (drv : Driver B) (b : B),
          let res := run_scenarios_task drv (inl b) (run_target_url run)
                       (run_scenarios run) in
          Executor.run_status res = "completed" ∧
          size (Executor.run_results res) = total_scenarios test_plan ∧
          ∀ scenario, scenario ∈ run_scenarios run →
            ∃ r, Executor.run_results res !! sd_id scenario = Some r ∧
                 sr_id r = sd_id scenario ∧
                 (sr_status r = "passed" ∨ sr_status r = "failed")
    | HTTPException status_code detail =>
        total_scenarios test_plan = 0 ∧ status_code = 400 ∧
        detail = "No scenarios to run"
    | Unhandled => False
    end.
Proof.
  apply (whole_plan_run sample_urlparse sample_urljoin sample_goto ""
           "https://host/" 10 (new_plan "https://host/") sample_plan
           {[ "plan-1" := sample_plan ]} "plan-1").
  - by vm_compute.
  - by vm_compute.
  - by vm_compute.
Defined.

(** The sample plan has two scenarios, one for the landing page and one for
    the page it links to, and running it whole starts a run of both. *)
Example sample_plan_run :
  (total_scenarios <$> sp_test_plan sample_plan) = Some 2 ∧
  match run_plan_scenarios {[ "plan-1" := sample_plan ]} "plan-1" run_all with
  | Answered run =>
      sd_id <$> run_scenarios run = ["dash_001"; "gen_002"] ∧
      scenarios_count run = 2
  | _ => False
  end.
Proof. by vm_compute. Qed.

End PlanApiFacts.
